(** * clickhouse-client bootstrap: argument tokenizer, credential resolver,
      connection bootstrapper and prompt composer

    A shallow embedding of [programs/client/Client.cpp] and
    [src/Client/ConnectionParameters.cpp], and the properties of the
    bootstrap proved about it.

    Modelling conventions.
    - C++ integers are [Z]; a narrowing conversion is written out
      ([to_UInt16], [to_UInt8]).
    - A step that may end the process with [_exit] returns [Progressing A].
      A loop over the packets of the connection takes what the successive
      calls of [receivePacket] give as a list, and answers [None] when the
      list runs out before the loop has ended.
    - [std::string] is [string]; [std::optional<T>] is [option T].
    - A function that throws a [DB::Exception] returns [Exceptional A].  A
      member function of [Client] mutates the object and may throw after
      having mutated it: it returns its result together with the client as
      it has left it.
    - [Poco::Util::AbstractConfiguration] is an interface (a type class);
      [MapConfiguration] and [LayeredConfiguration] are the two
      implementations the client uses.  A configuration stores raw strings;
      typed reads go through the conversions of [ConfigSyntax].  The
      conversions are total: a malformed number or boolean is rejected inside
      the configuration layer, with an exception of its own, outside the code
      embedded here.
    - Constants, build switches and collaborators that the two source files
      only use (error codes, protocol defaults, the connection, the terminal,
      the resolver, the process environment) are fields of type classes, so
      that a statement holds for all of their values.  [Reference] gives them
      values to run the definitions.
    - The record [events] of a client is a ghost field: the calls of
      [connect] and the hosts attempted, in order. *)

From stdpp Require Import base strings list gmap pretty.
From Stdlib Require Import ZArith Lia Ascii.

Open Scope Z_scope.

(** ** Strings *)

Module Str.

(** [s.starts_with(p)] *)
Definition starts_with (s p : string) : bool := String.prefix p s.

(** [s.ends_with(suffix)] *)
Definition ends_with (s suffix : string) : bool :=
  let n := String.length s in
  let m := String.length suffix in
  if (m <=? n)%nat then String.eqb (String.substring (n - m) m s) suffix else false.

(** [s.contains(sub)] *)
Fixpoint contains (s sub : string) : bool :=
  if String.prefix sub s then true
  else match s with
       | EmptyString => false
       | String _ rest => contains rest sub
       end.

(** [s.empty()] *)
Definition empty (s : string) : bool :=
  match s with EmptyString => true | _ => false end.

(** [s.substr(n)] *)
Fixpoint substr_from (n : nat) (s : string) : string :=
  match n, s with
  | O, _ => s
  | S n', String _ rest => substr_from n' rest
  | S _, EmptyString => EmptyString
  end.

(** [s.find_first_of(c)], [None] for [npos] *)
Fixpoint find_first_of (s : string) (c : Ascii.ascii) : option nat :=
  match s with
  | EmptyString => None
  | String a rest =>
      if Ascii.eqb a c then Some O
      else match find_first_of rest c with
           | Some i => Some (S i)
           | None => None
           end
  end.

(** [boost::replace_all(input, search, format)]: every occurrence of
    [search], found left to right and not overlapping, is replaced; the
    replacement text is not searched again.  [skip] counts the characters
    of an occurrence that are still to be dropped. *)
Fixpoint replace_all_from (skip : nat) (input search format : string) : string :=
  match input with
  | EmptyString => EmptyString
  | String c rest =>
      match skip with
      | S k => replace_all_from k rest search format
      | O =>
          if negb (empty search) && String.prefix search input
          then format +:+ replace_all_from (String.length search - 1) rest search format
          else String c (replace_all_from O rest search format)
      end
  end.

Definition replace_all (input search format : string) : string :=
  replace_all_from O input search format.

End Str.

(** ** Exceptions *)

(** [DB::Exception]: a numeric code and a message. *)
Record Exception := mkException { code : Z; message : string }.

Inductive Exceptional (A : Type) : Type :=
| Returns (a : A)
| Throws (e : Exception).
Arguments Returns {A} a.
Arguments Throws {A} e.

#[export] Instance Exceptional_ret : MRet Exceptional := λ A a, Returns a.

#[export] Instance Exceptional_bind : MBind Exceptional := λ A B k m,
  match m with
  | Returns a => k a
  | Throws e => Throws e
  end.

(** The [ErrorCodes::*] that the embedded code throws or tests, declared
    [extern const int] in the two source files. *)
Class ErrorCodes := {
  BAD_ARGUMENTS : Z;
  SUPPORT_IS_DISABLED : Z;
  NETWORK_ERROR : Z;
  AUTHENTICATION_FAILED : Z;
  REQUIRED_PASSWORD : Z;
  NO_ELEMENTS_IN_CONFIG : Z;
}.

(** Narrowing conversions. *)
Definition to_UInt16 (n : Z) : Z := n mod 65536.
Definition to_UInt8 (n : Z) : Z := n mod 256.

(** ** Configuration *)

(** Conversions of the configuration layer between raw strings and typed
    values ([getInt], [getBool], [setInt]). *)
Class ConfigSyntax := {
  parseInt : string → Z;
  parseBool : string → bool;
  formatInt : Z → string;
}.

(** [Poco::Util::AbstractConfiguration]: raw lookup, raw store, and the
    enumeration of the sub-keys of a key. *)
Class AbstractConfiguration (C : Type) := {
  getRaw : C → string → option string;
  setRaw : string → string → C → C;
  enumerate : C → string → list string;
}.

(** What every implementation guarantees about [setRaw]. *)
Class ConfigurationLaws (C : Type) `{AbstractConfiguration C} := {
  getRaw_setRaw_eq : ∀ (c : C) k v, getRaw (setRaw k v c) k = Some v;
  getRaw_setRaw_ne : ∀ (c : C) k k' v, k ≠ k' → getRaw (setRaw k v c) k' = getRaw c k';
}.

Section TypedAccess.
Context `{ConfigSyntax} {C : Type} `{AbstractConfiguration C}.

Definition has (c : C) (key : string) : bool :=
  match getRaw c key with Some _ => true | None => false end.

Definition getString (c : C) (key default_value : string) : string :=
  default default_value (getRaw c key).

(** [getString(key)] and [getRawString(key)] without a default are only
    called on keys known to exist. *)
Definition getString1 (c : C) (key : string) : string := getString c key "".
Definition getRawString (c : C) (key : string) : string := getString c key "".

Definition getInt (c : C) (key : string) (default_value : Z) : Z :=
  from_option parseInt default_value (getRaw c key).
Definition getInt1 (c : C) (key : string) : Z := getInt c key 0.

Definition getBool (c : C) (key : string) (default_value : bool) : bool :=
  from_option parseBool default_value (getRaw c key).
Definition getBool1 (c : C) (key : string) : bool := getBool c key false.

Definition keys (c : C) (key : string) : list string := enumerate c key.

Definition setString (key value : string) (c : C) : C := setRaw key value c.
Definition setInt (key : string) (value : Z) (c : C) : C := setRaw key (formatInt value) c.
Definition setUInt (key : string) (value : Z) (c : C) : C := setRaw key (formatInt value) c.
Definition setBool (key : string) (value : bool) (c : C) : C :=
  setRaw key (if value then "true" else "false") c.
End TypedAccess.

(** A single configuration document: the loaded client config file, or the
    application's own property map.  [subkeys] is the enumeration of the
    document's sections; the keys written by the client are top-level and
    leave it as it is. *)
Record MapConfiguration := mkMapConfiguration {
  properties : gmap string string;
  subkeys : string → list string;
}.

#[export] Instance MapConfiguration_config : AbstractConfiguration MapConfiguration := {
  getRaw c key := properties c !! key;
  setRaw key value c := mkMapConfiguration (<[key := value]> (properties c)) (subkeys c);
  enumerate c key := subkeys c key;
}.

(** [Poco::Util::LayeredConfiguration], as [Application::config()] uses it:
    the writeable application layer is searched first, the layers added with
    [add] afterwards, in the order of their addition; writes go to the
    application layer. *)
Record LayeredConfiguration := mkLayered {
  application : MapConfiguration;
  added : list MapConfiguration;
}.

Fixpoint first_raw (layers : list MapConfiguration) (key : string) : option string :=
  match layers with
  | [] => None
  | l :: rest =>
      match getRaw l key with
      | Some v => Some v
      | None => first_raw rest key
      end
  end.

(** Keys of all layers, each key once, in the order of first appearance. *)
Fixpoint push_new (seen range : list string) : list string :=
  match range with
  | [] => seen
  | k :: rest => push_new (if bool_decide (k ∈ seen) then seen else seen ++ [k]) rest
  end.

#[export] Instance LayeredConfiguration_config : AbstractConfiguration LayeredConfiguration := {
  getRaw c key := first_raw (application c :: added c) key;
  setRaw key value c := mkLayered (setRaw key value (application c)) (added c);
  enumerate c key :=
    foldl (λ seen layer, push_new seen (enumerate layer key)) [] (application c :: added c);
}.

(** [config().add(layer)] *)
Definition add_layer (layer : MapConfiguration) (c : LayeredConfiguration) : LayeredConfiguration :=
  mkLayered (application c) (added c ++ [layer]).

(** ** ConnectionParameters.cpp *)

(** [Core/Defines.h] and [ConnectionParameters.h]: protocol defaults and the
    sentinel stored for a [--password] given without a value. *)
Class Defines := {
  DBMS_DEFAULT_PORT : Z;
  DBMS_DEFAULT_SECURE_PORT : Z;
  DBMS_DEFAULT_CONNECT_TIMEOUT_SEC : Z;
  DBMS_DEFAULT_SEND_TIMEOUT_SEC : Z;
  DBMS_DEFAULT_RECEIVE_TIMEOUT_SEC : Z;
  DEFAULT_TCP_KEEP_ALIVE_TIMEOUT : Z;
  DBMS_DEFAULT_SYNC_REQUEST_TIMEOUT_SEC : Z;
  ASK_PASSWORD : string;
}.

(** Build switches tested with [#if]. *)
Class BuildOptions := {
  USE_JWT_CPP_AND_SSL : bool;
  USE_SSH : bool;
}.

(** The terminal, the SSH key loader and the resolver, as the constructor
    calls them. *)
Class Terminal := {
  SSHKey : Type;
  makePrivateKeyFromFile : string → string → Exceptional SSHKey;
  isPrivate : SSHKey → bool;
  (** [readpassphrase(prompt, buf, sizeof(buf), 0)]; [None] is a null result *)
  readpassphrase : string → option string;
  (** [isLocalAddress(DNSResolver::instance().resolveHostAllInOriginOrder(host).front())] *)
  resolvesToLocalAddress : string → Exceptional bool;
}.

Inductive Secure := SecureDisable | SecureEnable.
Inductive Compression := CompressionDisable | CompressionEnable.

(** [Poco::Timespan] values, in microseconds. *)
Record ConnectionTimeouts := mkTimeouts {
  connection_timeout : Z;
  send_timeout : Z;
  receive_timeout : Z;
  tcp_keep_alive_timeout : Z;
  handshake_timeout : Z;
  sync_request_timeout : Z;
}.

Definition Timespan (seconds microseconds : Z) : Z := seconds * 1000000 + microseconds.

Module ConnectionParameters.
Section ConnectionParameters.
Context `{ErrorCodes} `{Defines} `{BuildOptions} `{Terminal} `{ConfigSyntax}.

(** A default-constructed [SSHKey] is the empty key, [None]. *)
Record t := mk {
  host : string;
  port : Z;
  default_database : string;
  user : string;
  password : string;
  quota_key : string;
  ssh_private_key : option SSHKey;
  jwt : string;
  security : Secure;
  compression : Compression;
  timeouts : ConnectionTimeouts;
  bind_host : string;
  proto_send_chunked : string;
  proto_recv_chunked : string;
}.

Context {C : Type} `{AbstractConfiguration C}.

Definition enableSecureConnection (config : C) (connection_host : string)
    (connection_port : option Z) : bool :=
  if getBool config "secure" false then true
  else if getBool config "no-secure" false then false
  else if Str.ends_with connection_host ".clickhouse.cloud"
          || Str.ends_with connection_host ".clickhouse-staging.com" then true
  else match connection_port with
       | Some p => if p =? DBMS_DEFAULT_SECURE_PORT then true else false
       | None => false
       end.

Definition getPortFromConfig (config : C) (connection_host : string) : Z :=
  let is_secure := enableSecureConnection config connection_host None in
  to_UInt16
    (getInt config "port"
       (getInt config (if is_secure then "tcp_port_secure" else "tcp_port")
          (if is_secure then DBMS_DEFAULT_SECURE_PORT else DBMS_DEFAULT_PORT))).

(** The three credential fields [(jwt, ssh_private_key, password)] as the
    [if (config.has("jwt")) ... else if (config.has("ssh-key-file")) ... else]
    chain of the constructor leaves them; [user] has been read before. *)
Definition resolve_credentials (config : C) (user : string)
    : Exceptional (string * option SSHKey * string) :=
  if has config "jwt" then
    if USE_JWT_CPP_AND_SSL then Returns (getString1 config "jwt", None, "")
    else Throws (mkException SUPPORT_IS_DISABLED
                   "JWT is disabled, because ClickHouse is built without JWT or SSL support")
  else if has config "ssh-key-file" then
    if USE_SSH then
      let filename := getString1 config "ssh-key-file" in
      let passphrase :=
        if has config "ssh-key-passphrase" then getString1 config "ssh-key-passphrase"
        else default ""
               (readpassphrase "Enter your SSH private key passphrase (leave empty for no passphrase): ") in
      key ← makePrivateKeyFromFile filename passphrase;
      if negb (isPrivate key) then
        Throws (mkException BAD_ARGUMENTS "File {} did not contain a private key (is it a public key?)")
      else Returns ("", Some key, "")
    else Throws (mkException SUPPORT_IS_DISABLED
                   "SSH is disabled, because ClickHouse is built without libssh")
  else
    '(password, password_prompt) ←
      (if getBool config "ask-password" false then
         if has config "password" then
           Throws (mkException BAD_ARGUMENTS
                     "Specified both --password and --ask-password. Remove one of them")
         else Returns ("", true)
       else
         let password := getString config "password" "" in
         Returns (password, String.eqb password ASK_PASSWORD));
    let password :=
      if password_prompt : bool then
        default password (readpassphrase ("Password for user (" +:+ user +:+ "): "))
      else password in
    Returns ("", None, password).

Definition resolve_timeouts (config : C) : ConnectionTimeouts :=
  {| connection_timeout := Timespan (getInt config "connect_timeout" DBMS_DEFAULT_CONNECT_TIMEOUT_SEC) 0;
     send_timeout := Timespan (getInt config "send_timeout" DBMS_DEFAULT_SEND_TIMEOUT_SEC) 0;
     receive_timeout := Timespan (getInt config "receive_timeout" DBMS_DEFAULT_RECEIVE_TIMEOUT_SEC) 0;
     tcp_keep_alive_timeout := Timespan (getInt config "tcp_keep_alive_timeout" DEFAULT_TCP_KEEP_ALIVE_TIMEOUT) 0;
     handshake_timeout :=
       getInt config "handshake_timeout_ms" (DBMS_DEFAULT_RECEIVE_TIMEOUT_SEC * 1000) * 1000;
     sync_request_timeout := Timespan (getInt config "sync_request_timeout" DBMS_DEFAULT_SYNC_REQUEST_TIMEOUT_SEC) 0 |}.

(** [ConnectionParameters(config, host_, database, port_)] *)
Definition new (config : C) (host_ database : string) (port_ : option Z) : Exceptional t :=
  let port := match port_ with Some p => p | None => getPortFromConfig config host_ end in
  let security := if enableSecureConnection config host_ None then SecureEnable else SecureDisable in
  let bind_host := getString config "bind_host" "" in
  let user := getString config "user" "default" in
  '(jwt, ssh_private_key, password) ← resolve_credentials config user;
  let proto_send_chunked := getString config "proto_caps.send" "notchunked" in
  let proto_recv_chunked := getString config "proto_caps.recv" "notchunked" in
  let quota_key := getString config "quota_key" "" in
  not_local ←
    (if String.eqb host_ "localhost" then Returns false
     else is_local ← resolvesToLocalAddress host_; Returns (negb is_local));
  let compression :=
    if getBool config "compression" not_local then CompressionEnable else CompressionDisable in
  Returns
    {| host := host_; port := port; default_database := database; user := user;
       password := password; quota_key := quota_key; ssh_private_key := ssh_private_key;
       jwt := jwt; security := security; compression := compression;
       timeouts := resolve_timeouts config; bind_host := bind_host;
       proto_send_chunked := proto_send_chunked; proto_recv_chunked := proto_recv_chunked |}.

(** [ConnectionParameters(config_, host_, database_)] *)
Definition new_with_port_from_config (config : C) (host_ database : string) : Exceptional t :=
  new config host_ database (Some (getPortFromConfig config host_)).

End ConnectionParameters.
End ConnectionParameters.

(** ** Client.cpp: the client object *)

Module HostAndPort.
Record t := mk { host : string; port : option Z }.
End HostAndPort.

(** What the server answers to a successful handshake. *)
Record ServerHello := mkServerHello {
  hello_server_name : string;
  hello_version_major : Z;
  hello_version_minor : Z;
  hello_version_patch : Z;
  hello_server_revision : Z;
  hello_display_name : string;
  hello_timezone : string;
  hello_settings : list (string * string);
}.

(** Ghost record of what a bootstrap did, oldest event first. *)
Inductive Event :=
| ConnectCalled
| HostAttempted (attempted_address_index : nat) (address : HostAndPort.t).

Definition is_connect_called (ev : Event) : bool :=
  match ev with
  | ConnectCalled => true
  | HostAttempted _ _ => false
  end.

(** [boost::program_options::variables_map] restricted to the options that
    [processOptions] copies into the configuration.  [user] has a default
    value, so it always counts; [None] stands for [defaulted()]. *)
Record CommandLineOptions := mkOptions {
  opt_config_file : option string;
  opt_config : option string;
  opt_connection : option string;
  opt_secure : bool;
  opt_no_secure : bool;
  opt_user : option string;
  opt_password : option string;
  opt_ask_password : bool;
  opt_ssh_key_file : option string;
  opt_ssh_key_passphrase : option string;
  opt_quota_key : option string;
  opt_max_client_network_bandwidth : option Z;
  opt_compression : option bool;
  opt_no_warnings : bool;
  opt_fake_drop : bool;
  opt_jwt : option string;
  opt_accept_invalid_certificate : bool;
}.

(** The process environment and the collaborators of [ClientBase] and of the
    connection that [Client.cpp] calls. *)
Class Process := {
  getenv : string → option string;
  getClientConfigPath : string → option string;
  (** [ConfigProcessor(path).loadConfig().configuration] *)
  loadConfig : string → Exceptional MapConfiguration;
  stdin_is_a_tty : bool;
  (** [po::command_line_parser(group).options(hosts_and_ports_description)
      .run()], [po::store] and the two [as]: the host and the port of a
      [--host]/[--port] group, or [inl what] for a [program_options::error] *)
  parseHostAndPort : list string → string + HostAndPort.t;
}.

Class ClientBase := {
  (** [readEscapedString] of [IO/ReadHelpers.h] *)
  readEscapedString : string → string;
  (** [toString] of a [UInt16] *)
  toString : Z → string;
  appendSmileyIfNeeded : string → string;
}.

(** [Client/ConnectionString.h].  [tryParseConnectionString] answers [None]
    when its argument is not a connection string, and otherwise the arguments
    it appends to the common arguments and to the host and port groups. *)
Class ConnectionString := {
  tryParseConnectionString : string → Exceptional (option (list string * list (list string)));
  checkIfCmdLineOptionCanBeUsedWithConnectionString : string → Exceptional unit;
}.

(** [Connection]: a handshake with the server described by the parameters.
    The answer may depend on everything attempted before. *)
Class Server `{Terminal} := {
  getServerVersion : list Event → ConnectionParameters.t → Exceptional ServerHello;
}.

(** ** Client::processOptions: the external tables *)

(** How a step that may end the process goes on: it continues, the process
    has been ended with [_exit(exit_code)], or a
    [boost::program_options::error] is in flight. *)
Inductive Progressing (A : Type) : Type :=
| Continues (a : A)
| Exited (exit_code : Z)
| OptionsError (what : string).
Arguments Continues {A} a.
Arguments Exited {A} exit_code.
Arguments OptionsError {A} what.

(** The parser of [boost::program_options] on a group of external table
    arguments, and [ExternalTable]: its constructor and its [file] field. *)
Class ExternalTables := {
  ExternalOptions : Type;
  ExternalTable : Type;
  (** [po::command_line_parser(group).options(external_description).run()]
      and [po::store]; [inl what] is a [program_options::error] *)
  parse_external_options : list string → string + ExternalOptions;
  new_ExternalTable : ExternalOptions → Exceptional ExternalTable;
  file : ExternalTable → string;
}.

Module ExternalTablesLoop.
Section ExternalTablesLoop.
Context `{ErrorCodes} `{ExternalTables}.

(** [auto exit_code = e.code() % 256; if (exit_code == 0) exit_code = 255;]
    on [int]: the remainder has the sign of the code. *)
Definition exit_code_of (e : Exception) : Z :=
  let exit_code := Z.rem (code e) 256 in
  if exit_code =? 0 then 255 else exit_code.

(** The body of the [try] block for one group. *)
Definition add_external_table (external_options : ExternalOptions)
    (external_tables : list ExternalTable) (number_of_external_tables_with_stdin_source : nat)
    : Exceptional (list ExternalTable * nat) :=
  table ← new_ExternalTable external_options;
  let external_tables := external_tables ++ [table] in
  let number_of_external_tables_with_stdin_source :=
    if String.eqb (file table) "-" then S number_of_external_tables_with_stdin_source
    else number_of_external_tables_with_stdin_source in
  if (1 <? number_of_external_tables_with_stdin_source)%nat
  then Throws (mkException BAD_ARGUMENTS
                 "Two or more external tables has stdin (-) set as --file field")
  else Returns (external_tables, number_of_external_tables_with_stdin_source).

(** The loop over [external_tables_arguments]. *)
Fixpoint external_tables_loop (external_tables_arguments : list (list string))
    (external_tables : list ExternalTable) (number_of_external_tables_with_stdin_source : nat)
    : Progressing (list ExternalTable) :=
  match external_tables_arguments with
  | [] => Continues external_tables
  | group :: later =>
      match parse_external_options group with
      | inl what => OptionsError what
      | inr external_options =>
          match add_external_table external_options external_tables
                  number_of_external_tables_with_stdin_source with
          | Throws e => Exited (exit_code_of e)
          | Returns (external_tables, number_of_external_tables_with_stdin_source) =>
              external_tables_loop later external_tables
                number_of_external_tables_with_stdin_source
          end
      end
  end.

(** The number of tables that read standard input. *)
Definition stdin_sources (external_tables : list ExternalTable) : nat :=
  length (List.filter (λ table, String.eqb (file table) "-") external_tables).

End ExternalTablesLoop.
End ExternalTablesLoop.

Module Client.
Section Client.
Context `{ErrorCodes} `{Defines} `{BuildOptions} `{Terminal} `{ConfigSyntax}
        `{Process} `{ClientBase} `{!Server} `{ConnectionString} `{ExternalTables}.

Record t := mk {
  config : LayeredConfiguration;
  hosts_and_ports : list HostAndPort.t;
  home_path : string;
  history_file : string;
  history_max_entries : Z;
  queries : list string;
  queries_files : list string;
  is_interactive : bool;
  delayed_interactive : bool;
  default_database : string;
  max_client_network_bandwidth : Z;
  connection_parameters : option ConnectionParameters.t;
  (** the [connection] pointer: parameters it was created with and, once the
      handshake is done, the server's answer *)
  connection : option (ConnectionParameters.t * option ServerHello);
  server_revision : Z;
  server_display_name : string;
  settings_from_server : list (string * string);
  prompt : string;
  events : list Event;
}.

Definition with_config (f : LayeredConfiguration → LayeredConfiguration) (cl : t) : t :=
  mk (f (config cl)) (hosts_and_ports cl) (home_path cl) (history_file cl)
    (history_max_entries cl) (queries cl) (queries_files cl) (is_interactive cl)
    (delayed_interactive cl) (default_database cl) (max_client_network_bandwidth cl)
    (connection_parameters cl) (connection cl) (server_revision cl) (server_display_name cl)
    (settings_from_server cl) (prompt cl) (events cl).

Definition with_hosts_and_ports (hs : list HostAndPort.t) (cl : t) : t :=
  mk (config cl) hs (home_path cl) (history_file cl)
    (history_max_entries cl) (queries cl) (queries_files cl) (is_interactive cl)
    (delayed_interactive cl) (default_database cl) (max_client_network_bandwidth cl)
    (connection_parameters cl) (connection cl) (server_revision cl) (server_display_name cl)
    (settings_from_server cl) (prompt cl) (events cl).

Definition with_home_path (p : string) (cl : t) : t :=
  mk (config cl) (hosts_and_ports cl) p (history_file cl)
    (history_max_entries cl) (queries cl) (queries_files cl) (is_interactive cl)
    (delayed_interactive cl) (default_database cl) (max_client_network_bandwidth cl)
    (connection_parameters cl) (connection cl) (server_revision cl) (server_display_name cl)
    (settings_from_server cl) (prompt cl) (events cl).

Definition with_history_file (p : string) (cl : t) : t :=
  mk (config cl) (hosts_and_ports cl) (home_path cl) p
    (history_max_entries cl) (queries cl) (queries_files cl) (is_interactive cl)
    (delayed_interactive cl) (default_database cl) (max_client_network_bandwidth cl)
    (connection_parameters cl) (connection cl) (server_revision cl) (server_display_name cl)
    (settings_from_server cl) (prompt cl) (events cl).

Definition with_interactive (interactive delayed : bool) (cl : t) : t :=
  mk (config cl) (hosts_and_ports cl) (home_path cl) (history_file cl)
    (history_max_entries cl) (queries cl) (queries_files cl) interactive
    delayed (default_database cl) (max_client_network_bandwidth cl)
    (connection_parameters cl) (connection cl) (server_revision cl) (server_display_name cl)
    (settings_from_server cl) (prompt cl) (events cl).

Definition with_default_database (d : string) (cl : t) : t :=
  mk (config cl) (hosts_and_ports cl) (home_path cl) (history_file cl)
    (history_max_entries cl) (queries cl) (queries_files cl) (is_interactive cl)
    (delayed_interactive cl) d (max_client_network_bandwidth cl)
    (connection_parameters cl) (connection cl) (server_revision cl) (server_display_name cl)
    (settings_from_server cl) (prompt cl) (events cl).

Definition with_max_client_network_bandwidth (n : Z) (cl : t) : t :=
  mk (config cl) (hosts_and_ports cl) (home_path cl) (history_file cl)
    (history_max_entries cl) (queries cl) (queries_files cl) (is_interactive cl)
    (delayed_interactive cl) (default_database cl) n
    (connection_parameters cl) (connection cl) (server_revision cl) (server_display_name cl)
    (settings_from_server cl) (prompt cl) (events cl).

Definition with_connection (p : ConnectionParameters.t) (answer : option ServerHello) (cl : t) : t :=
  mk (config cl) (hosts_and_ports cl) (home_path cl) (history_file cl)
    (history_max_entries cl) (queries cl) (queries_files cl) (is_interactive cl)
    (delayed_interactive cl) (default_database cl) (max_client_network_bandwidth cl)
    (Some p) (Some (p, answer)) (server_revision cl) (server_display_name cl)
    (settings_from_server cl) (prompt cl) (events cl).

Definition with_session (revision : Z) (settings : list (string * string)) (cl : t) : t :=
  mk (config cl) (hosts_and_ports cl) (home_path cl) (history_file cl)
    (history_max_entries cl) (queries cl) (queries_files cl) (is_interactive cl)
    (delayed_interactive cl) (default_database cl) (max_client_network_bandwidth cl)
    (connection_parameters cl) (connection cl) revision (server_display_name cl)
    settings (prompt cl) (events cl).

Definition with_display (display_name prompt_ : string) (cl : t) : t :=
  mk (config cl) (hosts_and_ports cl) (home_path cl) (history_file cl)
    (history_max_entries cl) (queries cl) (queries_files cl) (is_interactive cl)
    (delayed_interactive cl) (default_database cl) (max_client_network_bandwidth cl)
    (connection_parameters cl) (connection cl) (server_revision cl) display_name
    (settings_from_server cl) prompt_ (events cl).

Definition record_event (e : Event) (cl : t) : t :=
  mk (config cl) (hosts_and_ports cl) (home_path cl) (history_file cl)
    (history_max_entries cl) (queries cl) (queries_files cl) (is_interactive cl)
    (delayed_interactive cl) (default_database cl) (max_client_network_bandwidth cl)
    (connection_parameters cl) (connection cl) (server_revision cl) (server_display_name cl)
    (settings_from_server cl) (prompt cl) (events cl ++ [e]).

(** *** Client::parseConnectionsCredentials *)

Section Profiles.
Context {C : Type} `{AbstractConfiguration C}.

(** [if (config.has(entry)) statement] *)
Definition if_has (entry : string) (statement : C → C) (config : C) : C :=
  if has config entry then statement config else config.

(** Body of the loop for a profile whose [name] equals the connection. *)
Definition overlay_profile (cl : t) (prefix name : string) (config : C) : C :=
  let connection_hostname :=
    if has config (prefix +:+ ".hostname") then getString1 config (prefix +:+ ".hostname")
    else name in
  let config := setString "host" connection_hostname config in
  let config :=
    if_has (prefix +:+ ".port")
      (λ config, setInt "port" (getInt1 config (prefix +:+ ".port")) config) config in
  let config :=
    if_has (prefix +:+ ".secure")
      (λ config,
         let secure := getBool1 config (prefix +:+ ".secure") in
         if secure then setBool "secure" true config else setBool "no-secure" true config)
      config in
  let config :=
    if_has (prefix +:+ ".user")
      (λ config, setString "user" (getString1 config (prefix +:+ ".user")) config) config in
  let config :=
    if_has (prefix +:+ ".password")
      (λ config, setString "password" (getString1 config (prefix +:+ ".password")) config)
      config in
  let config :=
    if_has (prefix +:+ ".database")
      (λ config, setString "database" (getString1 config (prefix +:+ ".database")) config)
      config in
  let config :=
    if_has (prefix +:+ ".history_file")
      (λ config,
         let history_file := getString1 config (prefix +:+ ".history_file") in
         let history_file :=
           if Str.starts_with history_file "~" && negb (Str.empty (home_path cl))
           then home_path cl +:+ "/" +:+ Str.substr_from 1 history_file
           else history_file in
         setString "history_file" history_file config)
      config in
  let config :=
    if_has (prefix +:+ ".history_max_entries")
      (λ config, setUInt "history_max_entries" (history_max_entries cl) config) config in
  let config :=
    if_has (prefix +:+ ".accept-invalid-certificate")
      (λ config,
         setBool "accept-invalid-certificate"
           (getBool1 config (prefix +:+ ".accept-invalid-certificate")) config)
      config in
  if_has (prefix +:+ ".prompt")
    (λ config, setString "prompt" (getString1 config (prefix +:+ ".prompt")) config) config.

(** The [for (const auto & key : keys)] loop; the state is the configuration
    and [connection_found]. *)
Fixpoint scan_profiles (cl : t) (connection : string) (keys_ : list string)
    (config : C) (connection_found : bool) : C * bool :=
  match keys_ with
  | [] => (config, connection_found)
  | key :: rest =>
      let prefix := "connections_credentials." +:+ key in
      let name := getString config (prefix +:+ ".name") "" in
      if negb (String.eqb name connection)
      then scan_profiles cl connection rest config connection_found
      else scan_profiles cl connection rest (overlay_profile cl prefix name config) true
  end.

(** The name the profiles are matched against. *)
Definition connection_to_use (cl : t) (config : C) (connection_name : string) : string :=
  let default_connection_name :=
    match hosts_and_ports cl with
    | [] => if has config "host" then Some (getString1 config "host") else None
    | front :: _ => Some (HostAndPort.host front)
    end in
  if negb (Str.empty connection_name) then connection_name
  else default "localhost" default_connection_name.

Definition parseConnectionsCredentials (cl : t) (config : C) (connection_name : string)
    : Exceptional C :=
  let connection := connection_to_use cl config connection_name in
  let keys_ := keys config "connections_credentials" in
  let '(config', connection_found) := scan_profiles cl connection keys_ config false in
  if negb (Str.empty connection_name) && negb connection_found
  then Throws (mkException NO_ELEMENTS_IN_CONFIG "No such connection '{}' in connections_credentials")
  else Returns config'.

End Profiles.

(** *** Client::initialize *)

(** [const char * value = getenv(variable); if (value && !config().has(key))
    config().setString(key, value);] *)
Definition override_from_environment (key variable : string) (cl : t) : t :=
  match getenv variable with
  | Some value =>
      if negb (has (config cl) key) then with_config (setString key value) cl else cl
  | None => cl
  end.

(** [Poco::Util::Application::initialize], the copy of the configured
    settings into the client context and the two schema paths do not touch
    the fields modelled here. *)
Definition initialize (cl : t) : Exceptional unit * t :=
  let cl := match getenv "HOME" with
            | Some home_path_cstr => with_home_path home_path_cstr cl
            | None => cl
            end in
  let config_path :=
    if has (config cl) "config-file" then Some (getString1 (config cl) "config-file")
    else getClientConfigPath (home_path cl) in
  let loaded : Exceptional t :=
    match config_path with
    | Some path =>
        loaded_config ← loadConfig path;
        configuration ←
          parseConnectionsCredentials cl loaded_config (getString (config cl) "connection" "");
        Returns (with_config (add_layer configuration) cl)
    | None =>
        if has (config cl) "connection"
        then Throws (mkException BAD_ARGUMENTS "--connection was specified, but config does not exist")
        else Returns cl
    end in
  match loaded with
  | Throws e => (Throws e, cl)
  | Returns cl =>
      let cl :=
        if has (config cl) "accept-invalid-certificate" then
          with_config (λ c, setString "openSSL.client.verificationMode" "none"
                              (setString "openSSL.client.invalidCertificateHandler.name"
                                 "AcceptCertificateHandler" c)) cl
        else cl in
      let cl := override_from_environment "user" "CLICKHOUSE_USER" cl in
      let cl := override_from_environment "password" "CLICKHOUSE_PASSWORD" cl in
      (Returns (), cl)
  end.

(** *** Client::processOptions *)

Definition set_if_given (key : string) (value : option string) (cl : t) : t :=
  match value with
  | Some v => with_config (setString key v) cl
  | None => cl
  end.

Definition set_if_counted (key : string) (counted : bool) (cl : t) : t :=
  if counted then with_config (setBool key true) cl else cl.

(** The [if (options.count("accept-invalid-certificate")) ... else ...] at
    the end of the configuration writes. *)
Definition set_certificate_handler (options : CommandLineOptions) (cl : t) : t :=
  if opt_accept_invalid_certificate options then
    with_config (λ c, setString "openSSL.client.verificationMode" "none"
                        (setString "openSSL.client.invalidCertificateHandler.name"
                           "AcceptCertificateHandler" c)) cl
  else
    with_config (setString "openSSL.client.invalidCertificateHandler.name"
                   "RejectCertificateHandler") cl.

(** The loop over [hosts_and_ports_arguments]; [inl what] is a
    [program_options::error] of the parser. *)
Fixpoint hosts_and_ports_loop (hosts_and_ports_arguments : list (list string))
    (hosts_and_ports : list HostAndPort.t) : string + list HostAndPort.t :=
  match hosts_and_ports_arguments with
  | [] => inr hosts_and_ports
  | hosts_and_ports_argument :: later =>
      match parseHostAndPort hosts_and_ports_argument with
      | inl what => inl what
      | inr host_and_port => hosts_and_ports_loop later (hosts_and_ports ++ [host_and_port])
      end
  end.

(** What follows the two loops, from [send_external_tables = true] on: the
    options written to the configuration, in the order of the source.  The
    contexts, the copy of the settings options and the fuzzer and tracing
    options are left out. *)
Definition copy_options (options : CommandLineOptions) (cl : t) : Exceptional unit * t :=
  if bool_decide (is_Some (opt_config_file options)) && bool_decide (is_Some (opt_config options))
  then (Throws (mkException BAD_ARGUMENTS "Two or more configuration files referenced in arguments"), cl)
  else
    let cl := set_if_given "config-file" (opt_config options) cl in
    let cl := set_if_given "connection" (opt_connection options) cl in
    let cl := set_if_counted "secure" (opt_secure options) cl in
    let cl := set_if_counted "no-secure" (opt_no_secure options) cl in
    let cl := set_if_given "user" (opt_user options) cl in
    let cl := set_if_given "password" (opt_password options) cl in
    let cl := set_if_counted "ask-password" (opt_ask_password options) cl in
    let cl := set_if_given "ssh-key-file" (opt_ssh_key_file options) cl in
    let cl := set_if_given "ssh-key-passphrase" (opt_ssh_key_passphrase options) cl in
    let cl := set_if_given "quota_key" (opt_quota_key options) cl in
    let cl := match opt_max_client_network_bandwidth options with
              | Some n => with_max_client_network_bandwidth n cl
              | None => cl
              end in
    let cl := match opt_compression options with
              | Some b => with_config (setBool "compression" b) cl
              | None => cl
              end in
    let cl := set_if_counted "no-warnings" (opt_no_warnings options) cl in
    let cl := if opt_fake_drop options
              then with_config (setString "ignore_drop_queries_probability" "1") cl else cl in
    match opt_jwt options with
    | Some jwt_value =>
        if bool_decide (is_Some (opt_user options))
        then (Throws (mkException BAD_ARGUMENTS "User and JWT flags can't be specified together"), cl)
        else
          (Returns (),
           set_certificate_handler options
             (with_config (setString "user" "") (with_config (setString "jwt" jwt_value) cl)))
    | None => (Returns (), set_certificate_handler options cl)
    end.

(** [processOptions(options_description, options, external_tables_arguments,
    hosts_and_ports_arguments)]: the loop over the external tables, which may
    end the process, the loop over the host and port groups, and the options.
    [external_tables] is the member of that name, given and handed back. *)
Definition processOptions (options : CommandLineOptions)
    (external_tables_arguments hosts_and_ports_arguments : list (list string))
    (external_tables : list ExternalTable) (cl : t)
    : Progressing (list ExternalTable * (Exceptional unit * t)) :=
  match ExternalTablesLoop.external_tables_loop external_tables_arguments external_tables 0 with
  | Continues external_tables =>
      match hosts_and_ports_loop hosts_and_ports_arguments (hosts_and_ports cl) with
      | inr hosts_and_ports =>
          Continues (external_tables, copy_options options (with_hosts_and_ports hosts_and_ports cl))
      | inl what => OptionsError what
      end
  | Exited exit_code => Exited exit_code
  | OptionsError what => OptionsError what
  end.

(** *** Client::processConfig *)

(** Kept: the query options conflict, the interactive mode, the history file
    and the default database. *)
Definition processConfig (cl : t) : Exceptional unit * t :=
  if negb (bool_decide (queries cl = [])) && has (config cl) "queries-file"
  then (Throws (mkException BAD_ARGUMENTS
                  "Options '--query' and '--queries-file' cannot be specified at the same time"), cl)
  else
    let delayed :=
      has (config cl) "interactive"
      && (negb (bool_decide (queries cl = [])) || has (config cl) "queries-file") in
    let interactive :=
      if stdin_is_a_tty
         && (delayed || (bool_decide (queries cl = []) && bool_decide (queries_files cl = [])))
      then true else is_interactive cl in
    let cl := with_interactive interactive delayed cl in
    let cl :=
      if is_interactive cl || delayed_interactive cl then
        let cl :=
          if Str.empty (home_path cl) then
            match getenv "HOME" with
            | Some home_path_cstr => with_home_path home_path_cstr cl
            | None => cl
            end
          else cl in
        if has (config cl) "history_file"
        then with_history_file (getString1 (config cl) "history_file") cl
        else
          match getenv "CLICKHOUSE_HISTORY_FILE" with
          | Some history_file_from_env => with_history_file history_file_from_env cl
          | None =>
              if negb (Str.empty (home_path cl))
              then with_history_file (home_path cl +:+ "/.clickhouse-client-history") cl
              else cl
          end
      else cl in
    (Returns (), with_default_database (getString (config cl) "database" "") cl).

(** *** Client::connect *)

(** The [try] block of one iteration of the loop over the addresses. *)
Definition try_address (attempted_address_index : nat) (address : HostAndPort.t) (cl : t)
    : Exceptional unit * t :=
  let cl := record_event (HostAttempted attempted_address_index address) cl in
  match ConnectionParameters.new (config cl) (HostAndPort.host address) (default_database cl)
          (HostAndPort.port address) with
  | Throws e => (Throws e, cl)
  | Returns parameters =>
      let cl := with_connection parameters None cl in
      match getServerVersion (events cl) parameters with
      | Throws e => (Throws e, cl)
      | Returns hello =>
          let cl := with_connection parameters (Some hello) cl in
          let cl := with_config
                      (λ c, setInt "port" (ConnectionParameters.port parameters)
                              (setString "host" (ConnectionParameters.host parameters) c)) cl in
          (Returns (), with_session (hello_server_revision hello) (hello_settings hello) cl)
      end
  end.

(** The [for] loop: [remaining] is [hosts_and_ports] from
    [attempted_address_index] on.  [Returns] is an exit from the loop, by
    [break] or because no address is left. *)
Fixpoint connect_loop (attempted_address_index : nat) (remaining : list HostAndPort.t) (cl : t)
    : Exceptional unit * t :=
  match remaining with
  | [] => (Returns (), cl)
  | address :: later =>
      match try_address attempted_address_index address cl with
      | (Returns _, cl) => (Returns (), cl)
      | (Throws e, cl) =>
          if (code e =? AUTHENTICATION_FAILED) || (code e =? REQUIRED_PASSWORD)
          then (Throws e, cl)
          else if (attempted_address_index =? length (hosts_and_ports cl) - 1)%nat
          then (Throws e, cl)
          else connect_loop (S attempted_address_index) later cl
      end
  end.

(** The prompt template, before unescaping; [prompt] is the member as it is
    when [connect] reaches this point. *)
Definition choose_prompt (config : LayeredConfiguration) (server_display_name prompt : string)
    : string :=
  if has config "prompt" then getString1 config "prompt"
  else if has config "prompt_by_server_display_name" then
    let prompt :=
      if has config "prompt_by_server_display_name.default"
      then getRawString config "prompt_by_server_display_name.default" else prompt in
    match find (λ key, negb (String.eqb key "default") && Str.contains server_display_name key)
            (keys config "prompt_by_server_display_name") with
    | Some key => getRawString config ("prompt_by_server_display_name." +:+ key)
    | None => prompt
    end
  else "{display_name}".

(** [prompt_substitutions], a [std::map]: iterated in the order of its keys. *)
Definition prompt_substitutions (parameters : ConnectionParameters.t) (server_display_name : string)
    : list (string * string) :=
  [ ("display_name", server_display_name);
    ("host", ConnectionParameters.host parameters);
    ("port", toString (ConnectionParameters.port parameters));
    ("user", ConnectionParameters.user parameters) ].

Definition substitute (prompt : string) (substitutions : list (string * string)) : string :=
  foldl (λ prompt '(key, value), Str.replace_all prompt ("{" +:+ key +:+ "}") value)
    prompt substitutions.

Definition compose_prompt (config : LayeredConfiguration) (parameters : ConnectionParameters.t)
    (server_display_name prompt : string) : string :=
  let prompt := choose_prompt config server_display_name prompt in
  let prompt := readEscapedString prompt in
  let prompt := substitute prompt (prompt_substitutions parameters server_display_name) in
  appendSmileyIfNeeded prompt.

(** What follows the loop; the version texts, the suggestions and the time
    zone are not modelled.  Without a connection object the source
    dereferences a null pointer; [connect] never gets there. *)
Definition after_handshake (cl : t) : t :=
  match connection cl, connection_parameters cl with
  | Some (_, Some hello), Some parameters =>
      let server_display_name :=
        if Str.empty (hello_display_name hello) then getString (config cl) "host" "localhost"
        else hello_display_name hello in
      with_display server_display_name
        (compose_prompt (config cl) parameters server_display_name (prompt cl)) cl
  | _, _ => cl
  end.

Definition connect (cl : t) : Exceptional unit * t :=
  let cl := record_event ConnectCalled cl in
  let cl :=
    match hosts_and_ports cl with
    | [] =>
        let host := getString (config cl) "host" "localhost" in
        let port := ConnectionParameters.getPortFromConfig (config cl) host in
        with_hosts_and_ports (hosts_and_ports cl ++ [HostAndPort.mk host (Some port)]) cl
    | _ :: _ => cl
    end in
  match connect_loop 0 (hosts_and_ports cl) cl with
  | (Throws e, cl) => (Throws e, cl)
  | (Returns _, cl) => (Returns (), after_handshake cl)
  end.

(** *** Client::main *)

(** The inner [try { connect(); } catch (const Exception & e) { ... }]. *)
Definition connect_or_ask_password (cl : t) : Exceptional unit * t :=
  match connect cl with
  | (Returns _, cl) => (Returns (), cl)
  | (Throws e, cl) =>
      if (negb (code e =? AUTHENTICATION_FAILED) && negb (code e =? REQUIRED_PASSWORD))
         || has (config cl) "password"
         || getBool (config cl) "ask-password" false
         || negb (is_interactive cl)
      then (Throws e, cl)
      else connect (with_config (setBool "ask-password" true) cl)
  end.

(** What [main] does with a connected client: warnings, the interactive or
    non-interactive run, and its return code. *)
Variable run_session : t → Exceptional Z * t.

(** [catch (Exception & e)] of [main] *)
Definition main_catch (e : Exception) : Z :=
  if to_UInt8 (code e) =? 0 then -1 else code e.

Definition main (cl : t) : Z * t :=
  let body : Exceptional Z * t :=
    match processConfig cl with
    | (Throws e, cl) => (Throws e, cl)
    | (Returns _, cl) =>
        match connect_or_ask_password cl with
        | (Throws e, cl) => (Throws e, cl)
        | (Returns _, cl) => run_session cl
        end
    end in
  match body with
  | (Returns rc, cl) => (rc, cl)
  | (Throws e, cl) => (main_catch e, cl)
  end.

(** [Application::run]: [initialize], outside any handler, then [main]. *)
Definition run (cl : t) : Exceptional Z :=
  match initialize cl with
  | (Throws e, _) => Throws e
  | (Returns _, cl) => Returns (fst (main cl))
  end.

(** *** Client::readArguments *)

(** The three output arguments, the members written by the scan and its
    three local variables. *)
Record Reading := mkReading {
  common_arguments : list string;
  external_tables_arguments : list (list string);
  hosts_and_ports_arguments : list (list string);
  query_parameters : gmap string string;
  allow_repeated_settings : bool;
  allow_merge_tree_settings : bool;
  in_external_group : bool;
  prev_host_arg : string;
  prev_port_arg : string;
}.

(** [groups.back().emplace_back(arg)] *)
Fixpoint push_to_back (groups : list (list string)) (arg : string) : list (list string) :=
  match groups with
  | [] => []
  | [group] => [group ++ [arg]]
  | group :: rest => group :: push_to_back rest arg
  end.

Definition open_external_group (r : Reading) : Reading :=
  mkReading (common_arguments r) (external_tables_arguments r ++ [[""]])
    (hosts_and_ports_arguments r) (query_parameters r) (allow_repeated_settings r)
    (allow_merge_tree_settings r) true (prev_host_arg r) (prev_port_arg r).

Definition push_external (arg : string) (r : Reading) : Reading :=
  mkReading (common_arguments r) (push_to_back (external_tables_arguments r) arg)
    (hosts_and_ports_arguments r) (query_parameters r) (allow_repeated_settings r)
    (allow_merge_tree_settings r) (in_external_group r) (prev_host_arg r) (prev_port_arg r).

Definition leave_external_group (r : Reading) : Reading :=
  mkReading (common_arguments r) (external_tables_arguments r)
    (hosts_and_ports_arguments r) (query_parameters r) (allow_repeated_settings r)
    (allow_merge_tree_settings r) false (prev_host_arg r) (prev_port_arg r).

(** [query_parameters.emplace(name, value)]: a name already present keeps
    its value. *)
Definition emplace_parameter (name value : string) (r : Reading) : Reading :=
  mkReading (common_arguments r) (external_tables_arguments r)
    (hosts_and_ports_arguments r)
    (match query_parameters r !! name with
     | Some _ => query_parameters r
     | None => <[name := value]> (query_parameters r)
     end)
    (allow_repeated_settings r)
    (allow_merge_tree_settings r) (in_external_group r) (prev_host_arg r) (prev_port_arg r).

Definition push_common (arg : string) (r : Reading) : Reading :=
  mkReading (common_arguments r ++ [arg]) (external_tables_arguments r)
    (hosts_and_ports_arguments r) (query_parameters r) (allow_repeated_settings r)
    (allow_merge_tree_settings r) (in_external_group r) (prev_host_arg r) (prev_port_arg r).

Definition push_hosts_and_ports (group : list string) (r : Reading) : Reading :=
  mkReading (common_arguments r) (external_tables_arguments r)
    (hosts_and_ports_arguments r ++ [group]) (query_parameters r) (allow_repeated_settings r)
    (allow_merge_tree_settings r) (in_external_group r) (prev_host_arg r) (prev_port_arg r).

Definition set_prev_host_arg (arg : string) (r : Reading) : Reading :=
  mkReading (common_arguments r) (external_tables_arguments r)
    (hosts_and_ports_arguments r) (query_parameters r) (allow_repeated_settings r)
    (allow_merge_tree_settings r) (in_external_group r) arg (prev_port_arg r).

Definition set_prev_port_arg (arg : string) (r : Reading) : Reading :=
  mkReading (common_arguments r) (external_tables_arguments r)
    (hosts_and_ports_arguments r) (query_parameters r) (allow_repeated_settings r)
    (allow_merge_tree_settings r) (in_external_group r) (prev_host_arg r) arg.

Definition set_allow_repeated_settings (r : Reading) : Reading :=
  mkReading (common_arguments r) (external_tables_arguments r)
    (hosts_and_ports_arguments r) (query_parameters r) true
    (allow_merge_tree_settings r) (in_external_group r) (prev_host_arg r) (prev_port_arg r).

Definition set_allow_merge_tree_settings (r : Reading) : Reading :=
  mkReading (common_arguments r) (external_tables_arguments r)
    (hosts_and_ports_arguments r) (query_parameters r) (allow_repeated_settings r)
    true (in_external_group r) (prev_host_arg r) (prev_port_arg r).

(** What the scan does with a host argument, once [host_arg] is formed. *)
Definition host_seen (host_arg : string) (r : Reading) : Reading :=
  if negb (Str.empty (prev_port_arg r)) then
    set_prev_port_arg "" (push_hosts_and_ports [host_arg; prev_port_arg r] r)
  else
    let r := if negb (Str.empty (prev_host_arg r))
             then push_hosts_and_ports [prev_host_arg r] r else r in
    set_prev_host_arg host_arg r.

(** What the scan does with a port argument, once [port_arg] is formed. *)
Definition port_seen (port_arg : string) (r : Reading) : Reading :=
  if negb (Str.empty (prev_host_arg r)) then
    set_prev_host_arg "" (push_hosts_and_ports [port_arg; prev_host_arg r] r)
  else
    let r := if negb (Str.empty (prev_port_arg r))
             then push_hosts_and_ports [prev_port_arg r] r else r in
    set_prev_port_arg port_arg r.

(** The two [if]s after the loop. *)
Definition flush_pending (r : Reading) : Reading :=
  let r := if negb (Str.empty (prev_host_arg r))
           then push_hosts_and_ports [prev_host_arg r] r else r in
  if negb (Str.empty (prev_port_arg r))
  then push_hosts_and_ports [prev_port_arg r] r else r.

Definition external_option_with_value (arg : string) : bool :=
  Str.starts_with arg "--file=" || Str.starts_with arg "--name="
  || Str.starts_with arg "--format=" || Str.starts_with arg "--structure="
  || Str.starts_with arg "--types=".

Definition external_option (arg : string) : bool :=
  String.eqb arg "--file" || String.eqb arg "--name" || String.eqb arg "--format"
  || String.eqb arg "--structure" || String.eqb arg "--types".

Definition external_only_option (arg : string) : bool :=
  String.eqb arg "--file" || String.eqb arg "--name"
  || String.eqb arg "--structure" || String.eqb arg "--types".

(** The [for] loop over [argv], from [start_argument_index] on. [args] is
    what is left of [argv]; an argument that takes the next one as its value
    consumes both.  [Returns] is the end of the loop, by exhaustion or by
    [break]. *)
Fixpoint scan_arguments (has_connection_string : bool) (args : list string) (r : Reading)
    : Exceptional Reading :=
  match args with
  | [] => Returns r
  | arg :: rest =>
      _ ← (if has_connection_string
           then checkIfCmdLineOptionCanBeUsedWithConnectionString arg else Returns ());
      if String.eqb arg "--external" then
        scan_arguments has_connection_string rest (open_external_group r)
      else if in_external_group r && external_option_with_value arg then
        scan_arguments has_connection_string rest (push_external arg r)
      else if in_external_group r && external_option arg then
        match rest with
        | value :: rest' =>
            scan_arguments has_connection_string rest' (push_external value (push_external arg r))
        | [] => Returns r
        end
      else
        let r := leave_external_group r in
        if external_only_option arg then
          Throws (mkException BAD_ARGUMENTS
                    "Parameter must be in external group, try add --external before {}")
        else if Str.starts_with arg "--param_" || Str.starts_with arg "--param-" then
          let param_continuation := Str.substr_from (String.length "--param_") arg in
          match Str.find_first_of param_continuation "="%char with
          | None =>
              match rest with
              | value :: rest' =>
                  scan_arguments has_connection_string rest'
                    (emplace_parameter param_continuation value r)
              | [] => Throws (mkException BAD_ARGUMENTS "Parameter requires value")
              end
          | Some equal_pos =>
              if (equal_pos =? 0)%nat
              then Throws (mkException BAD_ARGUMENTS "Parameter name cannot be empty")
              else
                scan_arguments has_connection_string rest
                  (emplace_parameter (String.substring 0 equal_pos param_continuation)
                     (Str.substr_from (equal_pos + 1) param_continuation) r)
          end
        else if Str.starts_with arg "--host" || Str.starts_with arg "-h" then
          if String.eqb arg "--host" || String.eqb arg "-h" then
            match rest with
            | value :: rest' =>
                scan_arguments has_connection_string rest' (host_seen ("--host=" +:+ value) r)
            | [] => Throws (mkException BAD_ARGUMENTS "Host argument requires value")
            end
          else scan_arguments has_connection_string rest (host_seen arg r)
        else if Str.starts_with arg "--port" then
          if String.eqb arg "--port" then
            match rest with
            | value :: rest' =>
                scan_arguments has_connection_string rest' (port_seen (arg +:+ "=" +:+ value) r)
            | [] => Throws (mkException BAD_ARGUMENTS "Port argument requires value")
            end
          else scan_arguments has_connection_string rest (port_seen arg r)
        else if String.eqb arg "--allow_repeated_settings" then
          scan_arguments has_connection_string rest (set_allow_repeated_settings r)
        else if String.eqb arg "--allow_merge_tree_settings" then
          scan_arguments has_connection_string rest (set_allow_merge_tree_settings r)
        else if String.eqb arg "--password"
                && match rest with
                   | [] => true
                   | next :: _ => Str.starts_with next "-"
                   end then
          scan_arguments has_connection_string rest
            (push_common ASK_PASSWORD (push_common arg r))
        else scan_arguments has_connection_string rest (push_common arg r)
  end.

(** [readArguments(argc, argv, common_arguments, external_tables_arguments,
    hosts_and_ports_arguments)] on a client whose query parameters are empty
    and whose two [allow_*] flags are unset; [argv] starts with the program
    name. *)
Definition readArguments (argv : list string) (common_arguments_ : list string)
    (external_tables_arguments_ hosts_and_ports_arguments_ : list (list string))
    : Exceptional Reading :=
  parsed ← match argv with
           | _ :: connection_string :: _ => tryParseConnectionString connection_string
           | _ => Returns None
           end;
  let has_connection_string := bool_decide (is_Some parsed) in
  let start_argument_index := if has_connection_string then 2%nat else 1%nat in
  let '(from_string, hosts_from_string) := default ([], []) parsed in
  r ← scan_arguments has_connection_string (drop start_argument_index argv)
        (mkReading (common_arguments_ ++ from_string) external_tables_arguments_
           (hosts_and_ports_arguments_ ++ hosts_from_string) ∅ false false false "" "");
  Returns (flush_pending r).

End Client.
End Client.

(** ** mainEntryClickHouseClient *)

Inductive InitResult {A : Type} :=
| Initialized (client : A)
| InitThrows (e : Exception)
| InitProgramOptionsError (what : string).
Arguments InitResult A : clear implicits.

(** Modelled from the spec: [getCurrentExceptionCode] of
    [Common/Exception.cpp] is not among the sources; for the [DB::Exception]
    in flight it is "the originating error's numeric code". *)
Definition getCurrentExceptionCode (e : Exception) : Z := code e.

(** [catch (DB::Exception & e)] of [mainEntryClickHouseClient] *)
Definition entry_catch (e : Exception) : Z :=
  let code := getCurrentExceptionCode e in
  if to_UInt8 code =? 0 then 1 else code.

Section Entry.
Context `{ErrorCodes} `{Defines} `{BuildOptions} `{Terminal} `{ConfigSyntax}
        `{Process} `{ClientBase} `{!Server}.

Variable run_session : Client.t → Exceptional Z * Client.t.

(** [client.init(argc, argv)], of [ClientBase]: the arguments are read and
    the options processed; it ends with a client, a [DB::Exception] or a
    [boost::program_options::error]. *)
Variable init : list string → InitResult Client.t.

Definition mainEntryClickHouseClient (argv : list string) : Z :=
  match init argv with
  | Initialized client =>
      match Client.run run_session client with
      | Returns rc => rc
      | Throws e => entry_catch e
      end
  | InitThrows e => entry_catch e
  | InitProgramOptionsError _ => BAD_ARGUMENTS
  end.

(** A fatal error [e] of the bootstrap inside [main]: thrown while the
    configuration is processed, or by the connection bootstrap with its
    password retry. *)
Definition raised_in_main (cl : Client.t) (e : Exception) : Prop :=
  (∃ cl1, Client.processConfig cl = (Throws e, cl1))
  ∨ (∃ cl1 cl2, Client.processConfig cl = (Returns (), cl1)
                ∧ Client.connect_or_ask_password cl1 = (Throws e, cl2)).

(** [surfaces argv e generic]: the run on [argv] ends with the fatal
    resolution or bootstrap error [e], in a handler whose generic failure
    code is [generic]. *)
Inductive surfaces (argv : list string) (e : Exception) : Z → Prop :=
| surfaces_in_init :
    init argv = InitThrows e → surfaces argv e 1
| surfaces_in_initialize cl :
    init argv = Initialized cl → (Client.initialize cl).1 = Throws e → surfaces argv e 1
| surfaces_in_main cl cl1 :
    init argv = Initialized cl → Client.initialize cl = (Returns (), cl1) →
    raised_in_main cl1 e → surfaces argv e (-1).

End Entry.

(** The status a parent process reads for a value returned from [main]: its
    low eight bits. *)
Definition exit_status (rc : Z) : Z := to_UInt8 rc.

(** ** Client.cpp: warnings, external tables and the end of [main] *)

(** *** Client::loadWarningMessages and Client::showWarnings *)

(** The packets of [Protocol::Server] that [loadWarningMessages] tells
    apart.  The block of a [Data] packet is the strings of its first column,
    or [None] for an empty block. *)
Inductive Packet :=
| Data (block : option (list string))
| Progress
| ProfileInfo
| Totals
| Extremes
| Log
| ExceptionPacket (exception : Exception)
| EndOfStream
| ProfileEvents
| OtherPacket (type : Z).

Module Warnings.
Section Warnings.

(** [ErrorCodes::UNKNOWN_PACKET_FROM_SERVER] and
    [DBMS_MIN_PROTOCOL_VERSION_WITH_VIEW_IF_PERMITTED]. *)
Variable UNKNOWN_PACKET_FROM_SERVER : Z.
Variable min_server_revision_to_load_warnings : Z.

(** The [while (true)] loop.  [incoming] is what the successive calls of
    [connection->receivePacket()] give; when it is used up the next call has
    not returned, and neither has the loop: [None]. *)
Fixpoint receive_messages (incoming : list (Exceptional Packet)) (messages : list string)
    : option (Exceptional (list string)) :=
  match incoming with
  | [] => None
  | Throws e :: _ => Some (Throws e)
  | Returns packet :: later =>
      match packet with
      | Data block =>
          match block with
          | Some column => receive_messages later (messages ++ column)
          | None => receive_messages later messages
          end
      | Progress | ProfileInfo | Totals | Extremes | Log => receive_messages later messages
      | ExceptionPacket exception => Some (Throws exception)
      | EndOfStream => Some (Returns messages)
      | ProfileEvents => receive_messages later messages
      | OtherPacket _ =>
          Some (Throws (mkException UNKNOWN_PACKET_FROM_SERVER "Unknown packet {} from server {}"))
      end
  end.

(** [sendQuery] is what [connection->sendQuery(...)] does: it returns or
    throws. *)
Definition loadWarningMessages (server_revision : Z) (sendQuery : Exceptional ())
    (incoming : list (Exceptional Packet)) : option (Exceptional (list string)) :=
  if server_revision <? min_server_revision_to_load_warnings then Some (Returns [])
  else
    match sendQuery with
    | Throws e => Some (Throws e)
    | Returns _ => receive_messages incoming []
    end.

(** The lines written to [output_stream]; [catch (...)] ignores every
    exception. *)
Definition showWarnings (server_revision : Z) (sendQuery : Exceptional ())
    (incoming : list (Exceptional Packet)) : option (list string) :=
  loaded ← loadWarningMessages server_revision sendQuery incoming;
  match loaded with
  | Returns messages =>
      if bool_decide (messages = []) then Some []
      else Some (["Warnings:"] ++ map (String.append " * ") messages ++ [""])
  | Throws _ => Some []
  end.

End Warnings.
End Warnings.

(** Streams of packets, for the statements about the warnings. *)
Module PacketStream.

(** A packet after which the loop asks for the next one. *)
Definition goes_on (packet : Packet) : bool :=
  match packet with
  | Data _ | Progress | ProfileInfo | Totals | Extremes | Log | ProfileEvents => true
  | ExceptionPacket _ | EndOfStream | OtherPacket _ => false
  end.

(** The strings that the [Data] packets carry, in the order of arrival. *)
Definition rows (packets : list Packet) : list string :=
  concat (map (λ packet, match packet with
                         | Data (Some column) => column
                         | _ => []
                         end) packets).

(** What stops the loop with an exception: a failing [receivePacket], an
    [Exception] packet, or a packet of a type the loop does not know. *)
Definition stops_with (UNKNOWN_PACKET_FROM_SERVER : Z) (received : Exceptional Packet)
    (e : Exception) : Prop :=
  received = Throws e
  ∨ received = Returns (ExceptionPacket e)
  ∨ ∃ type, received = Returns (OtherPacket type)
            ∧ e = mkException UNKNOWN_PACKET_FROM_SERVER "Unknown packet {} from server {}".

End PacketStream.

(** *** Client::main: after the connection *)

(** The members that a run of the queries leaves behind for [main]. *)
Record Recorded := mkRecorded {
  server_exception : option Exception;
  client_exception : option Exception;
  have_error : bool;
}.

(** [runInteractive] and [runNonInteractive] of [ClientBase], and the member
    [buzz_house] as [processOptions] has set it. *)
Class Runs `{Terminal} := {
  buzz_house : bool;
  runInteractive : Client.t → Exceptional () * Client.t;
  runNonInteractive : Client.t → Exceptional Recorded * Client.t;
}.

Module Session.
Section Session.
Context `{Terminal} `{!Runs}.

(** [const auto * exception = server_exception ? server_exception.get()
    : client_exception.get();] *)
Definition exception_of (recorded : Recorded) : option Exception :=
  match server_exception recorded with
  | Some e => Some e
  | None => client_exception recorded
  end.

(** What [main] does once [connect] has returned, up to its [return]s.  The
    warnings and the password complexity rules write to the output and to the
    context only. *)
Definition after_connect (cl : Client.t) : Exceptional Z * Client.t :=
  if Client.is_interactive cl && negb (Client.delayed_interactive cl) && negb buzz_house then
    match runInteractive cl with
    | (Throws e, cl) => (Throws e, cl)
    | (Returns _, cl) => (Returns 0, cl)
    end
  else
    match runNonInteractive cl with
    | (Throws e, cl) => (Throws e, cl)
    | (Returns recorded, cl) =>
        match exception_of recorded with
        | Some exception =>
            (Returns (if negb (code exception =? 0) then code exception else -1), cl)
        | None =>
            if have_error recorded then (Returns (-1), cl)
            else if Client.delayed_interactive cl then
              match runInteractive cl with
              | (Throws e, cl) => (Throws e, cl)
              | (Returns _, cl) => (Returns 0, cl)
              end
            else (Returns 0, cl)
        end
    end.

End Session.
End Session.

(** ** The specification's reading of the bootstrap loop *)

Section FailoverSpec.
Context `{ErrorCodes} `{Defines} `{BuildOptions} `{Terminal} `{ConfigSyntax} `{!Server}.

(** Authentication failure or missing required password. *)
Definition fatal (e : Exception) : Prop :=
  code e = AUTHENTICATION_FAILED ∨ code e = REQUIRED_PASSWORD.

(** [failover i cl k out]: started at host [i] in state [cl], the bootstrap
    ends at host [k] with [out].  One rule per way of leaving a host, as the
    specification lists them: the handshake succeeds; the failure is fatal;
    the failure is recoverable and no host remains; the failure is
    recoverable and the next host is tried. *)
Inductive failover : nat → Client.t → nat → Exceptional unit * Client.t → Prop :=
| failover_commit i cl address cl' :
    Client.hosts_and_ports cl !! i = Some address →
    Client.try_address i address cl = (Returns (), cl') →
    failover i cl i (Returns (), cl')
| failover_fatal i cl address e cl' :
    Client.hosts_and_ports cl !! i = Some address →
    Client.try_address i address cl = (Throws e, cl') →
    fatal e →
    failover i cl i (Throws e, cl')
| failover_last i cl address e cl' :
    Client.hosts_and_ports cl !! i = Some address →
    Client.try_address i address cl = (Throws e, cl') →
    ¬ fatal e →
    Client.hosts_and_ports cl !! S i = None →
    failover i cl i (Throws e, cl')
| failover_next i cl address e cl' k out :
    Client.hosts_and_ports cl !! i = Some address →
    Client.try_address i address cl = (Throws e, cl') →
    ¬ fatal e →
    is_Some (Client.hosts_and_ports cl !! S i) →
    failover (S i) cl' k out →
    failover i cl k out.

(** The events of trying the hosts [first], [first + 1], ... in order. *)
Fixpoint attempts_from (first : nat) (addresses : list HostAndPort.t) : list Event :=
  match addresses with
  | [] => []
  | address :: later => HostAttempted first address :: attempts_from (S first) later
  end.

(** The password retry is open after a failure [e] of a bootstrap started
    in [cl]: the failure is an authentication or required-password one, the
    session is interactive, and neither a password nor [ask-password] is
    configured. *)
Definition may_ask_password (cl : Client.t) (e : Exception) : bool :=
  ((code e =? AUTHENTICATION_FAILED) || (code e =? REQUIRED_PASSWORD))
  && Client.is_interactive cl
  && negb (has (Client.config cl) "password")
  && negb (getBool (Client.config cl) "ask-password" false).

(** The hosts [connect] goes through: those given, or the one made up from
    the configuration. *)
Definition hosts_to_try (cl : Client.t) : list HostAndPort.t :=
  match Client.hosts_and_ports cl with
  | [] =>
      let host := getString (Client.config cl) "host" "localhost" in
      [HostAndPort.mk host (Some (ConnectionParameters.getPortFromConfig (Client.config cl) host))]
  | _ :: _ => Client.hosts_and_ports cl
  end.

(** Number of calls of [connect] on record. *)
Definition bootstraps (cl : Client.t) : nat :=
  length (List.filter is_connect_called (Client.events cl)).

End FailoverSpec.

(** ** Argument vectors made of flags *)

Module TokenizerSpec.

(** How a flag with its value is spelled: [--flag value], [-f value] or
    [--flag=value]. *)
Inductive Spelling := Spaced | Short | Joined.

(** An argument vector as the pairing sees it: host flags and port flags
    with their values, and arguments that are neither. *)
Inductive Token :=
| HostFlag (spelling : Spelling) (value : string)
| PortFlag (joined : bool) (value : string)
| Plain (arg : string).

Definition render (token : Token) : list string :=
  match token with
  | HostFlag Spaced value => ["--host"; value]
  | HostFlag Short value => ["-h"; value]
  | HostFlag Joined value => ["--host=" +:+ value]
  | PortFlag false value => ["--port"; value]
  | PortFlag true value => ["--port=" +:+ value]
  | Plain arg => [arg]
  end.

Definition render_all (tokens : list Token) : list string := concat (map render tokens).

(** An argument that [readArguments] passes on without looking for a host,
    a port, a parameter or an external table in it. *)
Definition plain (arg : string) : bool :=
  negb (String.eqb arg "--external")
  && negb (Client.external_only_option arg)
  && negb (Str.starts_with arg "--param_" || Str.starts_with arg "--param-")
  && negb (Str.starts_with arg "--host" || Str.starts_with arg "-h")
  && negb (Str.starts_with arg "--port").

Definition well_formed (token : Token) : bool :=
  match token with
  | Plain arg => plain arg
  | _ => true
  end.

(** A pair is a host or nothing, and a port or nothing. *)
Definition Pair : Type := option string * option string.

(** The value of the first argument of a group that starts with [flag]. *)
Fixpoint value_of (flag : string) (group : list string) : option string :=
  match group with
  | [] => None
  | arg :: rest =>
      if Str.starts_with arg flag then Some (Str.substr_from (String.length flag) arg)
      else value_of flag rest
  end.

(** The pair a group of [hosts_and_ports_arguments] stands for. *)
Definition pair_of_group (group : list string) : Pair :=
  (value_of "--host=" group, value_of "--port=" group).

End TokenizerSpec.

(** ** Argument vectors for the other branches of the scan *)

Module ArgumentsSpec.

(** A token whose scan does not look at the argument that follows it: every
    well-formed token but [--password]. *)
Definition quiet (token : TokenizerSpec.Token) : bool :=
  TokenizerSpec.well_formed token
  && match token with
     | TokenizerSpec.Plain arg => negb (String.eqb arg "--password")
     | _ => true
     end.

(** An argument that the scan appends to the common arguments as it is. *)
Definition passed_on (arg : string) : bool :=
  TokenizerSpec.plain arg
  && negb (String.eqb arg "--password")
  && negb (String.eqb arg "--allow_repeated_settings")
  && negb (String.eqb arg "--allow_merge_tree_settings").






(** The two spellings of a query parameter, [--param_name=value] and
    [--param_name value]; [introducer] is [--param_] or [--param-]. *)
Definition param_joined (introducer name value : string) : list string :=
  [introducer +:+ name +:+ "=" +:+ value].

Definition param_spaced (introducer name value : string) : list string :=
  [introducer +:+ name; value].

(** The arguments that the scan takes for a host and for a port. *)
Definition host_like (arg : string) : bool :=
  Str.starts_with arg "--host" || Str.starts_with arg "-h".

Definition port_like (arg : string) : bool := Str.starts_with arg "--port".

(** A group of [hosts_and_ports_arguments]: a host argument, a port
    argument, or one of each. *)
Definition host_and_port_group (group : list string) : bool :=
  match group with
  | [arg] => host_like arg || port_like arg
  | [first; second] =>
      (host_like first && port_like second) || (port_like first && host_like second)
  | _ => false
  end.

(** What the scan keeps true of its state: the groups emitted are host and
    port groups, and what is pending is a host argument and a port
    argument. *)
Definition scanned (r : Client.Reading) : Prop :=
  Forall (λ group, host_and_port_group group = true) (Client.hosts_and_ports_arguments r)
  ∧ (Client.prev_host_arg r = "" ∨ host_like (Client.prev_host_arg r) = true)
  ∧ (Client.prev_port_arg r = "" ∨ port_like (Client.prev_port_arg r) = true).

End ArgumentsSpec.

(** ** The specification's reading of the host and port pairing *)

Module PairingSpec.
Import TokenizerSpec ArgumentsSpec.

(** A host or a port token, as the argument that the groups hold for it:
    the argument itself when the value is part of it ([--host=h], [-hh],
    [--port=p]), and [--host=value] or [--port=value] when the value is the
    next argument ([--host value], [-h value], [--port value]). *)
Inductive Lexeme :=
| HostToken (argument : string)
| PortToken (argument : string).

(** The host and port tokens of an argument vector, in order, or [None]
    for a vector that the tokenizer rejects.  [in_group] tells whether an
    external table group is open.  [--external] opens a group, the options
    of an external table are read inside a group only, and outside they end
    the group or are rejected; a query parameter is neither a host nor a
    port, and takes the next argument for its value when it has no equal
    sign; every other argument is a common argument. *)
Fixpoint tokens_of (in_group : bool) (args : list string) : option (list Lexeme) :=
  match args with
  | [] => Some []
  | arg :: rest =>
      if String.eqb arg "--external" then tokens_of true rest
      else if in_group && Client.external_option_with_value arg then tokens_of true rest
      else if in_group && Client.external_option arg then
        match rest with
        | _ :: rest' => tokens_of true rest'
        | [] => Some []
        end
      else if Client.external_only_option arg then None
      else if Str.starts_with arg "--param_" || Str.starts_with arg "--param-" then
        match Str.find_first_of (Str.substr_from (String.length "--param_") arg) "="%char with
        | None =>
            match rest with
            | _ :: rest' => tokens_of false rest'
            | [] => None
            end
        | Some equal_pos => if (equal_pos =? 0)%nat then None else tokens_of false rest
        end
      else if host_like arg then
        if String.eqb arg "--host" || String.eqb arg "-h" then
          match rest with
          | value :: rest' => cons (HostToken ("--host=" +:+ value)) <$> tokens_of false rest'
          | [] => None
          end
        else cons (HostToken arg) <$> tokens_of false rest
      else if port_like arg then
        if String.eqb arg "--port" then
          match rest with
          | value :: rest' => cons (PortToken ("--port=" +:+ value)) <$> tokens_of false rest'
          | [] => None
          end
        else cons (PortToken arg) <$> tokens_of false rest
      else tokens_of false rest
  end.

(** The pairing in the specification's words: a left to right scan with at
    most one pending host and one pending port. *)
Fixpoint pair_tokens (pending_host pending_port : option string) (tokens : list Lexeme)
    : list Pair :=
  match tokens with
  | [] =>
      match pending_host with Some h => [(Some h, None)] | None => [] end
      ++ match pending_port with Some p => [(None, Some p)] | None => [] end
  | HostToken h :: rest =>
      match pending_port with
      | Some p => (Some h, Some p) :: pair_tokens pending_host None rest
      | None =>
          match pending_host with
          | Some previous => (Some previous, None) :: pair_tokens (Some h) None rest
          | None => pair_tokens (Some h) None rest
          end
      end
  | PortToken p :: rest =>
      match pending_host with
      | Some h => (Some h, Some p) :: pair_tokens None pending_port rest
      | None =>
          match pending_port with
          | Some previous => (None, Some previous) :: pair_tokens None (Some p) rest
          | None => pair_tokens None (Some p) rest
          end
      end
  end.

(** The arguments of a pair. *)
Definition members (pair : Pair) : list string := option_list pair.1 ++ option_list pair.2.

(** A group of [hosts_and_ports_arguments] stands for a pair when it holds
    the arguments of the pair, in any order. *)
Definition stands_for (group : list string) (pair : Pair) : Prop := group ≡ₚ members pair.

(** The scan state [r] holds the pending host and port of the
    specification's scan. *)
Definition holds (r : Client.Reading) (pending_host pending_port : option string) : Prop :=
  Client.prev_host_arg r = default "" pending_host
  ∧ Client.prev_port_arg r = default "" pending_port
  ∧ pending_host ≠ Some "" ∧ pending_port ≠ Some "".

(** The outcome of a scan from [r] whose host and port tokens are [tokens]. *)
Definition paired (r : Client.Reading) (pending_host pending_port : option string)
    (tokens : option (list Lexeme)) (scan : Exceptional Client.Reading) : Prop :=
  match tokens with
  | Some tokens =>
      ∃ r' new, scan = Returns r'
        ∧ Client.hosts_and_ports_arguments (Client.flush_pending r')
          = Client.hosts_and_ports_arguments r ++ new
        ∧ Forall2 stands_for new (pair_tokens pending_host pending_port tokens)
  | None => ∃ e, scan = Throws e
  end.

End PairingSpec.

(** ** The specification's reading of the profile substitution *)

Module ProfileSpec.
Section ProfileSpec.
Context `{ErrorCodes} `{ConfigSyntax} `{Terminal}.

(** The configuration keys that the substitution may write. *)
Definition overlay_keys : list string :=
  ["host"; "port"; "secure"; "no-secure"; "user"; "password"; "database"; "history_file";
   "history_max_entries"; "accept-invalid-certificate"; "prompt"].

(** The entry [field] of the profile enumerated under [key]. *)
Definition entry (key field : string) : string :=
  ("connections_credentials." +:+ key) +:+ ("." +:+ field).

(** Entries of a profile other than its host name, each with a
    configuration key it overlays. *)
Definition guarded_overlays : list (string * string) :=
  [("port", "port"); ("secure", "secure"); ("secure", "no-secure"); ("user", "user");
   ("password", "password"); ("database", "database"); ("history_file", "history_file");
   ("history_max_entries", "history_max_entries");
   ("accept-invalid-certificate", "accept-invalid-certificate"); ("prompt", "prompt")].

(** The same with the host name, as the specification lists the fields. *)
Definition overlays_as_stated : list (string * string) :=
  ("hostname", "host") :: guarded_overlays.

Section Statement.
Context {C : Type} `{AbstractConfiguration C}.

(** The profile enumerated under [key] is one for [connection]. *)
Definition matching (config : C) (connection key : string) : Prop :=
  getString config (entry key "name") "" = connection.

(** Two configurations that agree on every key not written. *)
Definition agree_outside (config config' : C) : Prop :=
  ∀ k, k ∉ overlay_keys → getRaw config' k = getRaw config k.

(** Keys outside [overlay_keys] are left as they are, and a key that an
    entry of [overlays] overlays is left as it is unless a profile for the
    connection has that entry. *)
Definition respects (overlays : list (string * string)) (cl : Client.t) (config : C)
    (connection_name : string) (config' : C) : Prop :=
  let connection := Client.connection_to_use cl config connection_name in
  (∀ k, k ∉ overlay_keys → getRaw config' k = getRaw config k)
  ∧ (∀ field target, (field, target) ∈ overlays →
       (∀ key, key ∈ keys config "connections_credentials" →
               matching config connection key → has config (entry key field) = false) →
       getRaw config' target = getRaw config target).

(** What becomes of [host]: it is left as it is when no profile is for the
    connection, and otherwise set from the last such profile, to its
    [hostname] or else to its name. *)
Definition host_rule (cl : Client.t) (config : C) (connection_name : string) (config' : C)
    : Prop :=
  let connection := Client.connection_to_use cl config connection_name in
  ((∀ key, key ∈ keys config "connections_credentials" → ¬ matching config connection key) →
   ∀ k, getRaw config' k = getRaw config k)
  ∧ (∀ before key after,
       keys config "connections_credentials" = before ++ key :: after →
       matching config connection key →
       Forall (λ later, ¬ matching config connection later) after →
       getRaw config' "host"
       = Some (if has config (entry key "hostname")
               then getString1 config (entry key "hostname") else connection)).

End Statement.

(** C6 as the specification states it. *)
Definition claim_as_stated : Prop :=
  ∀ (C : Type) `(ConfigurationLaws C) (cl : Client.t) (config : C) connection_name config',
    Client.parseConnectionsCredentials cl config connection_name = Returns config' →
    respects overlays_as_stated cl config connection_name config'.

End ProfileSpec.
End ProfileSpec.

(** ** The specification's reading of the environment overrides *)

Module PrecedenceSpec.
Section PrecedenceSpec.
Context `{ErrorCodes} `{Defines} `{BuildOptions} `{Terminal} `{ConfigSyntax}
        `{Process} `{ClientBase} `{!Server}.

(** Configuration keys with the environment variable that overrides each. *)
Definition credentials_from_environment : list (string * string) :=
  [("user", "CLICKHOUSE_USER"); ("password", "CLICKHOUSE_PASSWORD")].

(** The value of a command-line flag: [processOptions] has written it to
    the application layer. *)
Definition flag (cl : Client.t) (key : string) : option string :=
  getRaw (application (Client.config cl)) key.

(** The value from the config files: the layers added to the configuration. *)
Definition from_files (cl : Client.t) (key : string) : option string :=
  first_raw (added (Client.config cl)) key.

(** The home directory that [processConfig] ends up with. *)
Definition home (cl : Client.t) : string :=
  if Str.empty (Client.home_path cl) then default (Client.home_path cl) (getenv "HOME")
  else Client.home_path cl.

(** C7 as the specification states it: the flag first, then the
    environment variable, whatever the config files hold. *)
Definition claim_as_stated : Prop :=
  (∀ cl cl' key variable,
     (key, variable) ∈ credentials_from_environment →
     Client.initialize cl = (Returns (), cl') →
     getRaw (Client.config cl') key
     = match flag cl key with
       | Some value => Some value
       | None =>
           match getenv variable with
           | Some value => Some value
           | None => from_files cl' key
           end
       end)
  ∧ (∀ cl cl',
       Client.processConfig cl = (Returns (), cl') →
       Client.is_interactive cl' || Client.delayed_interactive cl' = true →
       Some (Client.history_file cl')
       = match flag cl "history_file" with
         | Some value => Some value
         | None =>
             match getenv "CLICKHOUSE_HISTORY_FILE" with
             | Some value => Some value
             | None =>
                 match from_files cl "history_file" with
                 | Some value => Some value
                 | None =>
                     Some (if negb (Str.empty (home cl))
                           then home cl +:+ "/.clickhouse-client-history"
                           else Client.history_file cl)
                 end
             end
         end).

End PrecedenceSpec.
End PrecedenceSpec.

(** ** The specification's reading of the exit status *)

Module ExitSpec.
Section ExitSpec.
Context `{ErrorCodes} `{Defines} `{BuildOptions} `{Terminal} `{ConfigSyntax}
        `{Process} `{ClientBase} `{!Server}.

(** [n] clamped into the range from [lo] to [hi]. *)
Definition clamp (lo hi n : Z) : Z := Z.max lo (Z.min hi n).

(** C9 as the specification states it: the exit status is the code of the
    error clamped into the exit codes other than zero, and a generic failure
    code when the error carries no code. *)
Definition claim_as_stated : Prop :=
  ∀ (run_session : Client.t → Exceptional Z * Client.t)
    (init : list string → InitResult Client.t) argv e generic,
    surfaces init argv e generic →
    exit_status (mainEntryClickHouseClient run_session init argv)
    = if code e =? 0 then exit_status generic else clamp 1 255 (code e).

End ExitSpec.
End ExitSpec.

(** ** The specification's reading of the credential conflict *)

Module CredentialSpec.
Section CredentialSpec.
Context `{ErrorCodes} `{Defines} `{BuildOptions} `{Terminal} `{ConfigSyntax}
        `{Process} `{ClientBase} `{!Server} `{ExternalTables}.

(** C5 as the specification states it, for the conflict: when the user is
    given explicitly on the command line and the configuration that the
    parameters are constructed from holds a token, the run ends before any
    connection is made. *)
Definition claim_as_stated : Prop :=
  ∀ (run_session : Client.t → Exceptional Z * Client.t) options external_tables_arguments
    hosts_and_ports_arguments external_tables (cl cl1 cl2 : Client.t) tables name,
    Client.connection cl = None →
    opt_user options = Some name →
    Client.processOptions options external_tables_arguments hosts_and_ports_arguments
      external_tables cl = Continues (tables, (Returns (), cl1)) →
    Client.initialize cl1 = (Returns (), cl2) →
    has (Client.config cl2) "jwt" = true →
    Client.connection (Client.main run_session cl2).2 = None.

End CredentialSpec.
End CredentialSpec.

(** ** A reference platform

    Concrete values for the constants and collaborators, used to run the
    definitions. *)

Module Reference.

Definition error_codes : ErrorCodes :=
  {| BAD_ARGUMENTS := 36; SUPPORT_IS_DISABLED := 344; NETWORK_ERROR := 210;
     AUTHENTICATION_FAILED := 516; REQUIRED_PASSWORD := 194; NO_ELEMENTS_IN_CONFIG := 139 |}.

Definition defines : Defines :=
  {| DBMS_DEFAULT_PORT := 9000; DBMS_DEFAULT_SECURE_PORT := 9440;
     DBMS_DEFAULT_CONNECT_TIMEOUT_SEC := 10; DBMS_DEFAULT_SEND_TIMEOUT_SEC := 300;
     DBMS_DEFAULT_RECEIVE_TIMEOUT_SEC := 300; DEFAULT_TCP_KEEP_ALIVE_TIMEOUT := 290;
     DBMS_DEFAULT_SYNC_REQUEST_TIMEOUT_SEC := 5;
     ASK_PASSWORD := String "010"%char EmptyString |}.

Definition build_options : BuildOptions :=
  {| USE_JWT_CPP_AND_SSL := true; USE_SSH := true |}.

Fixpoint digits (value : Z) (s : string) : Z :=
  match s with
  | EmptyString => value
  | String c rest =>
      let d := Z.of_nat (nat_of_ascii c) - 48 in
      if (0 <=? d) && (d <=? 9) then digits (value * 10 + d) rest else value
  end.

Definition decimal (s : string) : Z :=
  match s with
  | String "-"%char rest => - digits 0 rest
  | _ => digits 0 s
  end.

Definition syntax : ConfigSyntax :=
  {| parseInt := decimal;
     parseBool s := String.eqb s "true" || String.eqb s "1" || String.eqb s "yes" || String.eqb s "on";
     formatInt := pretty |}.

(** A terminal at which "secret" is typed; only the loopback address is
    local. *)
Definition terminal : Terminal :=
  {| SSHKey := string * string;
     makePrivateKeyFromFile filename passphrase := Returns (filename, passphrase);
     isPrivate _ := true;
     readpassphrase _ := Some "secret";
     resolvesToLocalAddress h := Returns (String.eqb h "127.0.0.1") |}.

Definition client_base : ClientBase :=
  {| readEscapedString s := s; toString := pretty; appendSmileyIfNeeded s := s |}.

Definition connection_string : ConnectionString :=
  {| tryParseConnectionString s :=
       if Str.starts_with s "clickhouse:" then Returns (Some (["--user"; "default"], []))
       else Returns None;
     checkIfCmdLineOptionCanBeUsedWithConnectionString _ := Returns () |}.

Definition empty_document : MapConfiguration := mkMapConfiguration ∅ (λ _, []).

Definition empty_configuration : LayeredConfiguration := mkLayered empty_document [].

(** No environment variable, no config file, a terminal on standard input. *)
Definition bare_process : Process :=
  {| getenv _ := None;
     getClientConfigPath _ := None;
     loadConfig _ := Returns empty_document;
     stdin_is_a_tty := true;
     parseHostAndPort group :=
       if forallb (λ arg, Str.starts_with arg "--host=" || Str.starts_with arg "--port=") group
       then inr (HostAndPort.mk (default "localhost" (TokenizerSpec.value_of "--host=" group))
                   (decimal <$> TokenizerSpec.value_of "--port=" group))
       else inl "unrecognised option" |}.

(** External tables reduced to the file they read. *)
Definition external_tables : ExternalTables :=
  {| ExternalOptions := list string;
     ExternalTable := string;
     parse_external_options group := inr group;
     new_ExternalTable external_options :=
       Returns (default "" (TokenizerSpec.value_of "--file=" external_options));
     file table := table |}.

Definition hello : ServerHello :=
  {| hello_server_name := "ClickHouse"; hello_version_major := 25; hello_version_minor := 1;
     hello_version_patch := 0; hello_server_revision := 54470; hello_display_name := "";
     hello_timezone := "UTC"; hello_settings := [] |}.

(** The first host is down, every other host answers. *)
Definition server_first_down : @Server terminal :=
  {| getServerVersion _ parameters :=
       if String.eqb (ConnectionParameters.host parameters) "a.example"
       then Throws (mkException (@NETWORK_ERROR error_codes) "Connection refused")
       else Returns hello |}.

(** A server that wants a password. *)
Definition server_with_password : @Server terminal :=
  {| getServerVersion _ parameters :=
       if String.eqb (ConnectionParameters.password parameters) "secret"
       then Returns hello
       else Throws (mkException (@AUTHENTICATION_FAILED error_codes) "Authentication failed") |}.

(** A server that lets nobody in. *)
Definition server_rejecting : @Server terminal :=
  {| getServerVersion _ _ :=
       Throws (mkException (@AUTHENTICATION_FAILED error_codes) "Authentication failed") |}.

(** A client as it is before [initialize]: only the fields given differ
    from their initial values. *)
Definition client `{Terminal} (configuration : LayeredConfiguration)
    (addresses : list HostAndPort.t) (interactive : bool) : Client.t :=
  Client.mk configuration addresses "" "" 1000000 [] [] interactive false "" 0
    None None 0 "" [] "" [].

(** Two hosts on the command line. *)
Definition two_hosts : @Client.t terminal :=
  @client terminal empty_configuration
    [HostAndPort.mk "a.example" None; HostAndPort.mk "b.example" (Some 9000)] true.

(** No host on the command line. *)
Definition no_host : @Client.t terminal := @client terminal empty_configuration [] true.

(** A configuration that holds a token. *)
Definition jwt_configuration : LayeredConfiguration :=
  mkLayered (mkMapConfiguration {[ "jwt" := "token" ]} (λ _, [])) [].

(** No option given. *)
Definition no_options : CommandLineOptions :=
  mkOptions None None None false false None None false None None None None None false false
    None false.

(** [--user alice --jwt token] *)
Definition options_user_and_jwt : CommandLineOptions :=
  mkOptions None None None false false (Some "alice") None false None None None None None
    false false (Some "token") false.

(** A configuration with a prompt template. *)
Definition prompt_configuration : LayeredConfiguration :=
  mkLayered (mkMapConfiguration {[ "prompt" := "{user}@{host}" ]} (λ _, [])) [].

(** A configuration whose prompt table has one key, [production], and no
    [default]. *)
Definition table_configuration : LayeredConfiguration :=
  mkLayered
    (mkMapConfiguration
       {[ "prompt_by_server_display_name" := "";
          "prompt_by_server_display_name.production" := "{display_name} [prod]" ]}
       (λ key, if String.eqb key "prompt_by_server_display_name" then ["production"] else []))
    [].

(** One host on the command line, and the prompt table above. *)
Definition staging : @Client.t terminal :=
  @client terminal table_configuration [HostAndPort.mk "staging.example" (Some 9000)] true.

(** The same host, and no prompt table. *)
Definition staging_without_table : @Client.t terminal :=
  @client terminal empty_configuration [HostAndPort.mk "staging.example" (Some 9000)] true.

(** User [default] at [localhost]. *)
Definition local_parameters : @ConnectionParameters.t terminal :=
  @ConnectionParameters.mk terminal "localhost" 9000 "" "default" "" "" None "" SecureDisable
    CompressionDisable (mkTimeouts 0 0 0 0 0 0) "" "notchunked" "notchunked".

(** [--query "select 1" --host h1 --port=9000 -h h2] *)
Definition mixed_tokens : list TokenizerSpec.Token :=
  [TokenizerSpec.Plain "--query"; TokenizerSpec.Plain "select 1";
   TokenizerSpec.HostFlag TokenizerSpec.Spaced "h1"; TokenizerSpec.PortFlag true "9000";
   TokenizerSpec.HostFlag TokenizerSpec.Short "h2"].

(** [--query "select 1" --host h1 --external --file=data.tsv --name t
    --port=9000 -hh2 --param_id=42 --external --structure --port] *)
Definition busy_arguments : list string :=
  ["--query"; "select 1"; "--host"; "h1"; "--external"; "--file=data.tsv"; "--name"; "t";
   "--port=9000"; "-hh2"; "--param_id=42"; "--external"; "--structure"; "--port"].

(** A config file with one profile, [prod], that only names a user, and a
    [host] of its own. *)
Definition profile_document : MapConfiguration :=
  mkMapConfiguration
    {[ "host" := "db.internal";
       "connections_credentials.connection.name" := "prod";
       "connections_credentials.connection.user" := "alice" ]}
    (λ key, if String.eqb key "connections_credentials" then ["connection"] else []).

(** A config file that names a user. *)
Definition user_document : MapConfiguration :=
  mkMapConfiguration {[ "user" := "from_file" ]} (λ _, []).

(** A user in the environment, and the config file above. *)
Definition process_with_environment : Process :=
  {| getenv variable :=
       if String.eqb variable "CLICKHOUSE_USER" then Some "from_env" else None;
     getClientConfigPath _ := Some "config.xml";
     loadConfig _ := Returns user_document;
     stdin_is_a_tty := true;
     parseHostAndPort := @parseHostAndPort bare_process |}.

(** [ClientBase::init] and the session, reduced to what a run needs. *)
Definition init_two_hosts (argv : list string) : InitResult (@Client.t terminal) :=
  Initialized two_hosts.

Definition no_session (cl : @Client.t terminal) : Exceptional Z * @Client.t terminal :=
  (Returns 0, cl).

(** Both a password and [ask-password]. *)
Definition conflict_configuration : LayeredConfiguration :=
  mkLayered
    (mkMapConfiguration {[ "ask-password" := "true"; "password" := "secret" ]} (λ _, [])) [].

(** A build without JWT and without SSH. *)
Definition build_without_tokens : BuildOptions :=
  {| USE_JWT_CPP_AND_SSL := false; USE_SSH := false |}.

(** [--jwt token] *)
Definition options_jwt : CommandLineOptions :=
  mkOptions None None None false false None None false None None None None None
    false false (Some "token") false.

(** A config file with two profiles named [prod]: the first names a user
    and the history settings, the second another user and keeps
    certificate verification. *)
Definition profiles_document : MapConfiguration :=
  mkMapConfiguration
    {[ "connections_credentials.connection.name" := "prod";
       "connections_credentials.connection.user" := "alice";
       "connections_credentials.connection.history_file" := "~/.prod-history";
       "connections_credentials.connection.history_max_entries" := "5";
       "connections_credentials.connection[1].name" := "prod";
       "connections_credentials.connection[1].user" := "bob";
       "connections_credentials.connection[1].accept-invalid-certificate" := "false" ]}
    (λ key, if String.eqb key "connections_credentials"
            then ["connection"; "connection[1]"] else []).

(** A client whose home directory is known. *)
Definition at_home : @Client.t terminal := Client.with_home_path "/home/user" no_host.

(** [--connection prod] *)
Definition connection_prod : @Client.t terminal :=
  @client terminal
    (mkLayered (mkMapConfiguration {[ "connection" := "prod" ]} (λ _, [])) []) [] true.

(** No environment variable, and the config file with the two profiles. *)
Definition process_with_profiles : Process :=
  {| getenv _ := None;
     getClientConfigPath _ := Some "config.xml";
     loadConfig _ := Returns profiles_document;
     stdin_is_a_tty := true;
     parseHostAndPort := @parseHostAndPort bare_process |}.

(** [--query "select 1" --host b.example --port 9000] *)
Definition batch_client : @Client.t terminal :=
  Client.mk empty_configuration [HostAndPort.mk "b.example" (Some 9000)] "" "" 1000000
    ["select 1"] [] false false "" 0 None None 0 "" [] "" [].

(** A run of the queries that ends with an exception from the server. *)
Definition failing_queries : @Runs terminal :=
  {| buzz_house := false;
     runInteractive cl := (Returns (), cl);
     runNonInteractive cl :=
       (Returns (mkRecorded (Some (mkException 60 "Table default.t does not exist")) None true),
        cl) |}.

(** [--user alice] *)
Definition options_user : CommandLineOptions :=
  mkOptions None None None false false (Some "alice") None false None None None None None
    false false None false.

(** A config file that holds a token. *)
Definition token_document : MapConfiguration :=
  mkMapConfiguration {[ "jwt" := "token" ]} (λ _, []).

(** No environment variable, and the config file above. *)
Definition process_with_token : Process :=
  {| getenv _ := None;
     getClientConfigPath _ := Some "config.xml";
     loadConfig _ := Returns token_document;
     stdin_is_a_tty := true;
     parseHostAndPort := @parseHostAndPort bare_process |}.

Section Token.
#[local] Existing Instance error_codes.
#[local] Existing Instance defines.
#[local] Existing Instance build_options.
#[local] Existing Instance terminal.
#[local] Existing Instance syntax.
#[local] Existing Instance process_with_token.
#[local] Existing Instance client_base.
#[local] Existing Instance server_first_down.
#[local] Existing Instance external_tables.

(** The client after [--user alice] and the config file with the token. *)
Definition alice_with_token : Client.t :=
  (Client.initialize
     match Client.processOptions options_user [] [] [] no_host with
     | Continues (_, (_, cl1)) => cl1
     | _ => no_host
     end).2.

End Token.

(** Three packets with two warnings, and the end of the stream. *)
Definition warning_packets : list Packet :=
  [Data None; Data (Some ["Linux transparent hugepages are set to always"]); Progress;
   Data (Some ["Available memory is low"])].

End Reference.

(** * Properties *)

#[export] Instance MapConfiguration_laws : ConfigurationLaws MapConfiguration.
Proof.
  split; intros; simpl.
  - apply lookup_insert_eq.
  - by apply lookup_insert_ne.
Qed.

#[export] Instance LayeredConfiguration_laws : ConfigurationLaws LayeredConfiguration.
Proof.
  split; intros; simpl.
  - by rewrite lookup_insert_eq.
  - by rewrite lookup_insert_ne.
Qed.

(** ** Security inference *)

Section SecurityInference.
Context `{ErrorCodes} `{Defines} `{BuildOptions} `{Terminal} `{ConfigSyntax}.
Context {C : Type} `{AbstractConfiguration C}.

(** The constructor decides the security flag without the port it was
    given. *)
Lemma security_ignores_port (config : C) host database port_ p :
  ConnectionParameters.new config host database port_ = Returns p →
  ConnectionParameters.security p
  = if ConnectionParameters.enableSecureConnection config host None
    then SecureEnable else SecureDisable.
Proof.
  unfold ConnectionParameters.new. intros Hnew.
  destruct (ConnectionParameters.resolve_credentials config _) as [[[j k] pw]|e]; simpl in Hnew;
    [|discriminate].
  destruct (if String.eqb host "localhost" then _ else _) as [nl|e]; simpl in Hnew;
    [|discriminate].
  by inversion Hnew.
Qed.

End SecurityInference.

Section SecurityInferenceRun.
#[local] Existing Instance Reference.error_codes.
#[local] Existing Instance Reference.defines.
#[local] Existing Instance Reference.build_options.
#[local] Existing Instance Reference.terminal.
#[local] Existing Instance Reference.syntax.

(** C4, at the input of the divergence: no [secure] and no [no-secure] key,
    a host outside the managed-cloud domains, and the well-known secure port
    requested.  [enableSecureConnection] enables security when it is given
    the port, but the constructor does not pass the port on, and the
    constructed parameters have security disabled. *)
Theorem C4_secure_port_not_consulted :
  ConnectionParameters.enableSecureConnection Reference.empty_configuration "example.com"
    (Some DBMS_DEFAULT_SECURE_PORT) = true
  ∧ ∃ p, ConnectionParameters.new Reference.empty_configuration "example.com" ""
           (Some DBMS_DEFAULT_SECURE_PORT) = Returns p
         ∧ ConnectionParameters.port p = DBMS_DEFAULT_SECURE_PORT
         ∧ ConnectionParameters.security p = SecureDisable.
Proof.
  split; [reflexivity|].
  eexists. split; [reflexivity|]. split; reflexivity.
Qed.

End SecurityInferenceRun.

(** ** The bootstrap loop *)

Section Bootstrap.
Context `{ErrorCodes} `{Defines} `{BuildOptions} `{Terminal} `{ConfigSyntax}
        `{Process} `{ClientBase} `{!Server}.

Lemma fatal_test e :
  (code e =? AUTHENTICATION_FAILED) || (code e =? REQUIRED_PASSWORD) = true ↔ fatal e.
Proof.
  unfold fatal. rewrite orb_true_iff, !Z.eqb_eq. tauto.
Qed.

Lemma not_fatal_test e :
  (code e =? AUTHENTICATION_FAILED) || (code e =? REQUIRED_PASSWORD) = false ↔ ¬ fatal e.
Proof.
  rewrite <- fatal_test. destruct (_ || _); split; intros; congruence.
Qed.

(** One attempt leaves one event, keeps the list of hosts and, unless it
    ends with a handshake, the configuration. *)
Lemma try_address_frame i address cl r cl' :
  Client.try_address i address cl = (r, cl') →
  Client.events cl' = Client.events cl ++ [HostAttempted i address]
  ∧ Client.hosts_and_ports cl' = Client.hosts_and_ports cl
  ∧ Client.is_interactive cl' = Client.is_interactive cl
  ∧ (∀ e, r = Throws e → Client.config cl' = Client.config cl).
Proof.
  unfold Client.try_address. intros Htry.
  destruct (ConnectionParameters.new _ _ _ _) as [parameters|e].
  - destruct (getServerVersion _ _) as [answer|e];
      inversion Htry; subst; simpl; repeat split; intros; try done.
  - inversion Htry; subst; simpl; repeat split; intros; done.
Qed.

Lemma attempts_from_app first l1 l2 :
  attempts_from first (l1 ++ l2)
  = attempts_from first l1 ++ attempts_from (first + length l1) l2.
Proof.
  revert first. induction l1 as [|a l1 IH]; intros first; simpl.
  - by rewrite Nat.add_0_r.
  - rewrite IH. do 3 f_equal. lia.
Qed.

Lemma connect_loop_failover remaining : ∀ i cl,
  remaining ≠ [] →
  drop i (Client.hosts_and_ports cl) = remaining →
  ∃ k, (i ≤ k < length (Client.hosts_and_ports cl))%nat
     ∧ failover i cl k (Client.connect_loop i remaining cl)
     ∧ Client.events (Client.connect_loop i remaining cl).2
       = Client.events cl ++ attempts_from i (take (S k - i) remaining).
Proof.
  induction remaining as [|address later IH]; intros i cl Hne Hdrop; [done|].
  assert (Hlookup : Client.hosts_and_ports cl !! i = Some address).
  { rewrite <- (Nat.add_0_r i), <- lookup_drop, Hdrop. done. }
  assert (Hlen : length (Client.hosts_and_ports cl) = (i + S (length later))%nat).
  { apply (f_equal length) in Hdrop. rewrite length_drop in Hdrop. simpl in Hdrop.
    apply lookup_lt_Some in Hlookup. lia. }
  simpl. destruct (Client.try_address i address cl) as [r cl'] eqn:Htry.
  destruct (try_address_frame _ _ _ _ _ Htry) as (Hev & Hhosts & _ & _).
  destruct r as [[]|e].
  - exists i. split; [lia|]. split; [by eapply failover_commit|].
    simpl. replace (S i - i)%nat with 1%nat by lia. done.
  - destruct (_ || _) eqn:Hfatal.
    + exists i. split; [lia|]. split.
      * eapply failover_fatal; [done..|]. by apply fatal_test.
      * simpl. replace (S i - i)%nat with 1%nat by lia. done.
    + apply not_fatal_test in Hfatal. rewrite Hhosts, Hlen.
      destruct (i =? _)%nat eqn:Hlast.
      * apply Nat.eqb_eq in Hlast.
        exists i. split; [lia|]. split.
        -- eapply failover_last; [done..|]. apply lookup_ge_None. lia.
        -- simpl. replace (S i - i)%nat with 1%nat by lia. done.
      * apply Nat.eqb_neq in Hlast.
        assert (Hlater : later ≠ []) by (destruct later; simpl in *; [lia|done]).
        assert (Hdrop' : drop (S i) (Client.hosts_and_ports cl') = later).
        { rewrite Hhosts. rewrite (drop_S _ _ _ Hlookup) in Hdrop. congruence. }
        destruct (IH (S i) cl' Hlater Hdrop') as (k & Hk & Hrun & Hevents).
        exists k. rewrite Hhosts in Hk. split; [lia|]. split.
        -- eapply failover_next; [done..| |done].
           rewrite <- (Nat.add_0_r (S i)), <- lookup_drop, <- Hhosts, Hdrop'.
           destruct later; [done|]. by eexists.
        -- rewrite Hevents, Hev, <- app_assoc. f_equal.
           replace (S k - i)%nat with (S (S k - S i)) by lia. done.
Qed.

(** The loop keeps the list of hosts and the interactive flag, records no
    call of [connect], and leaves the configuration alone when it throws. *)
Lemma connect_loop_frame remaining : ∀ i cl r cl',
  Client.connect_loop i remaining cl = (r, cl') →
  Client.hosts_and_ports cl' = Client.hosts_and_ports cl
  ∧ Client.is_interactive cl' = Client.is_interactive cl
  ∧ List.filter is_connect_called (Client.events cl')
    = List.filter is_connect_called (Client.events cl)
  ∧ (∀ e, r = Throws e → Client.config cl' = Client.config cl).
Proof.
  induction remaining as [|address later IH]; intros i cl r cl' Hloop; simpl in Hloop.
  - inversion Hloop; subst. repeat split; done.
  - destruct (Client.try_address i address cl) as [r1 cl1] eqn:Htry.
    destruct (try_address_frame _ _ _ _ _ Htry) as (Hev & Hhosts & Hint & Hcfg).
    assert (Hcount : List.filter is_connect_called (Client.events cl1)
                     = List.filter is_connect_called (Client.events cl)).
    { rewrite Hev, List.filter_app. simpl. by rewrite app_nil_r. }
    destruct r1 as [[]|e].
    + inversion Hloop; subst. repeat split; done.
    + destruct (_ || _).
      { inversion Hloop; subst. repeat split; try done; intros e' [= ->]; by eapply Hcfg. }
      destruct (_ =? _)%nat.
      { inversion Hloop; subst. repeat split; try done; intros e' [= ->]; by eapply Hcfg. }
      destruct (IH _ _ _ _ Hloop) as (Hhosts' & Hint' & Hcount' & Hcfg').
      repeat split; try congruence.
      intros e' ->. rewrite (Hcfg' e' eq_refl). by eapply Hcfg.
Qed.

Lemma hosts_to_try_nonempty cl : hosts_to_try cl ≠ [].
Proof. unfold hosts_to_try. by destruct (Client.hosts_and_ports cl). Qed.

Lemma after_handshake_frame cl :
  Client.events (Client.after_handshake cl) = Client.events cl
  ∧ Client.hosts_and_ports (Client.after_handshake cl) = Client.hosts_and_ports cl
  ∧ Client.config (Client.after_handshake cl) = Client.config cl
  ∧ Client.is_interactive (Client.after_handshake cl) = Client.is_interactive cl.
Proof.
  unfold Client.after_handshake.
  destruct (Client.connection cl) as [[? [?|]]|]; try done.
  destruct (Client.connection_parameters cl); done.
Qed.

(** One call of [connect]: it is recorded once, the hosts of [hosts_to_try]
    are attempted from the first one on, in order, and a failure leaves the
    configuration and the interactive flag as they were. *)
Lemma connect_frame cl :
  ∃ k, (k < length (hosts_to_try cl))%nat
     ∧ Client.events (Client.connect cl).2
       = Client.events cl ++ ConnectCalled :: attempts_from 0 (take (S k) (hosts_to_try cl))
     ∧ Client.hosts_and_ports (Client.connect cl).2 = hosts_to_try cl
     ∧ Client.is_interactive (Client.connect cl).2 = Client.is_interactive cl
     ∧ bootstraps (Client.connect cl).2 = S (bootstraps cl)
     ∧ (∀ e, (Client.connect cl).1 = Throws e → Client.config (Client.connect cl).2 = Client.config cl).
Proof.
  unfold Client.connect.
  set (cl0 := Client.record_event ConnectCalled cl).
  set (cl1 := match Client.hosts_and_ports cl0 with [] => _ | _ => _ end).
  assert (Hhosts1 : Client.hosts_and_ports cl1 = hosts_to_try cl).
  { unfold cl1, cl0, hosts_to_try. destruct cl as [? hs]; cbn. destruct hs; reflexivity. }
  assert (Hev1 : Client.events cl1 = Client.events cl ++ [ConnectCalled]).
  { unfold cl1, cl0. destruct cl as [? hs]; cbn. destruct hs; reflexivity. }
  assert (Hcfg1 : Client.config cl1 = Client.config cl).
  { unfold cl1, cl0. destruct cl as [? hs]; cbn. destruct hs; reflexivity. }
  assert (Hint1 : Client.is_interactive cl1 = Client.is_interactive cl).
  { unfold cl1, cl0. destruct cl as [? hs]; cbn. destruct hs; reflexivity. }
  assert (Hne : Client.hosts_and_ports cl1 ≠ []).
  { rewrite Hhosts1. apply hosts_to_try_nonempty. }
  destruct (connect_loop_failover _ 0 cl1 Hne eq_refl) as (k & Hk & _ & Hev).
  destruct (Client.connect_loop 0 (Client.hosts_and_ports cl1) cl1) as [r cl2] eqn:Hloop.
  destruct (connect_loop_frame _ _ _ _ _ Hloop) as (Hhosts2 & Hint2 & Hcount2 & Hcfg2).
  rewrite Nat.sub_0_r, Hev1, Hhosts1, <- app_assoc in Hev. simpl in Hev.
  assert (Hboot : bootstraps cl2 = S (bootstraps cl)).
  { unfold bootstraps. rewrite Hcount2, Hev1, List.filter_app, length_app. simpl. lia. }
  exists k. rewrite Hhosts1 in Hk.
  destruct r as [[]|e]; simpl.
  - destruct (after_handshake_frame cl2) as (Ha & Hb & Hc & Hd).
    unfold bootstraps in *. rewrite Ha, Hb, Hd.
    repeat split; try congruence; try lia.
  - repeat split; try congruence; try lia.
    intros e' [= <-]. rewrite (Hcfg2 e eq_refl). done.
Qed.

(** C1: the loop over the hosts follows the specification's failover: a
    fatal failure (authentication, required password) ends the bootstrap at
    that host, any other failure moves on to the next host or, at the last
    host, is thrown; the hosts attempted are the first [k + 1] ones, in
    order, where [k] is the host at which the bootstrap ended. *)
Theorem C1_failover (cl : Client.t) :
  Client.hosts_and_ports cl ≠ [] →
  ∃ k, (k < length (Client.hosts_and_ports cl))%nat
     ∧ failover 0 cl k (Client.connect_loop 0 (Client.hosts_and_ports cl) cl)
     ∧ Client.events (Client.connect_loop 0 (Client.hosts_and_ports cl) cl).2
       = Client.events cl ++ attempts_from 0 (take (S k) (Client.hosts_and_ports cl)).
Proof.
  intros Hne.
  destruct (connect_loop_failover _ 0 cl Hne eq_refl) as (k & Hk & Hrun & Hev).
  exists k. split; [lia|]. split; [done|].
  rewrite Hev. by rewrite Nat.sub_0_r.
Qed.

(** C2: after a first bootstrap that fails, a second one is made exactly
    when the failure is an authentication or required-password one, the
    session is interactive and neither a password nor [ask-password] is
    configured; it is made with [ask-password] set, and whatever it ends with
    is the result, so that [connect] has been called twice.  In every other
    case the result is that of the first bootstrap and [connect] has been
    called once. *)
Theorem C2_password_retry (cl : Client.t) :
  match (Client.connect cl).1 with
  | Returns _ =>
      Client.connect_or_ask_password cl = Client.connect cl
      ∧ bootstraps (Client.connect_or_ask_password cl).2 = S (bootstraps cl)
  | Throws e =>
      if may_ask_password cl e then
        let again := Client.with_config (setBool "ask-password" true) (Client.connect cl).2 in
        getRaw (Client.config again) "ask-password" = Some "true"
        ∧ Client.connect_or_ask_password cl = Client.connect again
        ∧ bootstraps (Client.connect_or_ask_password cl).2 = S (S (bootstraps cl))
      else
        Client.connect_or_ask_password cl = Client.connect cl
        ∧ bootstraps (Client.connect_or_ask_password cl).2 = S (bootstraps cl)
  end.
Proof.
  destruct (connect_frame cl) as (_ & _ & _ & _ & Hint & Hboot & Hcfg).
  unfold Client.connect_or_ask_password.
  destruct (Client.connect cl) as [r cl1] eqn:Hconnect. simpl in *.
  destruct r as [[]|e]; [done|].
  rewrite (Hcfg e eq_refl), Hint. unfold may_ask_password.
  destruct ((code e =? AUTHENTICATION_FAILED) || (code e =? REQUIRED_PASSWORD)) eqn:Hfatal.
  - apply orb_true_iff in Hfatal.
    assert (Hcodes : negb (code e =? AUTHENTICATION_FAILED) && negb (code e =? REQUIRED_PASSWORD)
                     = false) by (destruct Hfatal as [-> | ->]; [done|apply andb_false_r]).
    rewrite Hcodes. simpl.
    destruct (has (Client.config cl) "password"); simpl; [by rewrite andb_false_r|].
    destruct (getBool (Client.config cl) "ask-password" false); simpl;
      [by rewrite andb_false_r|].
    destruct (Client.is_interactive cl); simpl; [|done].
    split; [by rewrite lookup_insert_eq|]. split; [done|].
    destruct (connect_frame (Client.with_config (setBool "ask-password" true) cl1))
      as (_ & _ & _ & _ & _ & Hboot2 & _).
    rewrite Hboot2. unfold bootstraps in *. simpl. by rewrite Hboot.
  - apply orb_false_iff in Hfatal as [-> ->]. simpl. done.
Qed.

(** C10: started without any host, [connect] tries exactly one: the
    configured [host], or localhost, at the configured [port] or else, as
    security is inferred for that host, at [tcp_port_secure] or [tcp_port]
    or else at the default secure or plain port. *)
Theorem C10_default_host (cl : Client.t) :
  Client.hosts_and_ports cl = [] →
  let host := getString (Client.config cl) "host" "localhost" in
  let secure := ConnectionParameters.enableSecureConnection (Client.config cl) host None in
  let port :=
    to_UInt16
      match getRaw (Client.config cl) "port" with
      | Some explicit => parseInt explicit
      | None =>
          match getRaw (Client.config cl) (if secure then "tcp_port_secure" else "tcp_port") with
          | Some configured => parseInt configured
          | None => if secure then DBMS_DEFAULT_SECURE_PORT else DBMS_DEFAULT_PORT
          end
      end in
  Client.hosts_and_ports (Client.connect cl).2 = [HostAndPort.mk host (Some port)]
  ∧ Client.events (Client.connect cl).2
    = Client.events cl ++ [ConnectCalled; HostAttempted 0 (HostAndPort.mk host (Some port))].
Proof.
  intros Hempty host secure port.
  assert (Htry : hosts_to_try cl = [HostAndPort.mk host (Some port)]).
  { unfold hosts_to_try. rewrite Hempty. unfold ConnectionParameters.getPortFromConfig.
    fold host. fold secure. unfold port, getInt.
    destruct (getRaw (Client.config cl) "port"); simpl; [done|].
    destruct (getRaw (Client.config cl) _); done. }
  destruct (connect_frame cl) as (k & Hk & Hev & Hhosts & _).
  rewrite Htry in *. simpl in Hk. replace k with 0%nat in Hev by lia.
  split; [done|]. by rewrite Hev.
Qed.

End Bootstrap.

Section BootstrapRun.
#[local] Existing Instance Reference.error_codes.
#[local] Existing Instance Reference.defines.
#[local] Existing Instance Reference.build_options.
#[local] Existing Instance Reference.terminal.
#[local] Existing Instance Reference.syntax.
#[local] Existing Instance Reference.bare_process.
#[local] Existing Instance Reference.client_base.
#[local] Existing Instance Reference.server_first_down.

(** Hosts [a.example; b.example], the first one down. *)
Lemma C1_failover_witness :
  Client.hosts_and_ports Reference.two_hosts ≠ []
  ∧ ∃ k, (k < length (Client.hosts_and_ports Reference.two_hosts))%nat
       ∧ failover 0 Reference.two_hosts k
           (Client.connect_loop 0 (Client.hosts_and_ports Reference.two_hosts) Reference.two_hosts)
       ∧ Client.events
           (Client.connect_loop 0 (Client.hosts_and_ports Reference.two_hosts)
              Reference.two_hosts).2
         = Client.events Reference.two_hosts
           ++ attempts_from 0 (take (S k) (Client.hosts_and_ports Reference.two_hosts)).
Proof.
  split; [discriminate|].
  apply (C1_failover Reference.two_hosts). discriminate.
Defined.

(** With the first host down the bootstrap commits to the second one, and
    [connect] is called once. *)
Example failover_run :
  (Client.connect_or_ask_password Reference.two_hosts).1 = Returns ()
  ∧ ConnectionParameters.host
    <$> Client.connection_parameters (Client.connect_or_ask_password Reference.two_hosts).2
    = Some "b.example"
  ∧ Client.events (Client.connect_or_ask_password Reference.two_hosts).2
    = [ConnectCalled; HostAttempted 0 (HostAndPort.mk "a.example" None);
       HostAttempted 1 (HostAndPort.mk "b.example" (Some 9000))].
Proof. repeat split; vm_compute; reflexivity. Qed.

(** No host given and an empty configuration: localhost at the default
    port. *)
Lemma C10_default_host_witness :
  Client.hosts_and_ports Reference.no_host = []
  ∧ (Client.hosts_and_ports (Client.connect Reference.no_host).2
     = [HostAndPort.mk "localhost" (Some 9000)]
     ∧ Client.events (Client.connect Reference.no_host).2
       = [ConnectCalled; HostAttempted 0 (HostAndPort.mk "localhost" (Some 9000))]).
Proof.
  split; [reflexivity|].
  exact (C10_default_host Reference.no_host eq_refl).
Defined.

End BootstrapRun.

Section PasswordRetryRun.
#[local] Existing Instance Reference.error_codes.
#[local] Existing Instance Reference.defines.
#[local] Existing Instance Reference.build_options.
#[local] Existing Instance Reference.terminal.
#[local] Existing Instance Reference.syntax.
#[local] Existing Instance Reference.bare_process.
#[local] Existing Instance Reference.client_base.
#[local] Existing Instance Reference.server_with_password.

(** An interactive session without a password against a server that wants
    one. *)
Lemma C2_password_retry_witness :
  match (Client.connect Reference.two_hosts).1 with
  | Returns _ =>
      Client.connect_or_ask_password Reference.two_hosts = Client.connect Reference.two_hosts
      ∧ bootstraps (Client.connect_or_ask_password Reference.two_hosts).2
        = S (bootstraps Reference.two_hosts)
  | Throws e =>
      if may_ask_password Reference.two_hosts e then
        let again := Client.with_config (setBool "ask-password" true)
                       (Client.connect Reference.two_hosts).2 in
        getRaw (Client.config again) "ask-password" = Some "true"
        ∧ Client.connect_or_ask_password Reference.two_hosts = Client.connect again
        ∧ bootstraps (Client.connect_or_ask_password Reference.two_hosts).2
          = S (S (bootstraps Reference.two_hosts))
      else
        Client.connect_or_ask_password Reference.two_hosts = Client.connect Reference.two_hosts
        ∧ bootstraps (Client.connect_or_ask_password Reference.two_hosts).2
          = S (bootstraps Reference.two_hosts)
  end.
Proof. exact (C2_password_retry Reference.two_hosts). Defined.

(** In that session the first bootstrap fails, the second one asks for the
    password and succeeds; the second host is never attempted. *)
Example password_retry_run :
  (Client.connect Reference.two_hosts).1
  = Throws (mkException AUTHENTICATION_FAILED "Authentication failed")
  ∧ Client.events (Client.connect Reference.two_hosts).2
    = [ConnectCalled; HostAttempted 0 (HostAndPort.mk "a.example" None)]
  ∧ (Client.connect_or_ask_password Reference.two_hosts).1 = Returns ()
  ∧ Client.events (Client.connect_or_ask_password Reference.two_hosts).2
    = [ConnectCalled; HostAttempted 0 (HostAndPort.mk "a.example" None);
       ConnectCalled; HostAttempted 0 (HostAndPort.mk "a.example" None)].
Proof. repeat split; vm_compute; reflexivity. Qed.

End PasswordRetryRun.

Section RejectedRun.
#[local] Existing Instance Reference.error_codes.
#[local] Existing Instance Reference.defines.
#[local] Existing Instance Reference.build_options.
#[local] Existing Instance Reference.terminal.
#[local] Existing Instance Reference.syntax.
#[local] Existing Instance Reference.bare_process.
#[local] Existing Instance Reference.client_base.
#[local] Existing Instance Reference.server_rejecting.

(** Against a server that lets nobody in, the retry fails as well and its
    failure is the result; the first host has been attempted twice, the
    second one never. *)
Example rejected_run :
  (Client.connect_or_ask_password Reference.two_hosts).1
  = Throws (mkException AUTHENTICATION_FAILED "Authentication failed")
  ∧ Client.events (Client.connect_or_ask_password Reference.two_hosts).2
    = [ConnectCalled; HostAttempted 0 (HostAndPort.mk "a.example" None);
       ConnectCalled; HostAttempted 0 (HostAndPort.mk "a.example" None)].
Proof. split; vm_compute; reflexivity. Qed.

End RejectedRun.

(** ** Exit codes *)

Section ExitCodes.
Context `{ErrorCodes} `{Defines} `{BuildOptions} `{Terminal} `{ConfigSyntax}
        `{Process} `{ClientBase} `{!Server}.
Variable run_session : Client.t → Exceptional Z * Client.t.
Variable init : list string → InitResult Client.t.

Lemma to_UInt8_range n : 0 ≤ to_UInt8 n < 256.
Proof. unfold to_UInt8. apply Z.mod_pos_bound. lia. Qed.

Lemma to_UInt8_small n : 0 ≤ n < 256 → to_UInt8 n = n.
Proof. unfold to_UInt8. intros. by apply Z.mod_small. Qed.

Lemma main_returns_main_catch cl e :
  raised_in_main cl e → (Client.main run_session cl).1 = Client.main_catch e.
Proof.
  unfold Client.main. intros [[cl1 Hcfg] | (cl1 & cl2 & Hcfg & Hconnect)].
  - by rewrite Hcfg.
  - by rewrite Hcfg, Hconnect.
Qed.

(** C9: a fatal resolution or bootstrap error [e] makes the entry point
    return the code of [e] unchanged when the low eight bits of that code are
    not all zero, and the handler's generic failure code (1, or -1 inside
    [main]) otherwise, as when the code is 0.  The exit status is the low
    eight bits of the returned value: the code modulo 256, or 1 or 255 for
    the generic code.  It is never 0, and it is the code of [e] exactly when
    that code lies in 1..255: a larger code is cut to its low eight bits, not
    clamped, and a code that is a multiple of 256 gives the generic code. *)
Theorem C9_exit_status (argv : list string) (e : Exception) (generic : Z) :
  surfaces init argv e generic →
  let rc := mainEntryClickHouseClient run_session init argv in
  rc = (if to_UInt8 (code e) =? 0 then generic else code e)
  ∧ (generic = 1 ∨ generic = -1)
  ∧ exit_status rc
    = (if code e mod 256 =? 0 then (if generic =? 1 then 1 else 255) else code e mod 256)
  ∧ 1 ≤ exit_status rc ≤ 255
  ∧ (exit_status rc = code e ↔ 1 ≤ code e ≤ 255)
  ∧ (code e = 0 → rc = generic).
Proof.
  intros Hsurfaces rc.
  assert (Hrc : rc = (if to_UInt8 (code e) =? 0 then generic else code e)).
  { unfold rc, mainEntryClickHouseClient.
    destruct Hsurfaces as [Hinit | cl Hinit Hini | cl cl1 Hinit Hini Hmain]; rewrite Hinit.
    - reflexivity.
    - unfold Client.run. destruct (Client.initialize cl) as [r cl1]. simpl in Hini.
      by rewrite Hini.
    - unfold Client.run. rewrite Hini.
      by rewrite (main_returns_main_catch _ _ Hmain). }
  assert (Hgeneric : generic = 1 ∨ generic = -1) by (destruct Hsurfaces; auto).
  split; [done|]. split; [done|].
  pose proof (to_UInt8_range (code e)) as Hrange.
  unfold exit_status. rewrite Hrc.
  change (code e mod 256) with (to_UInt8 (code e)).
  destruct (to_UInt8 (code e) =? 0) eqn:Hlow.
  - apply Z.eqb_eq in Hlow.
    assert (Hstatus : to_UInt8 generic = (if generic =? 1 then 1 else 255))
      by (destruct Hgeneric as [-> | ->]; by vm_compute).
    rewrite Hstatus.
    assert (Hbounds : 1 ≤ (if generic =? 1 then 1 else 255) ≤ 255)
      by (destruct (generic =? 1); lia).
    split; [done|]. split; [done|]. split; [|done]. split.
    + intros Hcode. rewrite <- Hcode in Hlow.
      destruct Hgeneric as [-> | ->]; by vm_compute in Hlow.
    + intros Hcode. rewrite to_UInt8_small in Hlow; lia.
  - apply Z.eqb_neq in Hlow. split; [done|]. split; [lia|]. split; [split|].
    + intros Hcode. lia.
    + intros Hcode. apply to_UInt8_small. lia.
    + intros Hzero. rewrite Hzero in Hlow. by vm_compute in Hlow.
Qed.

End ExitCodes.


Section ExitCodesRun.
#[local] Existing Instance Reference.error_codes.
#[local] Existing Instance Reference.defines.
#[local] Existing Instance Reference.build_options.
#[local] Existing Instance Reference.terminal.
#[local] Existing Instance Reference.syntax.
#[local] Existing Instance Reference.bare_process.
#[local] Existing Instance Reference.client_base.
#[local] Existing Instance Reference.server_rejecting.

Lemma everybody_rejected :
  surfaces Reference.init_two_hosts ["clickhouse-client"]
    (mkException AUTHENTICATION_FAILED "Authentication failed") (-1).
Proof.
  eapply (surfaces_in_main _ _ _ Reference.two_hosts (Client.initialize Reference.two_hosts).2).
  - reflexivity.
  - vm_compute; reflexivity.
  - right.
    exists (Client.processConfig (Client.initialize Reference.two_hosts).2).2.
    exists (Client.connect_or_ask_password
              (Client.processConfig (Client.initialize Reference.two_hosts).2).2).2.
    split; vm_compute; reflexivity.
Defined.

(** Nobody is let in: the bootstrap and its retry fail with code 516, which
    the process returns; the exit status is 4. *)
Lemma C9_exit_status_witness :
  surfaces Reference.init_two_hosts ["clickhouse-client"]
    (mkException AUTHENTICATION_FAILED "Authentication failed") (-1)
  ∧ (let rc := mainEntryClickHouseClient Reference.no_session Reference.init_two_hosts
                 ["clickhouse-client"] in
     rc = (if to_UInt8 516 =? 0 then -1 else 516)
     ∧ (-1 = 1 ∨ -1 = -1)
     ∧ exit_status rc = (if 516 mod 256 =? 0 then (if -1 =? 1 then 1 else 255) else 516 mod 256)
     ∧ 1 ≤ exit_status rc ≤ 255
     ∧ (exit_status rc = 516 ↔ 1 ≤ 516 ≤ 255)
     ∧ (516 = 0 → rc = -1)).
Proof.
  split; [exact everybody_rejected|].
  exact (C9_exit_status Reference.no_session Reference.init_two_hosts _ _ _ everybody_rejected).
Defined.

(** C9 as stated fails: the code 516 of that run is cut to the exit status 4,
    where clamping gives 255. *)
Lemma C9_code_is_cut_not_clamped : ¬ ExitSpec.claim_as_stated.
Proof.
  intros Hclaim.
  specialize (Hclaim Reference.no_session Reference.init_two_hosts ["clickhouse-client"]
                (mkException AUTHENTICATION_FAILED "Authentication failed") (-1)
                everybody_rejected).
  vm_compute in Hclaim. discriminate.
Qed.

(** The same run, evaluated. *)
Example exit_status_run :
  mainEntryClickHouseClient Reference.no_session Reference.init_two_hosts ["clickhouse-client"]
  = 516
  ∧ exit_status (mainEntryClickHouseClient Reference.no_session Reference.init_two_hosts
                   ["clickhouse-client"]) = 4.
Proof. split; vm_compute; reflexivity. Qed.

End ExitCodesRun.

(** ** Credential mechanisms *)

Section Credentials.
Context `{ErrorCodes} `{Defines} `{BuildOptions} `{Terminal} `{ConfigSyntax}
        `{Process} `{ClientBase} `{!Server} `{ExternalTables}.

Lemma new_credentials {C : Type} `{AbstractConfiguration C} (config : C) host database port_ p :
  ConnectionParameters.new config host database port_ = Returns p →
  ConnectionParameters.resolve_credentials config (getString config "user" "default")
  = Returns (ConnectionParameters.jwt p, ConnectionParameters.ssh_private_key p,
             ConnectionParameters.password p).
Proof.
  unfold ConnectionParameters.new. intros Hnew.
  destruct (ConnectionParameters.resolve_credentials config _) as [[[j k] pw]|e]; simpl in Hnew;
    [|discriminate].
  destruct (if String.eqb host "localhost" then _ else _) as [nl|e]; simpl in Hnew;
    [|discriminate].
  by inversion Hnew.
Qed.

Lemma with_config_events f (cl : Client.t) :
  Client.events (Client.with_config f cl) = Client.events cl.
Proof. reflexivity. Qed.

Lemma set_if_given_events key value (cl : Client.t) :
  Client.events (Client.set_if_given key value cl) = Client.events cl.
Proof. by destruct value. Qed.

Lemma set_if_counted_events key counted (cl : Client.t) :
  Client.events (Client.set_if_counted key counted cl) = Client.events cl.
Proof. by destruct counted. Qed.

Lemma with_hosts_and_ports_events hs (cl : Client.t) :
  Client.events (Client.with_hosts_and_ports hs cl) = Client.events cl.
Proof. reflexivity. Qed.

Lemma with_max_client_network_bandwidth_events n (cl : Client.t) :
  Client.events (Client.with_max_client_network_bandwidth n cl) = Client.events cl.
Proof. reflexivity. Qed.

Lemma set_certificate_handler_events options (cl : Client.t) :
  Client.events (Client.set_certificate_handler options cl) = Client.events cl.
Proof. unfold Client.set_certificate_handler. by destruct (opt_accept_invalid_certificate _). Qed.

Ltac forget_writes :=
  repeat first
    [ rewrite with_config_events
    | rewrite set_if_given_events
    | rewrite set_if_counted_events
    | rewrite with_hosts_and_ports_events
    | rewrite with_max_client_network_bandwidth_events
    | rewrite set_certificate_handler_events ].

Lemma set_if_given_connection key value (cl : Client.t) :
  Client.connection (Client.set_if_given key value cl) = Client.connection cl.
Proof. by destruct value. Qed.

Lemma set_if_counted_connection key counted (cl : Client.t) :
  Client.connection (Client.set_if_counted key counted cl) = Client.connection cl.
Proof. by destruct counted. Qed.

Lemma set_certificate_handler_connection options (cl : Client.t) :
  Client.connection (Client.set_certificate_handler options cl) = Client.connection cl.
Proof. unfold Client.set_certificate_handler. by destruct (opt_accept_invalid_certificate _). Qed.

(** The options are written without connecting to anything. *)
Lemma copy_options_events options (cl : Client.t) :
  Client.events (Client.copy_options options cl).2 = Client.events cl
  ∧ Client.connection (Client.copy_options options cl).2 = Client.connection cl.
Proof.
  unfold Client.copy_options.
  split;
    repeat match goal with
           | |- context [match ?x with _ => _ end] => destruct x; simpl
           end;
    forget_writes;
    rewrite ?set_certificate_handler_connection;
    cbn [Client.connection Client.with_config Client.with_max_client_network_bandwidth];
    rewrite ?set_if_counted_connection;
    cbn [Client.connection Client.with_config Client.with_max_client_network_bandwidth];
    repeat (rewrite ?set_if_counted_connection, ?set_if_given_connection);
    reflexivity.
Qed.

(** When [processOptions] goes on, both loops have, and what it gives is
    what the options give on the client with the hosts added. *)
Lemma processOptions_continues options external_tables_arguments hosts_and_ports_arguments
    external_tables (cl : Client.t) tables result :
  Client.processOptions options external_tables_arguments hosts_and_ports_arguments
    external_tables cl = Continues (tables, result)
  ↔ ExternalTablesLoop.external_tables_loop external_tables_arguments external_tables 0
    = Continues tables
    ∧ ∃ hosts_and_ports,
        Client.hosts_and_ports_loop hosts_and_ports_arguments (Client.hosts_and_ports cl)
        = inr hosts_and_ports
        ∧ result
          = Client.copy_options options (Client.with_hosts_and_ports hosts_and_ports cl).
Proof.
  unfold Client.processOptions.
  destruct (ExternalTablesLoop.external_tables_loop _ _ _) as [tables'|exit_code|what].
  - destruct (Client.hosts_and_ports_loop _ _) as [what|hosts_and_ports].
    + split; [discriminate|]. by intros (_ & ? & [=] & _).
    + split.
      * intros [= -> <-]. eauto.
      * intros ([= ->] & ? & [= <-] & ->). done.
  - split; [discriminate|]. by intros [[=] _].
  - split; [discriminate|]. by intros [[=] _].
Qed.

End Credentials.


(** ** Prompt *)

Section Prompt.
Context `{ErrorCodes} `{Defines} `{BuildOptions} `{Terminal} `{ConfigSyntax}
        `{Process} `{ClientBase} `{!Server}.

Lemma find_first {A} (f : A → bool) before x after :
  Forall (λ y, f y = false) before → f x = true →
  find f (before ++ x :: after) = Some x.
Proof.
  induction 1 as [|y before Hy _ IH]; intros Hx; simpl.
  - by rewrite Hx.
  - rewrite Hy. by apply IH.
Qed.

Lemma find_nothing {A} (f : A → bool) l :
  Forall (λ y, f y = false) l → find f l = None.
Proof.
  induction 1 as [|y l Hy _ IH]; simpl; [done|]. by rewrite Hy.
Qed.

(** A handshake leaves the connection with its parameters and the server's
    answer; no attempt touches the prompt. *)
Lemma try_address_connection i address cl r cl' :
  Client.try_address i address cl = (r, cl') →
  Client.prompt cl' = Client.prompt cl
  ∧ (r = Returns () →
     ∃ parameters answer,
       Client.connection_parameters cl' = Some parameters
       ∧ Client.connection cl' = Some (parameters, Some answer)).
Proof.
  unfold Client.try_address. intros Htry.
  destruct (ConnectionParameters.new _ _ _ _) as [parameters|e].
  - destruct (getServerVersion _ _) as [answer|e]; inversion Htry; subst; simpl.
    + split; [done|]. intros _. by exists parameters, answer.
    + split; [done|]. intros [=].
  - inversion Htry; subst; simpl. split; [done|]. intros [=].
Qed.

Lemma connect_loop_connection remaining : ∀ i cl cl',
  remaining ≠ [] →
  drop i (Client.hosts_and_ports cl) = remaining →
  Client.connect_loop i remaining cl = (Returns (), cl') →
  Client.prompt cl' = Client.prompt cl
  ∧ ∃ parameters answer,
      Client.connection_parameters cl' = Some parameters
      ∧ Client.connection cl' = Some (parameters, Some answer).
Proof.
  induction remaining as [|address later IH]; intros i cl cl' Hne Hdrop Hloop; [done|].
  assert (Hlookup : Client.hosts_and_ports cl !! i = Some address).
  { rewrite <- (Nat.add_0_r i), <- lookup_drop, Hdrop. done. }
  assert (Hlen : length (Client.hosts_and_ports cl) = (i + S (length later))%nat).
  { apply (f_equal length) in Hdrop. rewrite length_drop in Hdrop. simpl in Hdrop.
    apply lookup_lt_Some in Hlookup. lia. }
  simpl in Hloop.
  destruct (Client.try_address i address cl) as [r cl1] eqn:Htry.
  destruct (try_address_connection _ _ _ _ _ Htry) as [Hprompt Hconnection].
  destruct (try_address_frame _ _ _ _ _ Htry) as (_ & Hhosts & _).
  destruct r as [[]|e].
  - inversion Hloop; subst. split; [done|]. by apply Hconnection.
  - destruct (_ || _); [discriminate|].
    rewrite Hhosts, Hlen in Hloop.
    destruct (i =? _)%nat eqn:Hlast; [discriminate|].
    apply Nat.eqb_neq in Hlast.
    assert (Hlater : later ≠ []) by (destruct later; simpl in *; [lia|done]).
    assert (Hdrop' : drop (S i) (Client.hosts_and_ports cl1) = later).
    { rewrite Hhosts. rewrite (drop_S _ _ _ Hlookup) in Hdrop. congruence. }
    destruct (IH _ _ _ Hlater Hdrop' Hloop) as [Hprompt' Hconnection'].
    split; [congruence|done].
Qed.

(** After a successful [connect] the prompt is composed from the
    configuration as it is then, the parameters of the committed connection
    and the display name of the server. *)
Lemma connect_prompt cl :
  (Client.connect cl).1 = Returns () →
  ∃ parameters answer,
    Client.connection_parameters (Client.connect cl).2 = Some parameters
    ∧ Client.connection (Client.connect cl).2 = Some (parameters, Some answer)
    ∧ Client.server_display_name (Client.connect cl).2
      = (if Str.empty (hello_display_name answer)
         then getString (Client.config (Client.connect cl).2) "host" "localhost"
         else hello_display_name answer)
    ∧ Client.prompt (Client.connect cl).2
      = Client.compose_prompt (Client.config (Client.connect cl).2) parameters
          (Client.server_display_name (Client.connect cl).2) (Client.prompt cl).
Proof.
  unfold Client.connect.
  set (cl1 := match Client.hosts_and_ports _ with [] => _ | _ => _ end).
  assert (Hne : Client.hosts_and_ports cl1 ≠ []).
  { unfold cl1. destruct cl as [? hs]; cbn. by destruct hs. }
  assert (Hprompt1 : Client.prompt cl1 = Client.prompt cl).
  { unfold cl1. destruct cl as [? hs]; cbn. by destruct hs. }
  destruct (Client.connect_loop 0 (Client.hosts_and_ports cl1) cl1) as [r cl2] eqn:Hloop.
  destruct r as [[]|e]; simpl; [|discriminate]. intros _.
  destruct (connect_loop_connection _ 0 cl1 cl2 Hne eq_refl Hloop)
    as (Hprompt2 & parameters & answer & Hparameters & Hconnection).
  exists parameters, answer.
  unfold Client.after_handshake. rewrite Hconnection, Hparameters. simpl.
  rewrite Hprompt2, Hprompt1. done.
Qed.

(** After a successful bootstrap the prompt is the chosen template,
    unescaped, with [{display_name}], [{host}], [{port}] and [{user}]
    replaced, in this order, and passed to [appendSmileyIfNeeded].  The
    template is the [prompt] value of the configuration; else, with a
    [prompt_by_server_display_name] table, the value of the first key other
    than [default] that occurs in the server display name, or the value of
    [default] when there is no such key, or the prompt member as it was when
    there is neither; else [{display_name}].  With template [{user}@{host}],
    user [default] and host [localhost], and nothing to unescape or append,
    the prompt is [default@localhost]. *)
Lemma prompt_composition :
  (∀ cl, (Client.connect cl).1 = Returns () →
     ∃ parameters display_name,
       Client.connection_parameters (Client.connect cl).2 = Some parameters
       ∧ Client.server_display_name (Client.connect cl).2 = display_name
       ∧ Client.prompt (Client.connect cl).2
         = appendSmileyIfNeeded
             (Client.substitute
                (readEscapedString
                   (Client.choose_prompt (Client.config (Client.connect cl).2) display_name
                      (Client.prompt cl)))
                [("display_name", display_name);
                 ("host", ConnectionParameters.host parameters);
                 ("port", toString (ConnectionParameters.port parameters));
                 ("user", ConnectionParameters.user parameters)]))
  ∧ (∀ config display_name previous,
       let table := "prompt_by_server_display_name" in
       let matches key := negb (String.eqb key "default") && Str.contains display_name key in
       let template := Client.choose_prompt config display_name previous in
       (has config "prompt" = true → template = getString1 config "prompt")
       ∧ (has config "prompt" = false → has config table = true →
          ∀ before key after,
            keys config table = before ++ key :: after →
            Forall (λ k, matches k = false) before → matches key = true →
            template = getRawString config (table +:+ "." +:+ key))
       ∧ (has config "prompt" = false → has config table = true →
          Forall (λ k, matches k = false) (keys config table) →
          has config (table +:+ ".default") = true →
          template = getRawString config (table +:+ ".default"))
       ∧ (has config "prompt" = false → has config table = true →
          Forall (λ k, matches k = false) (keys config table) →
          has config (table +:+ ".default") = false →
          template = previous)
       ∧ (has config "prompt" = false → has config table = false →
          template = "{display_name}"))
  ∧ (∀ config parameters display_name previous,
       has config "prompt" = true →
       getString1 config "prompt" = "{user}@{host}" →
       readEscapedString "{user}@{host}" = "{user}@{host}" →
       appendSmileyIfNeeded "default@localhost" = "default@localhost" →
       ConnectionParameters.user parameters = "default" →
       ConnectionParameters.host parameters = "localhost" →
       Client.compose_prompt config parameters display_name previous = "default@localhost").
Proof.
  split; [|split].
  - intros cl Hconnect.
    destruct (connect_prompt cl Hconnect)
      as (parameters & answer & Hparameters & _ & Hdisplay & Hprompt).
    exists parameters, (Client.server_display_name (Client.connect cl).2).
    split; [done|]. split; [done|]. exact Hprompt.
  - intros config display_name previous table matches template.
    unfold template, Client.choose_prompt. fold table. repeat split.
    + by intros ->.
    + intros -> -> before key after Hkeys Hbefore Hkey.
      fold matches. rewrite Hkeys, (find_first matches before key after Hbefore Hkey). done.
    + intros -> -> Hnone Hdefault. fold matches.
      rewrite (find_nothing matches _ Hnone).
      change ("prompt_by_server_display_name.default") with (table +:+ ".default").
      by rewrite Hdefault.
    + intros -> -> Hnone Hdefault. fold matches.
      rewrite (find_nothing matches _ Hnone).
      change ("prompt_by_server_display_name.default") with (table +:+ ".default").
      by rewrite Hdefault.
    + by intros -> ->.
  - intros config parameters display_name previous Hhas Htemplate Hescape Hsmiley Huser Hhost.
    unfold Client.compose_prompt, Client.choose_prompt, Client.prompt_substitutions.
    rewrite Hhas, Htemplate, Hescape, Huser, Hhost.
    change (Client.substitute "{user}@{host}" _) with "default@localhost".
    exact Hsmiley.
Qed.

End Prompt.

Section PromptRun.
#[local] Existing Instance Reference.error_codes.
#[local] Existing Instance Reference.defines.
#[local] Existing Instance Reference.build_options.
#[local] Existing Instance Reference.terminal.
#[local] Existing Instance Reference.syntax.
#[local] Existing Instance Reference.bare_process.
#[local] Existing Instance Reference.client_base.
#[local] Existing Instance Reference.server_first_down.

(** The template [{user}@{host}] for user [default] at [localhost]. *)
Example prompt_template_run :
  Client.compose_prompt Reference.prompt_configuration Reference.local_parameters
    "server" "" = "default@localhost".
Proof.
  apply (proj2 (proj2 prompt_composition) Reference.prompt_configuration
           Reference.local_parameters "server" ""); reflexivity.
Qed.

(** The prompt of that bootstrap is the host it committed to. *)
Example prompt_run :
  Client.prompt (Client.connect Reference.two_hosts).2 = "b.example".
Proof. vm_compute; reflexivity. Qed.

(** C8: a [prompt_by_server_display_name] table with neither a key that
    occurs in the server display name nor a [default] key does not lead to
    the generic template.  The bootstrap of [staging] succeeds against a
    server whose display name is [staging.example]; the configuration has no
    [prompt], the only key of the table is [production]; the template is the
    prompt member as it was, the empty string, and so is the prompt.  The
    generic template, which the same bootstrap takes without the table,
    gives [staging.example]. *)
Theorem C8_table_without_default_keeps_prompt :
  let cl := (Client.connect Reference.staging).2 in
  (Client.connect Reference.staging).1 = Returns ()
  ∧ Client.server_display_name cl = "staging.example"
  ∧ has (Client.config cl) "prompt" = false
  ∧ has (Client.config cl) "prompt_by_server_display_name" = true
  ∧ keys (Client.config cl) "prompt_by_server_display_name" = ["production"]
  ∧ Str.contains "staging.example" "production" = false
  ∧ has (Client.config cl) "prompt_by_server_display_name.default" = false
  ∧ Client.choose_prompt (Client.config cl) "staging.example"
      (Client.prompt Reference.staging) = ""
  ∧ Client.prompt cl = ""
  ∧ Client.prompt (Client.connect Reference.staging_without_table).2 = "staging.example".
Proof. vm_compute. repeat split; reflexivity. Qed.

End PromptRun.

(** ** Host and port pairing *)

Section Tokenizer.
Context `{ErrorCodes} `{Defines} `{ConnectionString}.
Import TokenizerSpec ArgumentsSpec PairingSpec.

Lemma scan_host spelling value rest r :
  Client.in_external_group r = false →
  Client.scan_arguments false (render (HostFlag spelling value) ++ rest) r
  = Client.scan_arguments false rest
      (Client.host_seen ("--host=" +:+ value) (Client.leave_external_group r)).
Proof. intros Hout. destruct spelling; simpl; rewrite Hout; reflexivity. Qed.

Lemma scan_port joined value rest r :
  Client.in_external_group r = false →
  Client.scan_arguments false (render (PortFlag joined value) ++ rest) r
  = Client.scan_arguments false rest
      (Client.port_seen ("--port=" +:+ value) (Client.leave_external_group r)).
Proof. intros Hout. destruct joined; simpl; rewrite Hout; reflexivity. Qed.

Lemma scan_plain arg rest r :
  plain arg = true →
  Client.in_external_group r = false →
  ∃ r', Client.scan_arguments false (arg :: rest) r = Client.scan_arguments false rest r'
        ∧ Client.hosts_and_ports_arguments r' = Client.hosts_and_ports_arguments r
        ∧ Client.prev_host_arg r' = Client.prev_host_arg r
        ∧ Client.prev_port_arg r' = Client.prev_port_arg r
        ∧ Client.in_external_group r' = false.
Proof.
  unfold plain. rewrite !andb_true_iff, !negb_true_iff.
  intros ((((Hexternal & Honly) & Hparam) & Hhost) & Hport) Hout.
  simpl. rewrite Hexternal, Hout, Honly, Hparam, Hhost, Hport. simpl.
  destruct (String.eqb arg "--allow_repeated_settings"); [by eexists|].
  destruct (String.eqb arg "--allow_merge_tree_settings"); [by eexists|].
  destruct (String.eqb arg "--password" && _); by eexists.
Qed.

Lemma host_arg_not_empty h : Str.empty ("--host=" +:+ h) = false.
Proof. reflexivity. Qed.

Lemma port_arg_not_empty p : Str.empty ("--port=" +:+ p) = false.
Proof. reflexivity. Qed.

Lemma starts_with_append flag value : Str.starts_with (flag +:+ value) flag = true.
Proof.
  unfold Str.starts_with. induction flag as [|c flag IH].
  - by destruct value.
  - change (String c flag +:+ value) with (String c (flag +:+ value)). simpl.
    by destruct (ascii_dec c c).
Qed.

Lemma substr_from_append flag value :
  Str.substr_from (String.length flag) (flag +:+ value) = value.
Proof.
  induction flag as [|c flag IH]; [done|].
  change (String c flag +:+ value) with (String c (flag +:+ value)). simpl. exact IH.
Qed.

Lemma value_of_here flag value rest :
  value_of flag ((flag +:+ value) :: rest) = Some value.
Proof. simpl. by rewrite starts_with_append, substr_from_append. Qed.

Lemma value_of_host_skips_port p rest :
  value_of "--host=" (("--port=" +:+ p) :: rest) = value_of "--host=" rest.
Proof. reflexivity. Qed.

Lemma value_of_port_skips_host h rest :
  value_of "--port=" (("--host=" +:+ h) :: rest) = value_of "--port=" rest.
Proof. reflexivity. Qed.

Lemma pair_of_host h : pair_of_group ["--host=" +:+ h] = (Some h, None).
Proof.
  unfold pair_of_group. by rewrite value_of_here, value_of_port_skips_host.
Qed.

Lemma pair_of_port p : pair_of_group ["--port=" +:+ p] = (None, Some p).
Proof.
  unfold pair_of_group. by rewrite value_of_here, value_of_host_skips_port.
Qed.

Lemma pair_of_host_port h p :
  pair_of_group ["--host=" +:+ h; "--port=" +:+ p] = (Some h, Some p).
Proof.
  unfold pair_of_group. by rewrite value_of_here, value_of_port_skips_host, value_of_here.
Qed.

Lemma pair_of_port_host h p :
  pair_of_group ["--port=" +:+ p; "--host=" +:+ h] = (Some h, Some p).
Proof.
  unfold pair_of_group. by rewrite value_of_here, value_of_host_skips_port, value_of_here.
Qed.

Lemma readArguments_scan program args common external groups :
  (∀ first, head args = Some first → tryParseConnectionString first = Returns None) →
  Client.readArguments (program :: args) common external groups
  = r ← Client.scan_arguments false args
          (Client.mkReading common external groups ∅ false false false "" "");
    Returns (Client.flush_pending r).
Proof.
  intros Hplain. unfold Client.readArguments.
  destruct args as [|first args]; simpl.
  - by rewrite !app_nil_r.
  - rewrite (Hplain first eq_refl). simpl. by rewrite !app_nil_r.
Qed.

Ltac evaluate_groups :=
  match goal with
  | |- ?groups = ?value ∧ _ =>
      let Hgroups := fresh "Hgroups" in
      assert (Hgroups : groups = value) by reflexivity;
      rewrite Hgroups; split; [reflexivity|]; cbn [map]
  end.

Lemma pending_empty pending :
  pending ≠ Some "" →
  Str.empty (default "" pending) = match pending with Some _ => false | None => true end.
Proof.
  destruct pending as [[|c s]|]; [done|reflexivity|reflexivity].
Qed.

Lemma host_like_not_empty arg : host_like arg = true → arg ≠ "".
Proof. by intros Hlike ->. Qed.

Lemma port_like_not_empty arg : port_like arg = true → arg ≠ "".
Proof. by intros Hlike ->. Qed.

Ltac project_state :=
  cbn [Client.hosts_and_ports_arguments Client.prev_host_arg Client.prev_port_arg
       Client.in_external_group Client.push_hosts_and_ports Client.set_prev_host_arg
       Client.set_prev_port_arg].

Ltac solve_holds :=
  unfold holds; project_state; cbn [default from_option id] in *; repeat split; congruence.

(** A host argument moves the scan of the source as a host token moves the
    scan of the specification. *)
Lemma host_seen_pairs host_arg r pending_host pending_port :
  holds r pending_host pending_port →
  host_arg ≠ "" →
  ∃ emitted pending_host' pending_port',
    Client.hosts_and_ports_arguments (Client.host_seen host_arg r)
    = Client.hosts_and_ports_arguments r ++ emitted
    ∧ holds (Client.host_seen host_arg r) pending_host' pending_port'
    ∧ Client.in_external_group (Client.host_seen host_arg r) = Client.in_external_group r
    ∧ ∀ tokens new,
        Forall2 stands_for new (pair_tokens pending_host' pending_port' tokens) →
        Forall2 stands_for (emitted ++ new)
          (pair_tokens pending_host pending_port (HostToken host_arg :: tokens)).
Proof.
  intros (Hhost & Hport & Hsome_host & Hsome_port) Hargument.
  unfold Client.host_seen. rewrite Hport, Hhost, !pending_empty by done.
  destruct pending_port as [p|]; cbn [negb default from_option id].
  - exists [[host_arg; p]], pending_host, None. project_state.
    split; [done|]. split; [solve_holds|]. split; [done|].
    intros tokens new Hnew. cbn [pair_tokens app]. by constructor; [by unfold stands_for|].
  - destruct pending_host as [previous|]; cbn [negb default from_option id].
    + exists [[previous]], (Some host_arg), None. project_state.
      split; [done|]. split; [solve_holds|]. split; [done|].
      intros tokens new Hnew. cbn [pair_tokens app]. by constructor; [by unfold stands_for|].
    + exists [], (Some host_arg), None. project_state.
      rewrite app_nil_r. split; [done|]. split; [solve_holds|]. split; [done|].
      intros tokens new Hnew. done.
Qed.

Lemma port_seen_pairs port_arg r pending_host pending_port :
  holds r pending_host pending_port →
  port_arg ≠ "" →
  ∃ emitted pending_host' pending_port',
    Client.hosts_and_ports_arguments (Client.port_seen port_arg r)
    = Client.hosts_and_ports_arguments r ++ emitted
    ∧ holds (Client.port_seen port_arg r) pending_host' pending_port'
    ∧ Client.in_external_group (Client.port_seen port_arg r) = Client.in_external_group r
    ∧ ∀ tokens new,
        Forall2 stands_for new (pair_tokens pending_host' pending_port' tokens) →
        Forall2 stands_for (emitted ++ new)
          (pair_tokens pending_host pending_port (PortToken port_arg :: tokens)).
Proof.
  intros (Hhost & Hport & Hsome_host & Hsome_port) Hargument.
  unfold Client.port_seen. rewrite Hport, Hhost, !pending_empty by done.
  destruct pending_host as [h|]; cbn [negb default from_option id].
  - exists [[port_arg; h]], None, pending_port. project_state.
    split; [done|]. split; [solve_holds|]. split; [done|].
    intros tokens new Hnew. cbn [pair_tokens app]. constructor; [|done].
    apply Permutation_swap.
  - destruct pending_port as [previous|]; cbn [negb default from_option id].
    + exists [[previous]], None, (Some port_arg). project_state.
      split; [done|]. split; [solve_holds|]. split; [done|].
      intros tokens new Hnew. cbn [pair_tokens app]. by constructor; [by unfold stands_for|].
    + exists [], None, (Some port_arg). project_state.
      rewrite app_nil_r. split; [done|]. split; [solve_holds|]. split; [done|].
      intros tokens new Hnew. done.
Qed.

(** What is pending when the arguments run out is emitted alone, the host
    first. *)
Lemma flush_pairs r pending_host pending_port :
  holds r pending_host pending_port →
  ∃ new, Client.hosts_and_ports_arguments (Client.flush_pending r)
         = Client.hosts_and_ports_arguments r ++ new
         ∧ Forall2 stands_for new (pair_tokens pending_host pending_port []).
Proof.
  intros (Hhost & Hport & Hsome_host & Hsome_port).
  unfold Client.flush_pending. rewrite Hhost, pending_empty by done.
  destruct pending_host as [h|]; cbn [negb default from_option id];
    project_state; rewrite Hport, pending_empty by done;
    destruct pending_port as [p|]; cbn [negb default from_option id];
    project_state; cbn [pair_tokens app].
  - exists [[h]; [p]]. rewrite <- app_assoc. split; [done|].
    repeat (constructor; [by unfold stands_for|]). constructor.
  - exists [[h]]. split; [done|]. repeat (constructor; [by unfold stands_for|]). constructor.
  - exists [[p]]. split; [done|]. repeat (constructor; [by unfold stands_for|]). constructor.
  - exists []. rewrite app_nil_r. split; [done|]. constructor.
Qed.

Lemma paired_step r r1 emitted pending_host pending_port pending_host' pending_port' token
    tokens scan :
  Client.hosts_and_ports_arguments r1 = Client.hosts_and_ports_arguments r ++ emitted →
  (∀ tokens new,
     Forall2 stands_for new (pair_tokens pending_host' pending_port' tokens) →
     Forall2 stands_for (emitted ++ new)
       (pair_tokens pending_host pending_port (token :: tokens))) →
  paired r1 pending_host' pending_port' tokens scan →
  paired r pending_host pending_port (cons token <$> tokens) scan.
Proof.
  intros Hemitted Hstep. destruct tokens as [tokens|]; [|done].
  intros (r' & new & Hscan & Hgroups & Hpairs).
  exists r', (emitted ++ new). split; [done|]. split; [|by apply Hstep].
  by rewrite Hgroups, Hemitted, <- app_assoc.
Qed.

(** The scan of the source and the scan of the specification go through
    the same pairs, on every argument vector. *)
Lemma scan_tokens n : ∀ args r pending_host pending_port,
  (length args ≤ n)%nat →
  holds r pending_host pending_port →
  paired r pending_host pending_port (tokens_of (Client.in_external_group r) args)
    (Client.scan_arguments false args r).
Proof.
  induction n as [|n IH]; intros args r pending_host pending_port Hlength Hholds.
  - destruct args; [|simpl in Hlength; lia].
    destruct (flush_pairs r _ _ Hholds) as (new & Hgroups & Hpairs). by exists r, new.
  - destruct args as [|arg rest].
    { destruct (flush_pairs r _ _ Hholds) as (new & Hgroups & Hpairs). by exists r, new. }
    assert (Hnext : ∀ in_group r',
              Client.in_external_group r' = in_group →
              Client.hosts_and_ports_arguments r' = Client.hosts_and_ports_arguments r →
              Client.prev_host_arg r' = Client.prev_host_arg r →
              Client.prev_port_arg r' = Client.prev_port_arg r →
              paired r pending_host pending_port (tokens_of in_group rest)
                (Client.scan_arguments false rest r')).
    { intros in_group r' <- Hgroups Hhost Hport.
      assert (Hholds' : holds r' pending_host pending_port).
      { destruct Hholds as (? & ? & ? & ?). repeat split; congruence. }
      pose proof (IH rest r' _ _ ltac:(simpl in Hlength; lia) Hholds') as Hpaired.
      unfold paired in *. rewrite Hgroups in Hpaired. exact Hpaired. }
    assert (Hafter : ∀ value rest' in_group r',
              rest = value :: rest' →
              Client.in_external_group r' = in_group →
              Client.hosts_and_ports_arguments r' = Client.hosts_and_ports_arguments r →
              Client.prev_host_arg r' = Client.prev_host_arg r →
              Client.prev_port_arg r' = Client.prev_port_arg r →
              paired r pending_host pending_port (tokens_of in_group rest')
                (Client.scan_arguments false rest' r')).
    { intros value rest' in_group r' -> <- Hgroups Hhost Hport.
      assert (Hholds' : holds r' pending_host pending_port).
      { destruct Hholds as (? & ? & ? & ?). repeat split; congruence. }
      pose proof (IH rest' r' _ _ ltac:(simpl in Hlength; lia) Hholds') as Hpaired.
      unfold paired in *. rewrite Hgroups in Hpaired. exact Hpaired. }
    assert (Hhost_step : ∀ host_arg later,
              (length later ≤ n)%nat → host_arg ≠ "" →
              paired r pending_host pending_port
                (cons (HostToken host_arg) <$> tokens_of false later)
                (Client.scan_arguments false later
                   (Client.host_seen host_arg (Client.leave_external_group r)))).
    { intros host_arg later Hlater Hargument.
      assert (Hleft : holds (Client.leave_external_group r) pending_host pending_port)
        by exact Hholds.
      destruct (host_seen_pairs host_arg _ _ _ Hleft Hargument)
        as (emitted & pending_host' & pending_port' & Hemitted & Hholds' & Hout & Hstep).
      pose proof (IH later _ _ _ Hlater Hholds') as Hpaired.
      rewrite Hout in Hpaired. by eapply paired_step. }
    assert (Hport_step : ∀ port_arg later,
              (length later ≤ n)%nat → port_arg ≠ "" →
              paired r pending_host pending_port
                (cons (PortToken port_arg) <$> tokens_of false later)
                (Client.scan_arguments false later
                   (Client.port_seen port_arg (Client.leave_external_group r)))).
    { intros port_arg later Hlater Hargument.
      assert (Hleft : holds (Client.leave_external_group r) pending_host pending_port)
        by exact Hholds.
      destruct (port_seen_pairs port_arg _ _ _ Hleft Hargument)
        as (emitted & pending_host' & pending_port' & Hemitted & Hholds' & Hout & Hstep).
      pose proof (IH later _ _ _ Hlater Hholds') as Hpaired.
      rewrite Hout in Hpaired. by eapply paired_step. }
    cbn [Client.scan_arguments tokens_of mbind Exceptional_bind].
    destruct (String.eqb arg "--external"); [by apply Hnext|].
    destruct (Client.in_external_group r && Client.external_option_with_value arg) eqn:Hvalue.
    { apply andb_true_iff in Hvalue as [Hin _]. by apply Hnext. }
    destruct (Client.in_external_group r && Client.external_option arg) eqn:Hoption.
    { apply andb_true_iff in Hoption as [Hin _].
      destruct rest as [|value rest'] eqn:Hshape.
      - destruct (flush_pairs r _ _ Hholds) as (new & Hgroups & Hpairs). by exists r, new.
      - by eapply Hafter. }
    destruct (Client.external_only_option arg); [by eexists|].
    destruct (Str.starts_with arg "--param_" || Str.starts_with arg "--param-").
    { destruct (Str.find_first_of _ _) as [equal_pos|].
      - destruct (equal_pos =? 0)%nat; [by eexists|]. by apply Hnext.
      - destruct rest as [|value rest'] eqn:Hshape; [by eexists|]. by eapply Hafter. }
    change (Str.starts_with arg "--host" || Str.starts_with arg "-h") with (host_like arg).
    destruct (host_like arg) eqn:Hhost.
    { destruct (String.eqb arg "--host" || String.eqb arg "-h").
      - destruct rest as [|value rest'] eqn:Hshape; [by eexists|].
        apply Hhost_step; [simpl in Hlength; lia|discriminate].
      - apply Hhost_step; [simpl in Hlength; lia|by apply host_like_not_empty]. }
    change (Str.starts_with arg "--port") with (port_like arg).
    destruct (port_like arg) eqn:Hport.
    { destruct (String.eqb_spec arg "--port") as [->|_].
      - destruct rest as [|value rest'] eqn:Hshape; [by eexists|].
        apply (Hport_step ("--port=" +:+ value)); [simpl in Hlength; lia|discriminate].
      - apply Hport_step; [simpl in Hlength; lia|by apply port_like_not_empty]. }
    destruct (String.eqb arg "--allow_repeated_settings"); [by apply Hnext|].
    destruct (String.eqb arg "--allow_merge_tree_settings"); [by apply Hnext|].
    destruct (String.eqb arg "--password" && _); by apply Hnext.
Qed.


(** With every argument accepted beside a connection string, the scan goes
    as it does without one. *)
Lemma scan_arguments_checked n : ∀ args r,
  (length args ≤ n)%nat →
  Forall (λ arg, checkIfCmdLineOptionCanBeUsedWithConnectionString arg = Returns ()) args →
  Client.scan_arguments true args r = Client.scan_arguments false args r.
Proof.
  induction n as [|n IH]; intros args r Hlength Hchecked.
  - destruct args; [done|simpl in Hlength; lia].
  - destruct args as [|arg rest]; [done|].
    inversion Hchecked as [|? ? Harg Hrest]; subst.
    assert (Hnext : ∀ r', Client.scan_arguments true rest r' = Client.scan_arguments false rest r').
    { intros r'. apply IH; [simpl in Hlength; lia|done]. }
    assert (Hafter : ∀ value rest' r', rest = value :: rest' →
              Client.scan_arguments true rest' r' = Client.scan_arguments false rest' r').
    { intros value rest' r' ->. apply IH; [simpl in Hlength; lia|].
      by inversion Hrest. }
    cbn [Client.scan_arguments mbind Exceptional_bind]. rewrite Harg.
    cbn [mbind Exceptional_bind].
    repeat match goal with
           | |- (if ?b then _ else _) = (if ?b then _ else _) => destruct b
           | |- match ?o with Some _ => _ | None => _ end
                = match ?o with Some _ => _ | None => _ end => destruct o
           | |- match rest with [] => _ | _ :: _ => _ end
                = match rest with [] => _ | _ :: _ => _ end =>
               destruct rest as [|value rest'] eqn:Hshape
           end;
      try reflexivity; try apply Hnext; try (by eapply Hafter); try (rewrite <- Hshape; apply Hnext).
Qed.

(** The check of the arguments beside a connection string only adds
    exceptions. *)
Lemma scan_arguments_unchecked n : ∀ args r r',
  (length args ≤ n)%nat →
  Client.scan_arguments true args r = Returns r' →
  Client.scan_arguments false args r = Returns r'.
Proof.
  induction n as [|n IH]; intros args r r' Hlength.
  - destruct args; [done|simpl in Hlength; lia].
  - destruct args as [|arg rest]; [done|].
    assert (Hnext : ∀ r1, Client.scan_arguments true rest r1 = Returns r' →
                          Client.scan_arguments false rest r1 = Returns r').
    { intros r1. apply IH. simpl in Hlength; lia. }
    assert (Hafter : ∀ value rest' r1, rest = value :: rest' →
              Client.scan_arguments true rest' r1 = Returns r' →
              Client.scan_arguments false rest' r1 = Returns r').
    { intros value rest' r1 ->. apply IH. simpl in Hlength; lia. }
    cbn [Client.scan_arguments mbind Exceptional_bind].
    destruct (checkIfCmdLineOptionCanBeUsedWithConnectionString arg) as [[]|e];
      cbn [mbind Exceptional_bind]; [|discriminate].
    repeat match goal with
           | |- (if ?b then _ else _) = _ → (if ?b then _ else _) = _ => destruct b
           | |- match ?o with Some _ => _ | None => _ end = _
                → match ?o with Some _ => _ | None => _ end = _ => destruct o
           | |- match rest with [] => _ | _ :: _ => _ end = _
                → match rest with [] => _ | _ :: _ => _ end = _ =>
               destruct rest as [|value rest'] eqn:Hshape
           end;
      try done; try apply Hnext; try (by eapply Hafter); try (rewrite <- Hshape; apply Hnext).
Qed.

(** C3: on every argument vector, [readArguments] pairs the host and port
    tokens as the specification's left to right scan does.  The tokens of
    the vector are its host and port arguments outside the external tables
    and the query parameters, in every spelling ([--host h], [-h h],
    [--host=h], [-hh], [--port p], [--port=p]).  When the vector is one that
    the tokenizer accepts, [readArguments] returns, and the groups it has
    appended to [hosts_and_ports_arguments] are, in order, the pairs of the
    scan, each group holding the arguments of its pair: a pair when a host
    meets a pending port or a port a pending host, the pending one alone when
    a second of its kind arrives, and what is still pending alone at the end.
    Otherwise it throws.  The same holds after a connection string, for the
    arguments that may be used beside one, with the groups of the connection
    string first.  The three vectors of the specification give the groups and
    pairs it lists. *)
Theorem C3_host_port_pairing :
  (∀ program args common external groups,
     (∀ first, head args = Some first → tryParseConnectionString first = Returns None) →
     match tokens_of false args with
     | Some tokens =>
         ∃ r new,
           Client.readArguments (program :: args) common external groups = Returns r
           ∧ Client.hosts_and_ports_arguments r = groups ++ new
           ∧ Forall2 stands_for new (pair_tokens None None tokens)
     | None =>
         ∃ e, Client.readArguments (program :: args) common external groups = Throws e
     end)
  ∧ (∀ program connection_string args common external groups from_string hosts_from_string,
       tryParseConnectionString connection_string
       = Returns (Some (from_string, hosts_from_string)) →
       Forall (λ arg, checkIfCmdLineOptionCanBeUsedWithConnectionString arg = Returns ())
         args →
       match tokens_of false args with
       | Some tokens =>
           ∃ r new,
             Client.readArguments (program :: connection_string :: args) common external
               groups = Returns r
             ∧ Client.hosts_and_ports_arguments r = (groups ++ hosts_from_string) ++ new
             ∧ Forall2 stands_for new (pair_tokens None None tokens)
       | None =>
           ∃ e, Client.readArguments (program :: connection_string :: args) common external
                  groups = Throws e
       end)
  ∧ (∀ program args common external groups r,
       Client.readArguments (program :: args) common external groups = Returns r →
       ∃ parsed tokens new,
         match args with
         | first :: _ => tryParseConnectionString first
         | [] => Returns None
         end = Returns parsed
         ∧ tokens_of false match parsed with Some _ => tail args | None => args end
           = Some tokens
         ∧ Client.hosts_and_ports_arguments r = (groups ++ (default ([], []) parsed).2) ++ new
         ∧ Forall2 stands_for new (pair_tokens None None tokens))
  ∧ (∀ program h1 p1 h2 common external,
       tryParseConnectionString "--host" = Returns None →
       ∃ r, Client.readArguments [program; "--host"; h1; "--port"; p1; "--host"; h2]
              common external [] = Returns r
            ∧ Client.hosts_and_ports_arguments r
              = [["--port=" +:+ p1; "--host=" +:+ h1]; ["--host=" +:+ h2]]
            ∧ map pair_of_group (Client.hosts_and_ports_arguments r)
              = [(Some h1, Some p1); (Some h2, None)])
  ∧ (∀ program h1 p1 common external,
       tryParseConnectionString "--port" = Returns None →
       ∃ r, Client.readArguments [program; "--port"; p1; "--host"; h1]
              common external [] = Returns r
            ∧ Client.hosts_and_ports_arguments r = [["--host=" +:+ h1; "--port=" +:+ p1]]
            ∧ map pair_of_group (Client.hosts_and_ports_arguments r)
              = [(Some h1, Some p1)])
  ∧ (∀ program h1 h2 common external,
       tryParseConnectionString "--host" = Returns None →
       ∃ r, Client.readArguments [program; "--host"; h1; "--host"; h2]
              common external [] = Returns r
            ∧ Client.hosts_and_ports_arguments r = [["--host=" +:+ h1]; ["--host=" +:+ h2]]
            ∧ map pair_of_group (Client.hosts_and_ports_arguments r)
              = [(Some h1, None); (Some h2, None)]).
Proof.
  assert (Hscan : ∀ args common external groups,
            paired (Client.mkReading common external groups ∅ false false false "" "")
              None None (tokens_of false args)
              (Client.scan_arguments false args
                 (Client.mkReading common external groups ∅ false false false "" ""))).
  { intros args common external groups.
    by apply (scan_tokens (length args) args
                (Client.mkReading common external groups ∅ false false false "" "")). }
  split; [|split; [|split; [|split; [|split]]]].
  - intros program args common external groups Hplain.
    rewrite (readArguments_scan _ _ _ _ _ Hplain).
    specialize (Hscan args common external groups). unfold paired in Hscan.
    destruct (tokens_of false args) as [tokens|].
    + destruct Hscan as (r & new & -> & Hgroups & Hpairs). by exists (Client.flush_pending r), new.
    + destruct Hscan as (e & ->). by exists e.
  - intros program connection_string args common external groups from_string
      hosts_from_string Hparsed Hchecked.
    unfold Client.readArguments. rewrite Hparsed. simpl. rewrite drop_0.
    rewrite (scan_arguments_checked (length args)) by done.
    specialize (Hscan args (common ++ from_string) external (groups ++ hosts_from_string)).
    unfold paired in Hscan.
    destruct (tokens_of false args) as [tokens|].
    + destruct Hscan as (r & new & -> & Hgroups & Hpairs). by exists (Client.flush_pending r), new.
    + destruct Hscan as (e & ->). by exists e.
  - intros program args common external groups r. unfold Client.readArguments.
    assert (Hreturned : ∀ has_connection_string scanned common' groups',
              (r' ← Client.scan_arguments has_connection_string scanned
                      (Client.mkReading common' external groups' ∅ false false false "" "");
               Returns (Client.flush_pending r')) = Returns r →
              ∃ tokens new,
                tokens_of false scanned = Some tokens
                ∧ Client.hosts_and_ports_arguments r = groups' ++ new
                ∧ Forall2 stands_for new (pair_tokens None None tokens)).
    { intros has_connection_string scanned common' groups' Hresult.
      destruct (Client.scan_arguments has_connection_string scanned _) as [r1|e] eqn:Hscanned;
        cbn [mbind Exceptional_bind] in Hresult; [|discriminate].
      injection Hresult as <-.
      assert (Hplain : Client.scan_arguments false scanned
                         (Client.mkReading common' external groups' ∅ false false false "" "")
                       = Returns r1).
      { destruct has_connection_string; [|done].
        by apply (scan_arguments_unchecked (length scanned)). }
      specialize (Hscan scanned common' external groups'). unfold paired in Hscan.
      rewrite Hplain in Hscan.
      destruct (tokens_of false scanned) as [tokens|]; [|by destruct Hscan].
      destruct Hscan as (r' & new & [= <-] & Hgroups & Hpairs). by exists tokens, new. }
    destruct args as [|first rest].
    + cbn [mbind Exceptional_bind bool_decide decide_rel is_Some_dec default from_option id].
      intros Hresult.
      destruct (Hreturned false [] _ _ Hresult) as (tokens & new & Htokens & Hgroups & Hpairs).
      exists None, tokens, new. rewrite app_nil_r in Hgroups. simpl. by rewrite app_nil_r.
    + destruct (tryParseConnectionString first) as [[[from_string hosts_from_string]|]|e];
        cbn [mbind Exceptional_bind]; [| |discriminate].
      * simpl. rewrite drop_0. intros Hresult.
        destruct (Hreturned true rest _ _ Hresult)
          as (tokens & new & Htokens & Hgroups & Hpairs).
        by exists (Some (from_string, hosts_from_string)), tokens, new.
      * simpl. intros Hresult.
        destruct (Hreturned false (first :: rest) _ _ Hresult)
          as (tokens & new & Htokens & Hgroups & Hpairs).
        exists None, tokens, new. rewrite app_nil_r in Hgroups.
        cbn [default from_option id snd]. by rewrite app_nil_r.
  - intros program h1 p1 h2 common external Hplain.
    rewrite readArguments_scan by (by intros first [= <-]).
    eexists. split; [reflexivity|]. evaluate_groups.
    by rewrite pair_of_port_host, pair_of_host.
  - intros program h1 p1 common external Hplain.
    rewrite readArguments_scan by (by intros first [= <-]).
    eexists. split; [reflexivity|]. evaluate_groups.
    by rewrite pair_of_host_port.
  - intros program h1 h2 common external Hplain.
    rewrite readArguments_scan by (by intros first [= <-]).
    eexists. split; [reflexivity|]. evaluate_groups.
    by rewrite !pair_of_host.
Qed.

End Tokenizer.

Section TokenizerRun.
#[local] Existing Instance Reference.error_codes.
#[local] Existing Instance Reference.defines.
#[local] Existing Instance Reference.connection_string.
Import TokenizerSpec PairingSpec.

(** A query, a host, an external table, a port, a host with its value
    attached, a parameter, and another external table, whose structure is
    [--port]. *)
Lemma C3_host_port_pairing_witness :
  (∀ first, head Reference.busy_arguments = Some first →
            tryParseConnectionString first = Returns None)
  ∧ ∃ r new,
      Client.readArguments ("clickhouse-client" :: Reference.busy_arguments) [""] [] []
      = Returns r
      ∧ Client.hosts_and_ports_arguments r = [] ++ new
      ∧ Forall2 stands_for new
          (pair_tokens None None
             [HostToken "--host=h1"; PortToken "--port=9000"; HostToken "-hh2"]).
Proof.
  assert (Hplain : ∀ first, head Reference.busy_arguments = Some first →
                            tryParseConnectionString first = Returns None)
    by (intros first [= <-]; reflexivity).
  split; [exact Hplain|].
  exact (proj1 C3_host_port_pairing "clickhouse-client" Reference.busy_arguments [""] [] []
           Hplain).
Defined.

(** The same vector, evaluated. *)
Example pairing_run :
  (r ← Client.readArguments ("clickhouse-client" :: Reference.busy_arguments) [""] [] [];
   Returns (Client.common_arguments r, Client.external_tables_arguments r,
            Client.hosts_and_ports_arguments r))
  = Returns ([""; "--query"; "select 1"],
             [[""; "--file=data.tsv"; "--name"; "t"]; [""; "--structure"; "--port"]],
             [["--port=9000"; "--host=h1"]; ["-hh2"]]).
Proof. vm_compute; reflexivity. Qed.

End TokenizerRun.

(** ** Profile substitution *)

Section ProfileSubstitution.
Context `{ErrorCodes} `{ConfigSyntax} `{Terminal}.
Context {C : Type} `{ConfigurationLaws C}.
Import ProfileSpec.

Lemma if_has_getRaw entry statement (config : C) k :
  (∀ c, getRaw (statement c) k = getRaw c k) →
  getRaw (Client.if_has entry statement config) k = getRaw config k.
Proof. intros Hframe. unfold Client.if_has. by destruct (has config entry). Qed.

Lemma if_has_idle entry statement (config : C) :
  has config entry = false → Client.if_has entry statement config = config.
Proof. intros Habsent. unfold Client.if_has. by rewrite Habsent. Qed.

Lemma setString_getRaw key value (config : C) k :
  key ≠ k → getRaw (setString key value config) k = getRaw config k.
Proof. apply getRaw_setRaw_ne. Qed.

Lemma outside_overlay_keys k :
  k ∉ overlay_keys →
  "host" ≠ k ∧ "port" ≠ k ∧ "secure" ≠ k ∧ "no-secure" ≠ k ∧ "user" ≠ k ∧ "password" ≠ k
  ∧ "database" ≠ k ∧ "history_file" ≠ k ∧ "history_max_entries" ≠ k
  ∧ "accept-invalid-certificate" ≠ k ∧ "prompt" ≠ k.
Proof.
  unfold overlay_keys. rewrite !not_elem_of_cons. intros Hk.
  repeat split; intros <-; tauto.
Qed.

Lemma entry_outside key field : entry key field ∉ overlay_keys.
Proof.
  unfold overlay_keys, entry. rewrite !not_elem_of_cons.
  repeat split; try apply not_elem_of_nil; intros Heq; vm_compute in Heq; discriminate.
Qed.

(** One written key is not the key looked at. *)
Ltac other_key := first [assumption | congruence | done].

(** A statement of the loop body leaves the key looked at alone. *)
Ltac statement_frame :=
  let c := fresh "c" in
  intros c; cbv beta zeta;
  unfold setString, setInt, setUInt, setBool;
  repeat match goal with
         | |- context [if ?b then _ else _] => destruct b
         end;
  apply getRaw_setRaw_ne; other_key.

(** The key looked at is read through the statements that leave it alone. *)
Ltac through_statements :=
  repeat first
    [ rewrite if_has_getRaw by statement_frame
    | rewrite setString_getRaw by other_key ].

Lemma overlay_profile_frame cl prefix name (config : C) k :
  k ∉ overlay_keys →
  getRaw (Client.overlay_profile cl prefix name config) k = getRaw config k.
Proof.
  intros Hk. destruct (outside_overlay_keys k Hk) as (?&?&?&?&?&?&?&?&?&?&?).
  unfold Client.overlay_profile. cbv zeta. through_statements. reflexivity.
Qed.

(** The entries of a profile are not among the keys written. *)
Lemma profile_entry_outside key suffix :
  ("connections_credentials." +:+ key) +:+ suffix ∉ overlay_keys.
Proof.
  unfold overlay_keys. rewrite !not_elem_of_cons.
  repeat split; try apply not_elem_of_nil; intros Heq; vm_compute in Heq; discriminate.
Qed.

Lemma overlay_profile_has cl prefix name (config : C) key suffix :
  has (Client.overlay_profile cl prefix name config)
    (("connections_credentials." +:+ key) +:+ suffix)
  = has config (("connections_credentials." +:+ key) +:+ suffix).
Proof.
  unfold has. by rewrite overlay_profile_frame by apply profile_entry_outside.
Qed.

(** The statement guarded by the entry [suffix] is idle when the profile
    lacks that entry. *)
Ltac idle_statement key suffix Habsent :=
  let Hfacts := fresh "Hfacts" in
  pose proof (outside_overlay_keys _ (profile_entry_outside key suffix)) as Hfacts;
  destruct Hfacts as (?&?&?&?&?&?&?&?&?&?&?);
  rewrite (if_has_idle (("connections_credentials." +:+ key) +:+ suffix));
  [| unfold has; through_statements; exact Habsent ].

Lemma overlay_profile_keeps cl key name (config : C) field target :
  (field, target) ∈ guarded_overlays →
  has config (entry key field) = false →
  getRaw (Client.overlay_profile cl ("connections_credentials." +:+ key) name config) target
  = getRaw config target.
Proof.
  intros Hin Habsent. unfold guarded_overlays in Hin.
  unfold has, entry in Habsent.
  repeat (apply elem_of_cons in Hin as [[= -> ->]|Hin]);
    [..|by apply elem_of_nil in Hin];
    unfold Client.overlay_profile; cbv zeta.
  - idle_statement key ".port" Habsent. through_statements. reflexivity.
  - idle_statement key ".secure" Habsent. through_statements. reflexivity.
  - idle_statement key ".secure" Habsent. through_statements. reflexivity.
  - idle_statement key ".user" Habsent. through_statements. reflexivity.
  - idle_statement key ".password" Habsent. through_statements. reflexivity.
  - idle_statement key ".database" Habsent. through_statements. reflexivity.
  - idle_statement key ".history_file" Habsent. through_statements. reflexivity.
  - idle_statement key ".history_max_entries" Habsent. through_statements. reflexivity.
  - idle_statement key ".accept-invalid-certificate" Habsent. through_statements. reflexivity.
  - idle_statement key ".prompt" Habsent. through_statements. reflexivity.
Qed.

(** The first statement sets [host], and no later one writes it. *)
Lemma overlay_profile_host cl prefix name (config : C) :
  getRaw (Client.overlay_profile cl prefix name config) "host"
  = Some (if has config (prefix +:+ ".hostname")
          then getString1 config (prefix +:+ ".hostname") else name).
Proof.
  unfold Client.overlay_profile. cbv zeta. through_statements.
  apply getRaw_setRaw_eq.
Qed.

Lemma scan_profiles_frame cl connection keys_ : ∀ (config : C) found,
  agree_outside config (Client.scan_profiles cl connection keys_ config found).1.
Proof.
  induction keys_ as [|key keys_ IH]; intros config found k Hk; simpl; [done|].
  destruct (negb _); rewrite IH by done; [done|].
  by apply overlay_profile_frame.
Qed.

Lemma agree_outside_has (config current : C) key suffix :
  agree_outside config current →
  has current (("connections_credentials." +:+ key) +:+ suffix)
  = has config (("connections_credentials." +:+ key) +:+ suffix).
Proof.
  intros Hagree. unfold has. by rewrite Hagree by apply profile_entry_outside.
Qed.

Lemma agree_outside_name (config current : C) key :
  agree_outside config current →
  getString current (("connections_credentials." +:+ key) +:+ ".name") ""
  = getString config (entry key "name") "".
Proof.
  intros Hagree. unfold getString, entry.
  by rewrite Hagree by apply profile_entry_outside.
Qed.

Lemma agree_outside_overlay cl prefix name (config current : C) :
  agree_outside config current →
  agree_outside config (Client.overlay_profile cl prefix name current).
Proof.
  intros Hagree k Hk. by rewrite overlay_profile_frame, Hagree.
Qed.

(** A key overlaid by an entry that no profile for the connection has is
    left as it is. *)
Lemma scan_profiles_keeps cl connection (config : C) field target keys_ :
  ∀ current found,
  (field, target) ∈ guarded_overlays →
  agree_outside config current →
  (∀ key, key ∈ keys_ → matching config connection key →
          has config (entry key field) = false) →
  getRaw (Client.scan_profiles cl connection keys_ current found).1 target
  = getRaw current target.
Proof.
  induction keys_ as [|key keys_ IH]; intros current found Hin Hagree Habsent; simpl;
    [done|].
  rewrite (agree_outside_name config current key Hagree).
  destruct (String.eqb _ connection) eqn:Hname; simpl.
  - apply String.eqb_eq in Hname.
    rewrite IH; [|done|by apply agree_outside_overlay|].
    + apply (overlay_profile_keeps _ _ _ _ field target); [done|].
      unfold entry. rewrite (agree_outside_has config current key _ Hagree).
      apply Habsent; [by left|done].
    + intros key' Hkey'. apply Habsent. by right.
  - apply IH; [done..|]. intros key' Hkey'. apply Habsent. by right.
Qed.

(** Without a profile for the connection the configuration is returned as
    it is. *)
Lemma scan_profiles_none cl connection (config : C) keys_ : ∀ current found,
  agree_outside config current →
  (∀ key, key ∈ keys_ → ¬ matching config connection key) →
  Client.scan_profiles cl connection keys_ current found = (current, found).
Proof.
  induction keys_ as [|key keys_ IH]; intros current found Hagree Hnone; simpl; [done|].
  rewrite (agree_outside_name config current key Hagree).
  destruct (String.eqb _ connection) eqn:Hname; simpl.
  - apply String.eqb_eq in Hname. exfalso. by apply (Hnone key); [left|].
  - apply IH; [done|]. intros key' Hkey'. apply Hnone. by right.
Qed.

(** The last profile for the connection decides the host. *)
Lemma scan_profiles_host cl connection (config : C) before key after : ∀ current found,
  agree_outside config current →
  matching config connection key →
  Forall (λ later, ¬ matching config connection later) after →
  getRaw (Client.scan_profiles cl connection (before ++ key :: after) current found).1 "host"
  = Some (if has config (entry key "hostname")
          then getString1 config (entry key "hostname") else connection).
Proof.
  induction before as [|first before IH]; intros current found Hagree Hkey Hafter; simpl.
  - rewrite (agree_outside_name config current key Hagree).
    unfold matching in Hkey. rewrite Hkey, String.eqb_refl. simpl.
    rewrite (scan_profiles_none cl connection config after);
      [|by apply agree_outside_overlay|by intros later ?%(proj1 (Forall_forall _ _) Hafter)].
    simpl. rewrite overlay_profile_host.
    rewrite (agree_outside_has config current key ".hostname" Hagree).
    unfold getString1, getString, entry.
    by rewrite (Hagree _ (profile_entry_outside key ".hostname")).
  - destruct (negb _); apply IH; try done. by apply agree_outside_overlay.
Qed.

Lemma agree_outside_refl (config : C) : agree_outside config config.
Proof. by intros k _. Qed.

(** C6, amended: profile substitution leaves every key other than host,
    port, secure, no-secure, user, password, database, history_file,
    history_max_entries, accept-invalid-certificate and prompt as it is; each
    of these keys except host is left as it is unless a profile for the
    connection has the entry that overlays it; host is left as it is when no
    profile is for the connection, and is otherwise set from the last such
    profile, to its hostname or, when it has none, to its name. *)
Theorem C6_profile_substitution (cl : Client.t) (config : C) connection_name config' :
  Client.parseConnectionsCredentials cl config connection_name = Returns config' →
  respects guarded_overlays cl config connection_name config'
  ∧ host_rule cl config connection_name config'.
Proof.
  unfold Client.parseConnectionsCredentials, respects, host_rule.
  set (connection := Client.connection_to_use cl config connection_name).
  set (keys_ := keys config "connections_credentials").
  intros Hparse.
  destruct (Client.scan_profiles cl connection keys_ config false) as [scanned found] eqn:Hscan.
  destruct (_ && _); [discriminate|]. injection Hparse as <-.
  assert (Hscanned : scanned = (Client.scan_profiles cl connection keys_ config false).1)
    by (by rewrite Hscan).
  repeat split.
  - intros k Hk. rewrite Hscanned. by apply scan_profiles_frame.
  - intros field target Hin Habsent. rewrite Hscanned.
    apply (scan_profiles_keeps cl connection config field target); [done| |done].
    apply agree_outside_refl.
  - intros Hnone k. rewrite Hscanned.
    rewrite (scan_profiles_none cl connection config keys_); [done| |done].
    apply agree_outside_refl.
  - intros before key after Hkeys Hkey Hafter. rewrite Hscanned. fold keys_ in Hkeys.
    rewrite Hkeys. apply scan_profiles_host; [|done..]. apply agree_outside_refl.
Qed.

End ProfileSubstitution.

Section ProfileSubstitutionRun.
#[local] Existing Instance Reference.error_codes.
#[local] Existing Instance Reference.syntax.
#[local] Existing Instance Reference.terminal.
Import ProfileSpec.

(** [--connection prod] with a config file whose profile [prod] names a
    user and nothing else. *)
Lemma C6_profile_substitution_witness :
  ∃ config',
    Client.parseConnectionsCredentials Reference.no_host Reference.profile_document "prod"
    = Returns config'
    ∧ respects guarded_overlays Reference.no_host Reference.profile_document "prod" config'
    ∧ host_rule Reference.no_host Reference.profile_document "prod" config'.
Proof.
  destruct (Client.parseConnectionsCredentials Reference.no_host Reference.profile_document
              "prod") as [config'|e] eqn:Hparse; [|vm_compute in Hparse; discriminate].
  exists config'. split; [reflexivity|].
  exact (C6_profile_substitution Reference.no_host Reference.profile_document "prod" config'
           Hparse).
Defined.

(** C6 as stated fails: the profile [prod] has no [hostname], and yet the
    substitution replaces the [host] of the config file, [db.internal], by
    the name of the profile. *)
Lemma C6_host_overwritten_without_hostname : ¬ claim_as_stated.
Proof.
  intros Hclaim.
  destruct (Client.parseConnectionsCredentials Reference.no_host Reference.profile_document
              "prod") as [config'|e] eqn:Hparse; [|vm_compute in Hparse; discriminate].
  destruct (Hclaim MapConfiguration _ _ Reference.no_host Reference.profile_document "prod"
              config' Hparse) as [_ Hrespects].
  specialize (Hrespects "hostname" "host" ltac:(by left)).
  assert (Hhost : getRaw config' "host" = getRaw Reference.profile_document "host").
  { apply Hrespects. intros key Hkey _.
    apply list_elem_of_singleton in Hkey as ->. reflexivity. }
  vm_compute in Hparse. injection Hparse as <-.
  vm_compute in Hhost. discriminate.
Qed.

(** The run of the counterexample. *)
Example profile_run :
  (config' ← Client.parseConnectionsCredentials Reference.no_host Reference.profile_document
               "prod";
   Returns (getRaw config' "host", getRaw config' "user", getRaw config' "port"))
  = Returns (Some "prod", Some "alice", None).
Proof. vm_compute; reflexivity. Qed.

End ProfileSubstitutionRun.

(** ** Environment overrides *)

Section Precedence.
Context `{ErrorCodes} `{Defines} `{BuildOptions} `{Terminal} `{ConfigSyntax}
        `{Process} `{ClientBase} `{!Server} `{ExternalTables}.
Import PrecedenceSpec.

Lemma layered_getRaw (c : LayeredConfiguration) key :
  getRaw c key
  = match getRaw (application c) key with
    | Some value => Some value
    | None => first_raw (added c) key
    end.
Proof. reflexivity. Qed.

Lemma layered_has (c : LayeredConfiguration) key :
  has c key
  = match getRaw (application c) key with
    | Some _ => true
    | None => match first_raw (added c) key with Some _ => true | None => false end
    end.
Proof. unfold has. rewrite layered_getRaw. by destruct (getRaw (application c) key). Qed.

Lemma override_getRaw key variable (cl : Client.t) k :
  getRaw (Client.config (Client.override_from_environment key variable cl)) k
  = if decide (key = k)
    then match getRaw (Client.config cl) key with
         | Some value => Some value
         | None => getenv variable
         end
    else getRaw (Client.config cl) k.
Proof.
  unfold Client.override_from_environment.
  destruct (getenv variable) as [value|].
  - rewrite layered_has, (layered_getRaw _ key).
    destruct (getRaw (application (Client.config cl)) key) eqn:Happlication.
    { cbn [negb]. case_decide; [|done]. subst. by rewrite layered_getRaw, Happlication. }
    destruct (first_raw (added (Client.config cl)) key) eqn:Hfiles.
    { cbn [negb]. case_decide; [|done]. subst.
      by rewrite layered_getRaw, Happlication, Hfiles. }
    cbn [negb]. case_decide.
    + subst. apply (getRaw_setRaw_eq (C := LayeredConfiguration)).
    + by apply (getRaw_setRaw_ne (C := LayeredConfiguration)).
  - case_decide; [|done]. subst. by destruct (getRaw (Client.config cl) k).
Qed.

Lemma override_added key variable (cl : Client.t) :
  added (Client.config (Client.override_from_environment key variable cl))
  = added (Client.config cl).
Proof.
  unfold Client.override_from_environment.
  destruct (getenv variable); [|done]. by destruct (negb _).
Qed.

(** What [initialize] leaves under [user] and [password]: the value of the
    application layer as it was, else the value of the layers added, else
    the environment variable. *)
Lemma initialize_precedence (cl cl' : Client.t) key variable :
  (key, variable) ∈ credentials_from_environment →
  Client.initialize cl = (Returns (), cl') →
  getRaw (Client.config cl') key
  = match flag cl key with
    | Some value => Some value
    | None =>
        match from_files cl' key with
        | Some value => Some value
        | None => getenv variable
        end
    end.
Proof.
  intros Hin. unfold Client.initialize, flag, from_files.
  set (cl0 := match getenv "HOME" with Some _ => _ | None => cl end).
  assert (Hconfig0 : Client.config cl0 = Client.config cl)
    by (unfold cl0; by destruct (getenv "HOME")).
  destruct (match (if has (Client.config cl0) "config-file" then _ else _) with
            | Some _ => _ | None => _ end) as [cl1|e] eqn:Hloaded; [|discriminate].
  assert (Happlication : application (Client.config cl1) = application (Client.config cl)).
  { destruct (if has (Client.config cl0) "config-file" then _ else _) as [path|].
    - destruct (loadConfig path) as [loaded|e]; simpl in Hloaded; [|discriminate].
      destruct (Client.parseConnectionsCredentials _ _ _) as [configuration|e];
        simpl in Hloaded; [|discriminate].
      injection Hloaded as <-. simpl. by rewrite Hconfig0.
    - destruct (has _ "connection"); [discriminate|]. injection Hloaded as <-.
      by rewrite Hconfig0. }
  clear Hloaded. intros [= <-].
  set (cl2 := if has (Client.config cl1) "accept-invalid-certificate" then _ else cl1).
  assert (Hraw2 : ∀ k, k = "user" ∨ k = "password" →
                       getRaw (Client.config cl2) k = getRaw (Client.config cl1) k).
  { intros k Hk. unfold cl2. destruct (has _ "accept-invalid-certificate"); [|done].
    simpl. rewrite !lookup_insert_ne; [done|..]; destruct Hk as [-> | ->]; done. }
  assert (Hadded2 : added (Client.config cl2) = added (Client.config cl1)).
  { unfold cl2. by destruct (has _ "accept-invalid-certificate"). }
  rewrite !override_added, Hadded2.
  unfold credentials_from_environment in Hin.
  apply elem_of_cons in Hin as [[= -> ->]|Hin];
    [|apply list_elem_of_singleton in Hin as [= -> ->]].
  - rewrite override_getRaw. case_decide; [done|].
    rewrite override_getRaw. case_decide; [|done].
    rewrite Hraw2 by (by left). rewrite layered_getRaw, Happlication.
    destruct (getRaw (application (Client.config cl)) "user"); [done|].
    by destruct (first_raw _ "user").
  - rewrite override_getRaw. case_decide; [|done].
    rewrite override_getRaw. case_decide; [done|].
    rewrite Hraw2 by (by right). rewrite layered_getRaw, Happlication.
    destruct (getRaw (application (Client.config cl)) "password"); [done|].
    by destruct (first_raw _ "password").
Qed.

Lemma flag_written key value (cl : Client.t) k :
  flag (Client.with_config (setRaw key value) cl) k
  = if decide (key = k) then Some value else flag cl k.
Proof.
  unfold flag. simpl. case_decide.
  - subst. apply lookup_insert_eq.
  - by apply lookup_insert_ne.
Qed.

Lemma flag_set_if_given key value (cl : Client.t) k :
  flag (Client.set_if_given key value cl) k
  = match value with
    | Some v => if decide (key = k) then Some v else flag cl k
    | None => flag cl k
    end.
Proof. destruct value; [apply flag_written|done]. Qed.

Lemma flag_set_if_counted key counted (cl : Client.t) k :
  key ≠ k → flag (Client.set_if_counted key counted cl) k = flag cl k.
Proof.
  intros Hne. destruct counted; [|done]. simpl.
  unfold setBool. rewrite flag_written. by case_decide.
Qed.

Lemma flag_written_other key value (cl : Client.t) k :
  key ≠ k → flag (Client.with_config (setRaw key value) cl) k = flag cl k.
Proof. intros Hne. rewrite flag_written. by case_decide. Qed.

Lemma flag_set_if_given_other key value (cl : Client.t) k :
  key ≠ k → flag (Client.set_if_given key value cl) k = flag cl k.
Proof. intros Hne. rewrite flag_set_if_given. destruct value; [by case_decide|done]. Qed.

Lemma flag_with_max_client_network_bandwidth n (cl : Client.t) k :
  flag (Client.with_max_client_network_bandwidth n cl) k = flag cl k.
Proof. reflexivity. Qed.

(** The flag looked at is read through the writes of other keys. *)
Ltac through_writes :=
  unfold setString, setBool;
  repeat first
    [ rewrite flag_set_if_counted by done
    | rewrite flag_with_max_client_network_bandwidth
    | rewrite flag_written_other by done
    | rewrite flag_set_if_given_other by done ].

Lemma flag_certificate_handler options (cl : Client.t) k :
  k = "user" ∨ k = "password" →
  flag (Client.set_certificate_handler options cl) k = flag cl k.
Proof.
  intros Hk. unfold Client.set_certificate_handler.
  destruct (opt_accept_invalid_certificate options).
  - change (Client.with_config _ cl)
      with (Client.with_config (setRaw "openSSL.client.verificationMode" "none")
              (Client.with_config
                 (setRaw "openSSL.client.invalidCertificateHandler.name"
                    "AcceptCertificateHandler") cl)).
    destruct Hk as [-> | ->]; through_writes; reflexivity.
  - destruct Hk as [-> | ->]; through_writes; reflexivity.
Qed.

(** An explicit [--user] or [--password] is in the application layer once
    the options are written. *)
Lemma copy_options_flags options (cl cl1 : Client.t) :
  Client.copy_options options cl = (Returns (), cl1) →
  (∀ name, opt_user options = Some name → flag cl1 "user" = Some name)
  ∧ (∀ secret, opt_password options = Some secret → flag cl1 "password" = Some secret).
Proof.
  unfold Client.copy_options. destruct (_ && _); [discriminate|].
  set (given := Client.set_if_given "password" _ _).
  set (rest := if opt_fake_drop options then _ else _).
  assert (Hrest : ∀ k, k = "user" ∨ k = "password" → flag rest k = flag given k).
  { intros k Hk. unfold rest.
    destruct (opt_fake_drop options), (opt_compression options),
      (opt_max_client_network_bandwidth options), Hk as [-> | ->];
      through_writes; reflexivity. }
  assert (Huser : ∀ name, opt_user options = Some name → flag given "user" = Some name).
  { intros name Hname. unfold given. through_writes.
    rewrite flag_set_if_given, Hname. by case_decide. }
  assert (Hpassword : ∀ secret, opt_password options = Some secret →
                                flag given "password" = Some secret).
  { intros secret Hsecret. unfold given. rewrite flag_set_if_given, Hsecret. by case_decide. }
  destruct (opt_jwt options) as [token|].
  - destruct (bool_decide (is_Some (opt_user options))) eqn:Hexplicit; [discriminate|].
    intros [= <-]. split.
    + intros name Hname. apply bool_decide_eq_false in Hexplicit.
      exfalso. apply Hexplicit. by eexists.
    + intros secret Hsecret.
      rewrite flag_certificate_handler by (by right). through_writes.
      rewrite Hrest by (by right). by apply Hpassword.
  - intros [= <-]. split.
    + intros name Hname. rewrite flag_certificate_handler by (by left).
      rewrite Hrest by (by left). by apply Huser.
    + intros secret Hsecret. rewrite flag_certificate_handler by (by right).
      rewrite Hrest by (by right). by apply Hpassword.
Qed.

(** The history file of an interactive client: the configured one, else
    the one of the environment, else the one in the home directory. *)
Lemma processConfig_history (cl cl' : Client.t) :
  Client.processConfig cl = (Returns (), cl') →
  Client.is_interactive cl' || Client.delayed_interactive cl' = true →
  Client.history_file cl'
  = match getRaw (Client.config cl) "history_file" with
    | Some value => value
    | None =>
        match getenv "CLICKHOUSE_HISTORY_FILE" with
        | Some value => value
        | None =>
            if negb (Str.empty (home cl)) then home cl +:+ "/.clickhouse-client-history"
            else Client.history_file cl
        end
    end.
Proof.
  unfold Client.processConfig. destruct (_ && _); [discriminate|].
  set (delayed := has (Client.config cl) "interactive" && _).
  set (interactive := if stdin_is_a_tty && _ then true else Client.is_interactive cl).
  intros [= <-]. unfold home.
  destruct cl as [config hosts home_path history]; cbn in *.
  fold delayed. fold interactive.
  destruct (interactive || delayed) eqn:Hinteractive; [intros _|by cbn; rewrite Hinteractive].
  destruct (Str.empty home_path) eqn:Hhome.
  - destruct (getenv "HOME") as [home_path_cstr|]; cbn.
    + unfold has, getString1, getString. cbn.
      destruct (properties (application config) !! "history_file"); cbn; [done|].
      destruct (first_raw _ "history_file"); cbn; [done|].
      destruct (getenv "CLICKHOUSE_HISTORY_FILE"); cbn; [done|].
      by destruct (Str.empty home_path_cstr).
    + unfold has, getString1, getString. cbn.
      destruct (properties (application config) !! "history_file"); cbn; [done|].
      destruct (first_raw _ "history_file"); cbn; [done|].
      destruct (getenv "CLICKHOUSE_HISTORY_FILE"); cbn; [done|].
      by rewrite Hhome.
  - unfold has, getString1, getString. cbn.
    destruct (properties (application config) !! "history_file"); cbn; [done|].
    destruct (first_raw _ "history_file"); cbn; [done|].
    destruct (getenv "CLICKHOUSE_HISTORY_FILE"); cbn; [done|].
    by rewrite Hhome.
Qed.

(** C7, amended: an explicit [--user] or [--password] is the value of the
    application layer.  After [initialize] the user and the password are the
    value of the application layer, else the value of the config files, else
    the value of the environment variable: the variable counts only when
    neither the command line nor a config file gives the key.  The history
    file of an interactive client is the configured [history_file], of the
    command line or else of a config file, else the environment variable,
    else the file in the home directory. *)
Theorem C7_environment_precedence :
  (∀ options external_tables_arguments hosts_and_ports_arguments external_tables
     (cl cl1 : Client.t) tables,
     Client.processOptions options external_tables_arguments hosts_and_ports_arguments
       external_tables cl = Continues (tables, (Returns (), cl1)) →
     (∀ name, opt_user options = Some name → flag cl1 "user" = Some name)
     ∧ (∀ secret, opt_password options = Some secret → flag cl1 "password" = Some secret))
  ∧ (∀ (cl cl' : Client.t) key variable,
       (key, variable) ∈ credentials_from_environment →
       Client.initialize cl = (Returns (), cl') →
       getRaw (Client.config cl') key
       = match flag cl key with
         | Some value => Some value
         | None =>
             match from_files cl' key with
             | Some value => Some value
             | None => getenv variable
             end
         end)
  ∧ (∀ (cl cl' : Client.t),
       Client.processConfig cl = (Returns (), cl') →
       Client.is_interactive cl' || Client.delayed_interactive cl' = true →
       Client.history_file cl'
       = match flag cl "history_file" with
         | Some value => value
         | None =>
             match from_files cl "history_file" with
             | Some value => value
             | None =>
                 match getenv "CLICKHOUSE_HISTORY_FILE" with
                 | Some value => value
                 | None =>
                     if negb (Str.empty (home cl))
                     then home cl +:+ "/.clickhouse-client-history"
                     else Client.history_file cl
                 end
             end
         end).
Proof.
  split; [|split].
  - intros options external_tables_arguments hosts_and_ports_arguments external_tables cl cl1
      tables Hoptions.
    apply processOptions_continues in Hoptions as (_ & hosts_and_ports & _ & Hcopy).
    by apply (copy_options_flags options (Client.with_hosts_and_ports hosts_and_ports cl)).
  - apply initialize_precedence.
  - intros cl cl' Hconfig Hinteractive.
    rewrite (processConfig_history cl cl' Hconfig Hinteractive), layered_getRaw.
    unfold flag, from_files.
    destruct (getRaw (application (Client.config cl)) "history_file"); [done|].
    by destruct (first_raw _ "history_file").
Qed.

End Precedence.

Section PrecedenceRun.
#[local] Existing Instance Reference.error_codes.
#[local] Existing Instance Reference.defines.
#[local] Existing Instance Reference.build_options.
#[local] Existing Instance Reference.terminal.
#[local] Existing Instance Reference.syntax.
#[local] Existing Instance Reference.process_with_environment.
#[local] Existing Instance Reference.client_base.
#[local] Existing Instance Reference.server_first_down.
#[local] Existing Instance Reference.external_tables.
Import PrecedenceSpec.

(** [CLICKHOUSE_USER=from_env] with a config file whose user is
    [from_file], and no [--user]. *)
Lemma C7_environment_precedence_witness :
  (("user", "CLICKHOUSE_USER") ∈ credentials_from_environment
   ∧ Client.initialize Reference.no_host
     = (Returns (), (Client.initialize Reference.no_host).2))
  ∧ getRaw (Client.config (Client.initialize Reference.no_host).2) "user"
    = match flag Reference.no_host "user" with
      | Some value => Some value
      | None =>
          match from_files (Client.initialize Reference.no_host).2 "user" with
          | Some value => Some value
          | None => getenv "CLICKHOUSE_USER"
          end
      end.
Proof.
  assert (Hin : ("user", "CLICKHOUSE_USER") ∈ credentials_from_environment) by (by left).
  assert (Hinitialize : Client.initialize Reference.no_host
                        = (Returns (), (Client.initialize Reference.no_host).2))
    by (vm_compute; reflexivity).
  split; [by split|].
  exact (proj1 (proj2 C7_environment_precedence) Reference.no_host _ "user" "CLICKHOUSE_USER"
           Hin Hinitialize).
Defined.

(** C7 as stated fails: the config file names a user, and the user of the
    environment does not replace it. *)
Lemma C7_config_file_beats_environment : ¬ claim_as_stated.
Proof.
  intros [Hclaim _].
  assert (Hinitialize : Client.initialize Reference.no_host
                        = (Returns (), (Client.initialize Reference.no_host).2))
    by (vm_compute; reflexivity).
  specialize (Hclaim Reference.no_host _ "user" "CLICKHOUSE_USER" ltac:(by left) Hinitialize).
  vm_compute in Hclaim. discriminate.
Qed.

(** The run of the counterexample. *)
Example precedence_run :
  getenv "CLICKHOUSE_USER" = Some "from_env"
  ∧ flag Reference.no_host "user" = None
  ∧ getRaw (Client.config (Client.initialize Reference.no_host).2) "user" = Some "from_file".
Proof. repeat split; vm_compute; reflexivity. Qed.

End PrecedenceRun.

(** ** The other branches of the argument scan *)

Section Arguments.
Context `{ErrorCodes} `{Defines} `{ConnectionString}.
Import TokenizerSpec ArgumentsSpec.

Lemma host_seen_outside host_arg r :
  Client.in_external_group (Client.host_seen host_arg r) = Client.in_external_group r
  ∧ Client.external_tables_arguments (Client.host_seen host_arg r)
    = Client.external_tables_arguments r
  ∧ Client.common_arguments (Client.host_seen host_arg r) = Client.common_arguments r.
Proof.
  unfold Client.host_seen.
  destruct (negb (Str.empty (Client.prev_port_arg r))); [done|].
  by destruct (negb (Str.empty (Client.prev_host_arg r))).
Qed.

Lemma port_seen_outside port_arg r :
  Client.in_external_group (Client.port_seen port_arg r) = Client.in_external_group r
  ∧ Client.external_tables_arguments (Client.port_seen port_arg r)
    = Client.external_tables_arguments r
  ∧ Client.common_arguments (Client.port_seen port_arg r) = Client.common_arguments r.
Proof.
  unfold Client.port_seen.
  destruct (negb (Str.empty (Client.prev_host_arg r))); [done|].
  by destruct (negb (Str.empty (Client.prev_port_arg r))).
Qed.


(** The scan of a quiet token ends in a state that does not depend on the
    arguments after the token. *)
Lemma scan_quiet_token token r :
  quiet token = true →
  Client.in_external_group r = false →
  ∃ r', (∀ rest, Client.scan_arguments false (render token ++ rest) r
                 = Client.scan_arguments false rest r')
        ∧ Client.in_external_group r' = false
        ∧ Client.external_tables_arguments r' = Client.external_tables_arguments r.
Proof.
  intros Hquiet Hout. destruct token as [spelling h|joined p|arg].
  - eexists. split; [intros rest; by apply scan_host|].
    destruct (host_seen_outside ("--host=" +:+ h) (Client.leave_external_group r)) as (-> & -> & _).
    done.
  - eexists. split; [intros rest; by apply scan_port|].
    destruct (port_seen_outside ("--port=" +:+ p) (Client.leave_external_group r)) as (-> & -> & _).
    done.
  - unfold quiet, well_formed, plain in Hquiet.
    rewrite !andb_true_iff, !negb_true_iff in Hquiet.
    destruct Hquiet as (((((Hexternal & Honly) & Hparam) & Hhost) & Hport) & Hpassword).
    cbn [render app]. simpl.
    rewrite Hexternal, Hout, Honly, Hparam, Hhost, Hport, Hpassword. simpl.
    destruct (String.eqb arg "--allow_repeated_settings"); [by eexists|].
    destruct (String.eqb arg "--allow_merge_tree_settings"); by eexists.
Qed.

Lemma scan_quiet tokens : ∀ r,
  Forall (λ token, quiet token = true) tokens →
  Client.in_external_group r = false →
  ∃ r', (∀ rest, Client.scan_arguments false (render_all tokens ++ rest) r
                 = Client.scan_arguments false rest r')
        ∧ Client.in_external_group r' = false
        ∧ Client.external_tables_arguments r' = Client.external_tables_arguments r.
Proof.
  induction tokens as [|token tokens IH]; intros r Hquiet Hout.
  - by exists r.
  - inversion Hquiet as [|? ? Htoken Htokens]; subst.
    destruct (scan_quiet_token token r Htoken Hout) as (r1 & Hstep & Hout1 & Hext1).
    destruct (IH r1 Htokens Hout1) as (r2 & Hrest & Hout2 & Hext2).
    exists r2. split; [|split; [done|congruence]].
    intros rest.
    change (render_all (token :: tokens)) with (render token ++ render_all tokens).
    by rewrite <- app_assoc, Hstep, Hrest.
Qed.


Lemma param_flag introducer name :
  introducer = "--param_" ∨ introducer = "--param-" →
  String.eqb (introducer +:+ name) "--external" = false
  ∧ Client.external_only_option (introducer +:+ name) = false
  ∧ Str.starts_with (introducer +:+ name) "--param_"
    || Str.starts_with (introducer +:+ name) "--param-" = true
  ∧ Str.substr_from (String.length "--param_") (introducer +:+ name) = name.
Proof.
  intros [-> | ->]; (split; [reflexivity|]); (split; [reflexivity|]); split.
  - by rewrite starts_with_append.
  - apply (substr_from_append "--param_").
  - by rewrite starts_with_append, orb_true_r.
  - apply (substr_from_append "--param-").
Qed.

(** X1: a flag that takes its value from the next argument and is the last
    argument is rejected: after any quiet tokens, [--host], [-h], [--port]
    or a [--param_name] without an equal sign at the end of the argument
    vector makes [readArguments] throw [BAD_ARGUMENTS]. *)
Theorem flag_without_value_is_rejected program tokens flag common external groups :
  Forall (λ token, quiet token = true) tokens →
  (∀ first, head (render_all tokens ++ [flag]) = Some first →
            tryParseConnectionString first = Returns None) →
  flag = "--host" ∨ flag = "-h" ∨ flag = "--port"
  ∨ (∃ introducer name,
       (introducer = "--param_" ∨ introducer = "--param-")
       ∧ Str.find_first_of name "="%char = None
       ∧ flag = introducer +:+ name) →
  ∃ e, Client.readArguments (program :: render_all tokens ++ [flag]) common external groups
       = Throws e
       ∧ code e = BAD_ARGUMENTS.
Proof.
  intros Hquiet Hstring Hflag.
  rewrite (readArguments_scan _ _ _ _ _ Hstring).
  destruct (scan_quiet tokens (Client.mkReading common external groups ∅ false false false "" "")
              Hquiet eq_refl) as (r & -> & Hout & _).
  destruct Hflag as [-> | [-> | [-> | (introducer & name & Hintroducer & Hname & ->)]]].
  - simpl. rewrite Hout. simpl. by eexists.
  - simpl. rewrite Hout. simpl. by eexists.
  - simpl. rewrite Hout. simpl. by eexists.
  - destruct (param_flag introducer name Hintroducer) as (Hexternal & Honly & Hparam & Hrest).
    cbn [Client.scan_arguments mbind Exceptional_bind].
    rewrite Hexternal, Hout, Honly, Hparam, Hrest, Hname. simpl. by eexists.
Qed.


Lemma find_first_of_append name value :
  Str.find_first_of name "="%char = None →
  Str.find_first_of (name +:+ "=" +:+ value) "="%char = Some (String.length name).
Proof.
  induction name as [|c name IH]; intros Hnone; [done|].
  change (String c name +:+ "=" +:+ value) with (String c (name +:+ "=" +:+ value)).
  simpl in *. destruct (Ascii.eqb c "="); [done|].
  destruct (Str.find_first_of name "=") eqn:Hname; [done|]. by rewrite IH.
Qed.

Lemma substring_append name rest :
  String.substring 0 (String.length name) (name +:+ rest) = name.
Proof.
  induction name as [|c name IH]; [by destruct rest|].
  change (String c name +:+ rest) with (String c (name +:+ rest)). simpl. by rewrite IH.
Qed.

Lemma substr_from_value name value :
  Str.substr_from (String.length name + 1) (name +:+ "=" +:+ value) = value.
Proof.
  induction name as [|c name IH]; [done|].
  change (String c name +:+ "=" +:+ value) with (String c (name +:+ "=" +:+ value)).
  simpl. exact IH.
Qed.

Lemma scan_param_joined introducer name value rest r :
  introducer = "--param_" ∨ introducer = "--param-" →
  name ≠ "" → Str.find_first_of name "="%char = None →
  Client.in_external_group r = false →
  Client.scan_arguments false (param_joined introducer name value ++ rest) r
  = Client.scan_arguments false rest
      (Client.emplace_parameter name value (Client.leave_external_group r)).
Proof.
  intros Hintroducer Hname Hnone Hout.
  destruct (param_flag introducer (name +:+ "=" +:+ value) Hintroducer)
    as (Hexternal & Honly & Hparam & Hrest).
  unfold param_joined. cbn [app Client.scan_arguments mbind Exceptional_bind].
  rewrite Hexternal, Hout, Honly, Hparam, Hrest, (find_first_of_append _ _ Hnone).
  cbn [andb]. destruct name as [|c name]; [done|].
  change (String.length (String c name) =? 0)%nat with false. cbv iota.
  by rewrite substring_append, substr_from_value.
Qed.

Lemma scan_param_spaced introducer name value rest r :
  introducer = "--param_" ∨ introducer = "--param-" →
  Str.find_first_of name "="%char = None →
  Client.in_external_group r = false →
  Client.scan_arguments false (param_spaced introducer name value ++ rest) r
  = Client.scan_arguments false rest
      (Client.emplace_parameter name value (Client.leave_external_group r)).
Proof.
  intros Hintroducer Hnone Hout.
  destruct (param_flag introducer name Hintroducer) as (Hexternal & Honly & Hparam & Hrest).
  unfold param_spaced. cbn [app Client.scan_arguments mbind Exceptional_bind].
  by rewrite Hexternal, Hout, Honly, Hparam, Hrest, Hnone.
Qed.

(** X2: the two spellings of a query parameter are read alike: with a
    non-empty name without an equal sign, [--param_name=value] and
    [--param_name value] (and the same with [--param-]) give the same result
    of [readArguments], whatever quiet tokens come before and whatever
    arguments follow; alone, they define the parameter [name] as [value] and
    add nothing to the common arguments. *)
Theorem parameter_spellings_agree program tokens introducer name value after common external
    groups :
  Forall (λ token, quiet token = true) tokens →
  introducer = "--param_" ∨ introducer = "--param-" →
  name ≠ "" → Str.find_first_of name "="%char = None →
  (∀ first, head (render_all tokens ++ param_joined introducer name value ++ after) = Some first
            ∨ head (render_all tokens ++ param_spaced introducer name value ++ after)
              = Some first →
            tryParseConnectionString first = Returns None) →
  Client.readArguments (program :: render_all tokens ++ param_joined introducer name value ++ after)
    common external groups
  = Client.readArguments
      (program :: render_all tokens ++ param_spaced introducer name value ++ after)
      common external groups
  ∧ (tokens = [] → after = [] →
     ∃ r, Client.readArguments (program :: param_joined introducer name value)
            common external groups = Returns r
          ∧ Client.query_parameters r = {[ name := value ]}
          ∧ Client.common_arguments r = common).
Proof.
  intros Hquiet Hintroducer Hname Hnone Hstring.
  rewrite !readArguments_scan by (intros first Hfirst; apply Hstring; auto).
  destruct (scan_quiet tokens (Client.mkReading common external groups ∅ false false false "" "")
              Hquiet eq_refl) as (r & Hscan & Hout & _).
  rewrite !Hscan, scan_param_joined, scan_param_spaced by done.
  split; [done|]. intros -> ->.
  rewrite readArguments_scan by (intros first Hfirst; apply Hstring; auto).
  rewrite <- (app_nil_r (param_joined _ _ _)), scan_param_joined by done.
  eexists. split; [reflexivity|]. done.
Qed.


Lemma scan_passed_on arg rest r :
  passed_on arg = true →
  Client.in_external_group r = false →
  Client.scan_arguments false (arg :: rest) r
  = Client.scan_arguments false rest (Client.push_common arg (Client.leave_external_group r)).
Proof.
  unfold passed_on, plain. rewrite !andb_true_iff, !negb_true_iff.
  intros (((((((Hexternal & Honly) & Hparam) & Hhost) & Hport) & Hpassword) & Hrepeated)
          & Hmerge) Hout.
  simpl. by rewrite Hexternal, Hout, Honly, Hparam, Hhost, Hport, Hpassword, Hrepeated, Hmerge.
Qed.

Lemma scan_password following r :
  Client.in_external_group r = false →
  Client.scan_arguments false ("--password" :: following) r
  = Client.scan_arguments false following
      (if match following with
          | [] => true
          | next :: _ => Str.starts_with next "-"
          end
       then Client.push_common ASK_PASSWORD
              (Client.push_common "--password" (Client.leave_external_group r))
       else Client.push_common "--password" (Client.leave_external_group r)).
Proof.
  intros Hout. simpl. rewrite Hout. simpl.
  by destruct (match following with [] => true | next :: _ => Str.starts_with next "-" end).
Qed.

(** X3: [--password] as the last argument, or followed by an argument
    that starts with a dash, is read as [--password ASK_PASSWORD]: the
    result of [readArguments] is the same as with the sentinel written out,
    and the next argument is not taken as the password.  [ASK_PASSWORD] is
    assumed to be an argument that is passed on and does not start with a
    dash, as the newline it is. *)
Theorem password_without_value program tokens rest common external groups :
  Forall (λ token, quiet token = true) tokens →
  passed_on ASK_PASSWORD = true →
  Str.starts_with ASK_PASSWORD "-" = false →
  rest = [] ∨ (∃ next later, rest = next :: later ∧ Str.starts_with next "-" = true) →
  (∀ first, head (render_all tokens ++ ["--password"]) = Some first →
            tryParseConnectionString first = Returns None) →
  Client.readArguments (program :: render_all tokens ++ "--password" :: rest)
    common external groups
  = Client.readArguments (program :: render_all tokens ++ "--password" :: ASK_PASSWORD :: rest)
      common external groups
  ∧ (tokens = [] → rest = [] →
     ∃ r, Client.readArguments [program; "--password"] common external groups = Returns r
          ∧ Client.common_arguments r = common ++ ["--password"; ASK_PASSWORD]).
Proof.
  intros Hquiet Hpassed Hdash Hrest Hstring.
  assert (Hfirst : ∀ more first,
            head (render_all tokens ++ "--password" :: more) = Some first →
            tryParseConnectionString first = Returns None).
  { intros more first Hhead. apply Hstring. by destruct (render_all tokens). }
  rewrite !readArguments_scan by apply Hfirst.
  destruct (scan_quiet tokens (Client.mkReading common external groups ∅ false false false "" "")
              Hquiet eq_refl) as (r & Hscan & Hout & _).
  rewrite !Hscan.
  assert (Hstep : Client.scan_arguments false ("--password" :: rest) r
                  = Client.scan_arguments false rest
                      (Client.push_common ASK_PASSWORD
                         (Client.push_common "--password" (Client.leave_external_group r)))).
  { rewrite scan_password by done.
    by destruct Hrest as [-> | (next & later & -> & ->)]. }
  split.
  - rewrite Hstep, scan_password by done. cbv iota. rewrite Hdash.
    by rewrite scan_passed_on.
  - intros -> ->. specialize (Hscan []). simpl in Hscan. inversion Hscan; subst r.
    rewrite (readArguments_scan program ["--password"]) by (apply (Hfirst [])).
    rewrite Hstep. eexists. split; [reflexivity|].
    simpl. by rewrite <- app_assoc.
Qed.









End Arguments.

Section ArgumentsRun.
#[local] Existing Instance Reference.error_codes.
#[local] Existing Instance Reference.defines.
#[local] Existing Instance Reference.connection_string.
Import TokenizerSpec ArgumentsSpec.

(** [--port] at the end of the mixed vector. *)
Lemma flag_without_value_is_rejected_witness :
  Forall (λ token, quiet token = true) Reference.mixed_tokens
  ∧ (∀ first, head (render_all Reference.mixed_tokens ++ ["--port"]) = Some first →
              tryParseConnectionString first = Returns None)
  ∧ ∃ e, Client.readArguments
           ("clickhouse-client" :: render_all Reference.mixed_tokens ++ ["--port"]) [""] [] []
         = Throws e
         ∧ code e = BAD_ARGUMENTS.
Proof.
  assert (Hquiet : Forall (λ token, quiet token = true) Reference.mixed_tokens)
    by (repeat constructor).
  assert (Hstring : ∀ first, head (render_all Reference.mixed_tokens ++ ["--port"]) = Some first →
                             tryParseConnectionString first = Returns None)
    by (intros first [= <-]; reflexivity).
  split; [exact Hquiet|]. split; [exact Hstring|].
  apply (flag_without_value_is_rejected "clickhouse-client" Reference.mixed_tokens "--port"
           [""] [] [] Hquiet Hstring).
  right. right. left. reflexivity.
Defined.

(** The parameter [id] in both spellings, between other arguments. *)
Lemma parameter_spellings_agree_witness :
  Client.readArguments
    ("clickhouse-client" :: render_all Reference.mixed_tokens
       ++ param_joined "--param_" "id" "42" ++ ["--multiquery"]) [""] [] []
  = Client.readArguments
      ("clickhouse-client" :: render_all Reference.mixed_tokens
         ++ param_spaced "--param_" "id" "42" ++ ["--multiquery"]) [""] [] [].
Proof.
  refine (proj1 (parameter_spellings_agree "clickhouse-client" Reference.mixed_tokens "--param_"
                   "id" "42" ["--multiquery"] [""] [] [] _ _ _ _ _)).
  - repeat constructor.
  - by left.
  - discriminate.
  - reflexivity.
  - intros first [[= <-] | [= <-]]; reflexivity.
Defined.

(** [--password] followed by an option. *)
Lemma password_without_value_witness :
  Client.readArguments
    ("clickhouse-client" :: render_all Reference.mixed_tokens ++ ["--password"; "--multiquery"])
    [""] [] []
  = Client.readArguments
      ("clickhouse-client" :: render_all Reference.mixed_tokens
         ++ ["--password"; ASK_PASSWORD; "--multiquery"]) [""] [] [].
Proof.
  refine (proj1 (password_without_value "clickhouse-client" Reference.mixed_tokens
                   ["--multiquery"] [""] [] [] _ _ _ _ _)).
  - repeat constructor.
  - reflexivity.
  - reflexivity.
  - right. by exists "--multiquery", [].
  - intros first [= <-]; reflexivity.
Defined.



End ArgumentsRun.

(** ** Construction of the connection parameters *)

Section Parameters.
Context `{ErrorCodes} `{Defines} `{BuildOptions} `{Terminal} `{ConfigSyntax}.
Context {C : Type} `{AbstractConfiguration C}.

(** The constructor fails where the credentials do, or else where the
    resolver does. *)
Lemma new_throws (config : C) host database port_ e :
  ConnectionParameters.new config host database port_ = Throws e ↔
  ConnectionParameters.resolve_credentials config (getString config "user" "default") = Throws e
  ∨ ((∃ credentials,
        ConnectionParameters.resolve_credentials config (getString config "user" "default")
        = Returns credentials)
     ∧ host ≠ "localhost" ∧ resolvesToLocalAddress host = Throws e).
Proof.
  unfold ConnectionParameters.new.
  destruct (ConnectionParameters.resolve_credentials config _) as [[[j k] pw]|e'];
    cbn [mbind Exceptional_bind].
  - destruct (String.eqb_spec host "localhost") as [->|Hhost]; cbn [mbind Exceptional_bind].
    + split; [discriminate|]. intros [[=]|(_ & ? & _)]; done.
    + destruct (resolvesToLocalAddress host) as [is_local|e'']; cbn [mbind Exceptional_bind].
      * split; [discriminate|]. intros [[=]|(_ & _ & [=])].
      * split.
        -- intros [= ->]. right. eauto.
        -- intros [[=]|(_ & _ & [= ->])]. done.
  - split.
    + intros [= ->]. by left.
    + intros [[= ->]|((credentials & [=]) & _)]. done.
Qed.

(** X6: without a token and without an SSH key file, the constructor
    fails in two cases only: [ask-password] is set and a password is
    configured, with [BAD_ARGUMENTS]; or the host is not the literal
    [localhost] and resolving it fails, with the resolver's exception.  The
    terminal never makes it fail. *)
Theorem password_path_failures (config : C) host database port_ e :
  has config "jwt" = false → has config "ssh-key-file" = false →
  ConnectionParameters.new config host database port_ = Throws e ↔
  (getBool config "ask-password" false = true ∧ has config "password" = true
   ∧ e = mkException BAD_ARGUMENTS
           "Specified both --password and --ask-password. Remove one of them")
  ∨ (getBool config "ask-password" false && has config "password" = false
     ∧ host ≠ "localhost" ∧ resolvesToLocalAddress host = Throws e).
Proof.
  intros Hjwt Hssh. rewrite new_throws.
  unfold ConnectionParameters.resolve_credentials. rewrite Hjwt, Hssh.
  destruct (getBool config "ask-password" false); [destruct (has config "password")|];
    cbn [mbind Exceptional_bind andb].
  - split.
    + intros [[= <-]|((credentials & [=]) & _)]. by left.
    + intros [(_ & _ & ->)|([=] & _)]. by left.
  - split.
    + intros [[=]|(_ & Hhost & Hresolver)]. by right.
    + intros [(_ & [=] & _)|(_ & Hhost & Hresolver)]. right. eauto.
  - split.
    + intros [[=]|(_ & Hhost & Hresolver)]. by right.
    + intros [([=] & _)|(_ & Hhost & Hresolver)]. right. eauto.
Qed.

(** X7: with a token configured, the constructor fails only because the
    build lacks JWT support, with [SUPPORT_IS_DISABLED], or because resolving
    a host other than [localhost] fails; the SSH key and the password keys,
    conflicting or not, are not looked at. *)
Theorem token_path_failures (config : C) host database port_ e :
  has config "jwt" = true →
  ConnectionParameters.new config host database port_ = Throws e ↔
  (USE_JWT_CPP_AND_SSL = false
   ∧ e = mkException SUPPORT_IS_DISABLED
           "JWT is disabled, because ClickHouse is built without JWT or SSL support")
  ∨ (USE_JWT_CPP_AND_SSL = true ∧ host ≠ "localhost" ∧ resolvesToLocalAddress host = Throws e).
Proof.
  intros Hjwt. rewrite new_throws.
  unfold ConnectionParameters.resolve_credentials. rewrite Hjwt.
  destruct USE_JWT_CPP_AND_SSL.
  - split.
    + intros [[=]|(_ & Hhost & Hresolver)]. by right.
    + intros [([=] & _)|(_ & Hhost & Hresolver)]. right. eauto.
  - split.
    + intros [[= <-]|((credentials & [=]) & _)]. by left.
    + intros [(_ & ->)|([=] & _)]. by left.
Qed.

Lemma new_returns (config : C) host database port_ p :
  ConnectionParameters.new config host database port_ = Returns p →
  ∃ not_local,
    (if String.eqb host "localhost" then Returns false
     else is_local ← resolvesToLocalAddress host; Returns (negb is_local)) = Returns not_local
    ∧ ConnectionParameters.compression p
      = (if getBool config "compression" not_local then CompressionEnable
         else CompressionDisable)
    ∧ ConnectionParameters.port p
      = match port_ with
        | Some given => given
        | None => ConnectionParameters.getPortFromConfig config host
        end
    ∧ ConnectionParameters.timeouts p = ConnectionParameters.resolve_timeouts config
    ∧ ConnectionParameters.host p = host
    ∧ ConnectionParameters.user p = getString config "user" "default"
    ∧ ConnectionParameters.default_database p = database.
Proof.
  unfold ConnectionParameters.new. intros Hnew.
  destruct (ConnectionParameters.resolve_credentials config _) as [[[j k] pw]|e];
    cbn [mbind Exceptional_bind] in Hnew; [|discriminate].
  destruct (if String.eqb host "localhost" then _ else _) as [not_local|e];
    cbn [mbind Exceptional_bind] in Hnew; [|discriminate].
  exists not_local. inversion Hnew; subst p. done.
Qed.

(** X8: when [compression] is not configured, compression is disabled
    exactly for the literal host [localhost] and for a host that resolves to
    a local address. *)
Theorem compression_by_default (config : C) host database port_ p :
  ConnectionParameters.new config host database port_ = Returns p →
  getRaw config "compression" = None →
  ConnectionParameters.compression p = CompressionDisable
  ↔ host = "localhost" ∨ resolvesToLocalAddress host = Returns true.
Proof.
  intros Hnew Habsent.
  destruct (new_returns _ _ _ _ _ Hnew) as (not_local & Hlocal & -> & _).
  unfold getBool. rewrite Habsent. cbn [from_option].
  destruct (String.eqb_spec host "localhost") as [->|Hhost].
  - injection Hlocal as <-. split; [by left|done].
  - destruct (resolvesToLocalAddress host) as [[]|e]; cbn [mbind Exceptional_bind] in Hlocal;
      [injection Hlocal as <-..|discriminate].
    + split; [by right|done].
    + split; [done|]. intros [?|[=]]. done.
Qed.

(** X9: constructed without a port and with no [port] key configured, the
    parameters have the port that goes with their security flag:
    [tcp_port_secure], or else the default secure port, when security is
    enabled, [tcp_port], or else the default port, when it is disabled;
    narrowed to sixteen bits. *)
Theorem default_port_follows_security (config : C) host database p :
  ConnectionParameters.new config host database None = Returns p →
  getRaw config "port" = None →
  ConnectionParameters.port p
  = to_UInt16
      match ConnectionParameters.security p with
      | SecureEnable => getInt config "tcp_port_secure" DBMS_DEFAULT_SECURE_PORT
      | SecureDisable => getInt config "tcp_port" DBMS_DEFAULT_PORT
      end
  ∧ 0 ≤ ConnectionParameters.port p < 65536.
Proof.
  intros Hnew Habsent.
  rewrite (security_ignores_port _ _ _ _ _ Hnew).
  destruct (new_returns _ _ _ _ _ Hnew) as (_ & _ & _ & -> & _).
  unfold ConnectionParameters.getPortFromConfig.
  unfold getInt at 1. rewrite Habsent. cbn [from_option].
  split; [|apply Z.mod_pos_bound; lia].
  by destruct (ConnectionParameters.enableSecureConnection config host None).
Qed.

(** X10: the timeouts are stored in microseconds: the ones configured in
    seconds times a million, [handshake_timeout_ms] times a thousand (while
    the product fits an [int]); with neither [handshake_timeout_ms] nor
    [receive_timeout] configured the handshake timeout equals the receive
    timeout. *)
Theorem timeouts_in_microseconds (config : C) host database port_ p :
  ConnectionParameters.new config host database port_ = Returns p →
  let t := ConnectionParameters.timeouts p in
  connection_timeout t = 1000000 * getInt config "connect_timeout" DBMS_DEFAULT_CONNECT_TIMEOUT_SEC
  ∧ send_timeout t = 1000000 * getInt config "send_timeout" DBMS_DEFAULT_SEND_TIMEOUT_SEC
  ∧ receive_timeout t = 1000000 * getInt config "receive_timeout" DBMS_DEFAULT_RECEIVE_TIMEOUT_SEC
  ∧ tcp_keep_alive_timeout t
    = 1000000 * getInt config "tcp_keep_alive_timeout" DEFAULT_TCP_KEEP_ALIVE_TIMEOUT
  ∧ sync_request_timeout t
    = 1000000 * getInt config "sync_request_timeout" DBMS_DEFAULT_SYNC_REQUEST_TIMEOUT_SEC
  ∧ (∀ ms, getRaw config "handshake_timeout_ms" = Some ms →
           - 2 ^ 31 ≤ 1000 * parseInt ms < 2 ^ 31 →
           handshake_timeout t = 1000 * parseInt ms)
  ∧ (getRaw config "handshake_timeout_ms" = None →
     handshake_timeout t = 1000000 * DBMS_DEFAULT_RECEIVE_TIMEOUT_SEC
     ∧ (getRaw config "receive_timeout" = None → handshake_timeout t = receive_timeout t)).
Proof.
  intros Hnew t.
  destruct (new_returns _ _ _ _ _ Hnew) as (_ & _ & _ & _ & Htimeouts & _).
  unfold t. rewrite Htimeouts. unfold ConnectionParameters.resolve_timeouts, Timespan, getInt.
  cbn [connection_timeout send_timeout receive_timeout tcp_keep_alive_timeout
       sync_request_timeout handshake_timeout].
  do 5 (split; [lia|]). split.
  - intros ms -> _. cbn [from_option]. lia.
  - intros ->. cbn [from_option]. split; [lia|]. intros ->. cbn [from_option]. lia.
Qed.

End Parameters.


Section CredentialsFlow.
Context `{ErrorCodes} `{Defines} `{BuildOptions} `{Terminal} `{ConfigSyntax}
        `{Process} `{ClientBase} `{!Server} `{ConnectionString} `{ExternalTables}.

Lemma certificate_handler_getRaw options (cl : Client.t) k :
  k ≠ "openSSL.client.verificationMode" →
  k ≠ "openSSL.client.invalidCertificateHandler.name" →
  getRaw (Client.config (Client.set_certificate_handler options cl)) k
  = getRaw (Client.config cl) k.
Proof.
  intros Hmode Hname. unfold Client.set_certificate_handler, setString.
  destruct (opt_accept_invalid_certificate options); cbn [Client.config Client.with_config];
    rewrite ?getRaw_setRaw_ne by done; reflexivity.
Qed.

(** X11: [--jwt token] reaches the connection parameters: when
    [processOptions] returns with the option given, no user was given on the
    command line, and every parameters object constructed from the resulting
    configuration carries the token, an empty user name, no password and no
    SSH key (in a build with JWT support). *)
Theorem jwt_option_reaches_parameters options external_tables_arguments
    hosts_and_ports_arguments external_tables (cl cl1 : Client.t) tables token host database
    port_ p :
  USE_JWT_CPP_AND_SSL = true →
  opt_jwt options = Some token →
  Client.processOptions options external_tables_arguments hosts_and_ports_arguments
    external_tables cl = Continues (tables, (Returns (), cl1)) →
  ConnectionParameters.new (Client.config cl1) host database port_ = Returns p →
  opt_user options = None
  ∧ ConnectionParameters.jwt p = token
  ∧ ConnectionParameters.user p = ""
  ∧ ConnectionParameters.password p = ""
  ∧ ConnectionParameters.ssh_private_key p = None.
Proof.
  intros Hswitch Htoken Hoptions Hnew.
  apply processOptions_continues in Hoptions as (_ & hosts_and_ports & _ & Hoptions).
  symmetry in Hoptions.
  unfold Client.copy_options in Hoptions. rewrite Htoken in Hoptions.
  destruct (bool_decide _ && bool_decide _); [discriminate|].
  destruct (opt_user options) as [name|] eqn:Huser; [discriminate|].
  cbn [bool_decide decide_rel is_Some_dec] in Hoptions.
  injection Hoptions as <-. split; [done|].
  match type of Hnew with
  | ConnectionParameters.new (Client.config (Client.set_certificate_handler _ ?c)) _ _ _ = _ =>
      set (written := c) in *
  end.
  assert (Hjwt : getRaw (Client.config (Client.set_certificate_handler options written)) "jwt"
                 = Some token).
  { rewrite certificate_handler_getRaw by done. unfold written, setString.
    cbn [Client.config Client.with_config].
    rewrite getRaw_setRaw_ne by done. apply getRaw_setRaw_eq. }
  assert (Huser' : getRaw (Client.config (Client.set_certificate_handler options written)) "user"
                   = Some "").
  { rewrite certificate_handler_getRaw by done. unfold written, setString.
    cbn [Client.config Client.with_config]. apply getRaw_setRaw_eq. }
  pose proof (new_credentials _ _ _ _ _ Hnew) as Hcredentials.
  destruct (new_returns _ _ _ _ _ Hnew) as (_ & _ & _ & _ & _ & _ & Huser'' & _).
  unfold ConnectionParameters.resolve_credentials, has, getString1, getString in Hcredentials.
  rewrite Hjwt, Hswitch in Hcredentials. injection Hcredentials as <- <- <-.
  rewrite Huser''. unfold getString. rewrite Huser'. done.
Qed.


(** X12: the password retry reads the password at the terminal: after a
    first bootstrap that failed and left the retry open, with neither a token
    nor an SSH key file configured, the construction of the parameters from
    the configuration with [ask-password] set fails only where resolving a
    host other than [localhost] fails, so never with the conflict of
    [password] and [ask-password]; and the parameters constructed have the
    password typed at the prompt for the configured user (the empty string
    when nothing could be read).  The configuration layer is taken to read
    [true] as true. *)
Theorem retry_asks_at_the_terminal (cl : Client.t) e host database port_ :
  parseBool "true" = true →
  (Client.connect cl).1 = Throws e →
  may_ask_password cl e = true →
  has (Client.config cl) "jwt" = false →
  has (Client.config cl) "ssh-key-file" = false →
  let again := Client.with_config (setBool "ask-password" true) (Client.connect cl).2 in
  (∀ e', ConnectionParameters.new (Client.config again) host database port_ = Throws e'
         ↔ host ≠ "localhost" ∧ resolvesToLocalAddress host = Throws e')
  ∧ (host = "localhost" ∨ (∃ is_local, resolvesToLocalAddress host = Returns is_local) →
     ∃ p, ConnectionParameters.new (Client.config again) host database port_ = Returns p)
  ∧ (∀ p, ConnectionParameters.new (Client.config again) host database port_ = Returns p →
          ConnectionParameters.password p
          = default "" (readpassphrase ("Password for user ("
                                        +:+ getString (Client.config cl) "user" "default"
                                        +:+ "): "))).
Proof.
  intros Hsyntax Hconnect Hmay Hjwt Hssh again.
  destruct (connect_frame cl) as (_ & _ & _ & _ & _ & _ & Hconfig).
  specialize (Hconfig e Hconnect).
  unfold may_ask_password in Hmay. rewrite !andb_true_iff, !negb_true_iff in Hmay.
  destruct Hmay as ((_ & Hpassword) & _).
  assert (Hother : ∀ k, k ≠ "ask-password" →
            getRaw (Client.config again) k = getRaw (Client.config cl) k).
  { intros k Hk. unfold again, setBool. cbn [Client.config Client.with_config].
    rewrite Hconfig. by apply getRaw_setRaw_ne. }
  assert (Hask : getRaw (Client.config again) "ask-password" = Some "true").
  { unfold again, setBool. cbn [Client.config Client.with_config]. apply getRaw_setRaw_eq. }
  assert (Hcredentials :
            ConnectionParameters.resolve_credentials (Client.config again)
              (getString (Client.config again) "user" "default")
            = Returns ("", None,
                       default "" (readpassphrase
                                     ("Password for user ("
                                      +:+ getString (Client.config cl) "user" "default"
                                      +:+ "): ")))).
  { unfold ConnectionParameters.resolve_credentials, has, getBool, getString.
    unfold has in Hjwt, Hssh, Hpassword.
    rewrite (Hother "jwt"), (Hother "ssh-key-file"), (Hother "password"), (Hother "user"), Hask
      by done.
    destruct (getRaw (Client.config cl) "jwt"); [discriminate|].
    destruct (getRaw (Client.config cl) "ssh-key-file"); [discriminate|].
    destruct (getRaw (Client.config cl) "password"); [discriminate|].
    cbn [from_option]. rewrite Hsyntax. reflexivity. }
  assert (Hthrows : ∀ e', ConnectionParameters.new (Client.config again) host database port_
                          = Throws e'
                          ↔ host ≠ "localhost" ∧ resolvesToLocalAddress host = Throws e').
  { intros e'. rewrite new_throws, Hcredentials. split.
    - intros [[=]|(_ & Hhost & Hresolver)]. done.
    - intros [Hhost Hresolver]. right. eauto. }
  split; [exact Hthrows|]. split.
  - intros Hresolves.
    destruct (ConnectionParameters.new (Client.config again) host database port_) as [p|e']
      eqn:Hnew; [by exists p|].
    destruct (proj1 (Hthrows e') eq_refl) as [Hhost Hresolver].
    destruct Hresolves as [->|[is_local Hlocal]]; [done|congruence].
  - intros p Hnew. pose proof (new_credentials _ _ _ _ _ Hnew) as Hfilled.
    rewrite Hcredentials in Hfilled. by injection Hfilled as _ _ <-.
Qed.

End CredentialsFlow.

Section ParametersRun.
#[local] Existing Instance Reference.error_codes.
#[local] Existing Instance Reference.defines.
#[local] Existing Instance Reference.build_options.
#[local] Existing Instance Reference.terminal.
#[local] Existing Instance Reference.syntax.
#[local] Existing Instance Reference.bare_process.
#[local] Existing Instance Reference.client_base.
#[local] Existing Instance Reference.connection_string.
#[local] Existing Instance Reference.external_tables.

(** A password together with [ask-password]. *)
Lemma password_path_failures_witness :
  ConnectionParameters.new Reference.conflict_configuration "localhost" "" None
  = Throws (mkException BAD_ARGUMENTS
              "Specified both --password and --ask-password. Remove one of them").
Proof.
  refine (proj2 (password_path_failures Reference.conflict_configuration "localhost" "" None _
                   eq_refl eq_refl) _).
  left. repeat split; reflexivity.
Defined.

(** The loopback address. *)
Lemma compression_by_default_witness :
  ∃ p, ConnectionParameters.new Reference.empty_configuration "127.0.0.1" "" None = Returns p
       ∧ (ConnectionParameters.compression p = CompressionDisable
          ↔ "127.0.0.1" = "localhost" ∨ resolvesToLocalAddress "127.0.0.1" = Returns true).
Proof.
  eexists. split; [reflexivity|].
  apply (compression_by_default Reference.empty_configuration "127.0.0.1" "" None);
    reflexivity.
Defined.

(** A host of the managed cloud, and no port. *)
Lemma default_port_follows_security_witness :
  ∃ p, ConnectionParameters.new Reference.empty_configuration "db.clickhouse.cloud" "" None
       = Returns p
       ∧ ConnectionParameters.port p
         = to_UInt16
             match ConnectionParameters.security p with
             | SecureEnable =>
                 getInt Reference.empty_configuration "tcp_port_secure" DBMS_DEFAULT_SECURE_PORT
             | SecureDisable => getInt Reference.empty_configuration "tcp_port" DBMS_DEFAULT_PORT
             end
       ∧ 0 ≤ ConnectionParameters.port p < 65536.
Proof.
  eexists. split; [reflexivity|].
  apply (default_port_follows_security Reference.empty_configuration "db.clickhouse.cloud" "");
    reflexivity.
Defined.

(** No timeout configured. *)
Lemma timeouts_in_microseconds_witness :
  ∃ p, ConnectionParameters.new Reference.empty_configuration "localhost" "" None = Returns p
       ∧ handshake_timeout (ConnectionParameters.timeouts p)
         = receive_timeout (ConnectionParameters.timeouts p).
Proof.
  eexists. split; [reflexivity|].
  match goal with
  | |- handshake_timeout (ConnectionParameters.timeouts ?p) = _ =>
      assert (Hnew : ConnectionParameters.new Reference.empty_configuration "localhost" "" None
                     = Returns p) by reflexivity;
      destruct (timeouts_in_microseconds Reference.empty_configuration "localhost" "" None p
                  Hnew) as (_ & _ & _ & _ & _ & _ & Hdefault)
  end.
  exact (proj2 (Hdefault eq_refl) eq_refl).
Defined.

(** [--jwt token] on a client without hosts. *)
Lemma jwt_option_reaches_parameters_witness :
  ∃ cl1 p,
    Client.processOptions Reference.options_jwt [] [] [] Reference.no_host
    = Continues ([], (Returns (), cl1))
    ∧ ConnectionParameters.new (Client.config cl1) "localhost" "" None = Returns p
    ∧ opt_user Reference.options_jwt = None
    ∧ ConnectionParameters.jwt p = "token"
    ∧ ConnectionParameters.user p = ""
    ∧ ConnectionParameters.password p = ""
    ∧ ConnectionParameters.ssh_private_key p = None.
Proof.
  eexists. eexists. split; [reflexivity|]. split; [reflexivity|].
  eapply (jwt_option_reaches_parameters Reference.options_jwt [] [] [] Reference.no_host _ []
            "token" "localhost" "" None); reflexivity.
Defined.

End ParametersRun.

Section DisabledRun.
#[local] Existing Instance Reference.error_codes.
#[local] Existing Instance Reference.defines.
#[local] Existing Instance Reference.build_without_tokens.
#[local] Existing Instance Reference.terminal.
#[local] Existing Instance Reference.syntax.

(** A token in a build without JWT support. *)
Lemma token_path_failures_witness :
  ConnectionParameters.new Reference.jwt_configuration "localhost" "" None
  = Throws (mkException SUPPORT_IS_DISABLED
              "JWT is disabled, because ClickHouse is built without JWT or SSL support").
Proof.
  refine (proj2 (token_path_failures Reference.jwt_configuration "localhost" "" None _ eq_refl) _).
  left. split; reflexivity.
Defined.

End DisabledRun.

Section RetryRun.
#[local] Existing Instance Reference.error_codes.
#[local] Existing Instance Reference.defines.
#[local] Existing Instance Reference.build_options.
#[local] Existing Instance Reference.terminal.
#[local] Existing Instance Reference.syntax.
#[local] Existing Instance Reference.bare_process.
#[local] Existing Instance Reference.client_base.
#[local] Existing Instance Reference.server_with_password.
#[local] Existing Instance Reference.connection_string.

(** The server that wants a password, and the terminal at which it is typed. *)
Lemma retry_asks_at_the_terminal_witness :
  ∃ p, ConnectionParameters.new
         (Client.config (Client.with_config (setBool "ask-password" true)
                           (Client.connect Reference.two_hosts).2))
         "a.example" "" None = Returns p
       ∧ ConnectionParameters.password p = "secret".
Proof.
  eexists. split; [vm_compute; reflexivity|].
  apply (retry_asks_at_the_terminal Reference.two_hosts
           (mkException AUTHENTICATION_FAILED "Authentication failed") "a.example" "" None);
    vm_compute; reflexivity.
Defined.

End RetryRun.

(** ** The credential conflict *)

Section CredentialsConflict.
Context `{ErrorCodes} `{Defines} `{BuildOptions} `{Terminal} `{ConfigSyntax}
        `{Process} `{ClientBase} `{!Server} `{ExternalTables}.
Import PrecedenceSpec.

(** C5: the constructor fills the credential of one mechanism and leaves
    the other two empty.  The mechanism is JWT when the configuration has
    [jwt], else the SSH key when it has [ssh-key-file], else the password,
    which is the configured one or the one typed at the prompt.  The option
    [--jwt] together with an explicit [--user] never lets [processOptions]
    return: once the external tables and the host and port groups have been
    read, it throws [BAD_ARGUMENTS], with no host attempted and no
    connection made.  A token that is in the configuration without the
    option, as when the config file holds it, is not checked against the
    user: when [processOptions] and [initialize] have returned with an
    explicit [--user], the parameters constructed carry the token and that
    user. *)
Theorem C5_credential_mechanism :
  (∀ (C : Type) `(AbstractConfiguration C) (config : C) host database port_ p,
     ConnectionParameters.new config host database port_ = Returns p →
     if has config "jwt" then
       ConnectionParameters.jwt p = getString1 config "jwt"
       ∧ ConnectionParameters.ssh_private_key p = None
       ∧ ConnectionParameters.password p = ""
     else if has config "ssh-key-file" then
       ConnectionParameters.jwt p = ""
       ∧ (∃ key, ConnectionParameters.ssh_private_key p = Some key ∧ isPrivate key = true)
       ∧ ConnectionParameters.password p = ""
     else
       ConnectionParameters.jwt p = ""
       ∧ ConnectionParameters.ssh_private_key p = None
       ∧ ConnectionParameters.password p
         = let typed := readpassphrase ("Password for user ("
                                        +:+ getString config "user" "default" +:+ "): ") in
           if getBool config "ask-password" false then default "" typed
           else if String.eqb (getString config "password" "") ASK_PASSWORD
                then default (getString config "password" "") typed
                else getString config "password" "")
  ∧ (∀ options external_tables_arguments hosts_and_ports_arguments external_tables
       (cl : Client.t) token name,
       opt_jwt options = Some token → opt_user options = Some name →
       (∀ tables cl1,
          Client.processOptions options external_tables_arguments hosts_and_ports_arguments
            external_tables cl ≠ Continues (tables, (Returns (), cl1)))
       ∧ (∀ tables hosts_and_ports,
            ExternalTablesLoop.external_tables_loop external_tables_arguments external_tables 0
            = Continues tables →
            Client.hosts_and_ports_loop hosts_and_ports_arguments (Client.hosts_and_ports cl)
            = inr hosts_and_ports →
            ∃ e cl1,
              Client.processOptions options external_tables_arguments
                hosts_and_ports_arguments external_tables cl
              = Continues (tables, (Throws e, cl1))
              ∧ code e = BAD_ARGUMENTS
              ∧ Client.events cl1 = Client.events cl
              ∧ Client.connection cl1 = Client.connection cl))
  ∧ (∀ options external_tables_arguments hosts_and_ports_arguments external_tables
       (cl cl1 cl2 : Client.t) tables name host database port_ p,
       opt_user options = Some name →
       Client.processOptions options external_tables_arguments hosts_and_ports_arguments
         external_tables cl = Continues (tables, (Returns (), cl1)) →
       Client.initialize cl1 = (Returns (), cl2) →
       has (Client.config cl2) "jwt" = true →
       ConnectionParameters.new (Client.config cl2) host database port_ = Returns p →
       opt_jwt options = None
       ∧ ConnectionParameters.jwt p = getString1 (Client.config cl2) "jwt"
       ∧ ConnectionParameters.user p = name
       ∧ ConnectionParameters.ssh_private_key p = None
       ∧ ConnectionParameters.password p = "").
Proof.
  assert (Hmechanism :
            ∀ (C : Type) `(AbstractConfiguration C) (config : C) host database port_ p,
              ConnectionParameters.new config host database port_ = Returns p →
              if has config "jwt" then
                ConnectionParameters.jwt p = getString1 config "jwt"
                ∧ ConnectionParameters.ssh_private_key p = None
                ∧ ConnectionParameters.password p = ""
              else if has config "ssh-key-file" then
                ConnectionParameters.jwt p = ""
                ∧ (∃ key, ConnectionParameters.ssh_private_key p = Some key
                          ∧ isPrivate key = true)
                ∧ ConnectionParameters.password p = ""
              else
                ConnectionParameters.jwt p = ""
                ∧ ConnectionParameters.ssh_private_key p = None
                ∧ ConnectionParameters.password p
                  = let typed := readpassphrase ("Password for user ("
                                                 +:+ getString config "user" "default"
                                                 +:+ "): ") in
                    if getBool config "ask-password" false then default "" typed
                    else if String.eqb (getString config "password" "") ASK_PASSWORD
                         then default (getString config "password" "") typed
                         else getString config "password" "").
  { intros C HC config host_ database port_ p Hnew.
    apply new_credentials in Hnew. unfold ConnectionParameters.resolve_credentials in Hnew.
    destruct (has config "jwt").
    { destruct USE_JWT_CPP_AND_SSL; inversion Hnew. done. }
    destruct (has config "ssh-key-file").
    { destruct USE_SSH; [|discriminate].
      destruct (makePrivateKeyFromFile _ _) as [key|e]; simpl in Hnew; [|discriminate].
      destruct (isPrivate key) eqn:Hprivate; simpl in Hnew; inversion Hnew.
      repeat split; try done. by exists key. }
    destruct (getBool config "ask-password" false).
    { destruct (has config "password"); simpl in Hnew; inversion Hnew. done. }
    simpl in Hnew. inversion Hnew.
    destruct (String.eqb _ ASK_PASSWORD); done. }
  assert (Hconflict : ∀ options (cl : Client.t) token name,
            opt_jwt options = Some token → opt_user options = Some name →
            ∃ e, (Client.copy_options options cl).1 = Throws e ∧ code e = BAD_ARGUMENTS).
  { intros options cl token name Hjwt Huser.
    exists (mkException BAD_ARGUMENTS
              (if bool_decide (is_Some (opt_config_file options))
                  && bool_decide (is_Some (opt_config options))
               then "Two or more configuration files referenced in arguments"
               else "User and JWT flags can't be specified together")).
    split; [|reflexivity].
    unfold Client.copy_options. rewrite Hjwt, Huser.
    destruct (_ && _); [done|].
    rewrite bool_decide_eq_true_2 by (by eexists). done. }
  split; [exact Hmechanism|]. split.
  - intros options external_tables_arguments hosts_and_ports_arguments external_tables cl
      token name Hjwt Huser. split.
    + intros tables cl1 Hoptions.
      apply processOptions_continues in Hoptions as (_ & hosts_and_ports & _ & Hcopy).
      destruct (Hconflict options (Client.with_hosts_and_ports hosts_and_ports cl) token name
                  Hjwt Huser) as (e & Hthrows & _).
      rewrite <- Hcopy in Hthrows. discriminate.
    + intros tables hosts_and_ports Htables Hhosts.
      destruct (Hconflict options (Client.with_hosts_and_ports hosts_and_ports cl) token name
                  Hjwt Huser) as (e & Hthrows & Hcode).
      destruct (copy_options_events options (Client.with_hosts_and_ports hosts_and_ports cl))
        as [Hevents Hconnection].
      exists e, (Client.copy_options options
                   (Client.with_hosts_and_ports hosts_and_ports cl)).2.
      split; [|by repeat split].
      apply processOptions_continues. split; [done|]. exists hosts_and_ports.
      split; [done|].
      destruct (Client.copy_options options _) as [result cl1]. simpl in Hthrows. by subst.
  - intros options external_tables_arguments hosts_and_ports_arguments external_tables
      cl cl1 cl2 tables name host database port_ p Huser Hoptions Hinitialize Hjwt Hnew.
    apply processOptions_continues in Hoptions as (_ & hosts_and_ports & _ & Hcopy).
    symmetry in Hcopy.
    assert (Hnone : opt_jwt options = None).
    { destruct (opt_jwt options) as [token|] eqn:Htoken; [|done].
      destruct (Hconflict options (Client.with_hosts_and_ports hosts_and_ports cl) token name
                  Htoken Huser) as (e & Hthrows & _).
      rewrite Hcopy in Hthrows. discriminate. }
    split; [done|].
    pose proof (Hmechanism _ _ (Client.config cl2) host database port_ p Hnew) as Hfilled.
    rewrite Hjwt in Hfilled. destruct Hfilled as (Htoken & Hkey & Hpassword).
    split; [done|]. split; [|done].
    destruct (new_returns _ _ _ _ _ Hnew) as (_ & _ & _ & _ & _ & _ & -> & _).
    destruct (copy_options_flags _ _ _ Hcopy) as [Hflag _].
    unfold getString.
    rewrite (initialize_precedence cl1 cl2 "user" "CLICKHOUSE_USER") by (done || by left).
    by rewrite (Hflag name Huser).
Qed.

End CredentialsConflict.

Section CredentialsRun.
#[local] Existing Instance Reference.error_codes.
#[local] Existing Instance Reference.defines.
#[local] Existing Instance Reference.build_options.
#[local] Existing Instance Reference.terminal.
#[local] Existing Instance Reference.syntax.
#[local] Existing Instance Reference.process_with_token.
#[local] Existing Instance Reference.client_base.
#[local] Existing Instance Reference.server_first_down.
#[local] Existing Instance Reference.external_tables.

(** A token in the configuration, and [--user alice --jwt token] on the
    command line. *)
Lemma C5_credential_mechanism_witness :
  (∃ p, ConnectionParameters.new Reference.jwt_configuration "localhost" "" None = Returns p
        ∧ ConnectionParameters.jwt p = "token"
        ∧ ConnectionParameters.ssh_private_key p = None
        ∧ ConnectionParameters.password p = "")
  ∧ (opt_jwt Reference.options_user_and_jwt = Some "token"
     ∧ opt_user Reference.options_user_and_jwt = Some "alice"
     ∧ ∃ e cl1,
         Client.processOptions Reference.options_user_and_jwt [] [] [] Reference.no_host
         = Continues ([], (Throws e, cl1))
         ∧ code e = BAD_ARGUMENTS
         ∧ Client.events cl1 = Client.events Reference.no_host
         ∧ Client.connection cl1 = Client.connection Reference.no_host).
Proof.
  split.
  - eexists. split; [reflexivity|].
    exact (proj1 C5_credential_mechanism _ _ Reference.jwt_configuration "localhost" "" None _
             eq_refl).
  - split; [reflexivity|]. split; [reflexivity|].
    exact (proj2 (proj1 (proj2 C5_credential_mechanism) Reference.options_user_and_jwt [] [] []
                    Reference.no_host "token" "alice" eq_refl eq_refl)
             [] [] eq_refl eq_refl).
Defined.

(** C5 as stated fails: the token of the config file is not checked
    against [--user alice], and the connection is made. *)
Lemma C5_token_of_the_file_with_a_user : ¬ CredentialSpec.claim_as_stated.
Proof.
  intros Hclaim.
  specialize (Hclaim Reference.no_session Reference.options_user [] [] [] Reference.no_host
                _ Reference.alice_with_token [] "alice" eq_refl eq_refl eq_refl).
  assert (Hinitialize : ∀ cl1,
            cl1 = (Client.copy_options Reference.options_user Reference.no_host).2 →
            Client.initialize cl1 = (Returns (), Reference.alice_with_token)).
  { intros cl1 ->. vm_compute. reflexivity. }
  specialize (Hclaim (Hinitialize _ eq_refl)).
  assert (Hjwt : has (Client.config Reference.alice_with_token) "jwt" = true) by (vm_compute; reflexivity).
  specialize (Hclaim Hjwt).
  vm_compute in Hclaim. discriminate.
Qed.

(** The run of the counterexample: the connection to [localhost] carries the
    token and the user. *)
Example token_and_user_run :
  ∃ p hello, Client.connection (Client.main Reference.no_session Reference.alice_with_token).2
             = Some (p, Some hello)
             ∧ ConnectionParameters.jwt p = "token"
             ∧ ConnectionParameters.user p = "alice"
             ∧ ConnectionParameters.host p = "localhost".
Proof. eexists. eexists. vm_compute. repeat split; reflexivity. Qed.

End CredentialsRun.

(** ** Values written by the profile substitution *)

Section ProfileValues.
Context `{ErrorCodes} `{ConfigSyntax} `{Terminal}.
Context {C : Type} `{ConfigurationLaws C}.
Import ProfileSpec.

(** [connection_found] after the loop. *)
Lemma scan_profiles_found cl connection (config : C) keys_ : ∀ current found,
  agree_outside config current →
  (Client.scan_profiles cl connection keys_ current found).2 = true
  ↔ found = true ∨ ∃ key, key ∈ keys_ ∧ matching config connection key.
Proof.
  induction keys_ as [|key keys_ IH]; intros current found Hagree.
  - simpl. split; [by left|]. intros [?|(key & Hkey & _)]; [done|]. by apply elem_of_nil in Hkey.
  - cbn [Client.scan_profiles]. rewrite (agree_outside_name config current key Hagree).
    destruct (String.eqb_spec (getString config (entry key "name") "") connection)
      as [Hname|Hname]; cbn [negb].
    + rewrite IH by (by apply agree_outside_overlay). split; [|by left].
      intros _. right. exists key. split; [by left|done].
    + rewrite IH by done. split.
      * intros [?|(key' & Hkey' & Hmatch)]; [by left|]. right. exists key'. split; [by right|done].
      * intros [?|(key' & Hkey' & Hmatch)]; [by left|].
        apply elem_of_cons in Hkey' as [->|Hkey']; [done|]. right. eauto.
Qed.

(** A named connection that is accepted has a profile. *)
Lemma parseConnectionsCredentials_named (cl : Client.t) (config : C) connection_name config' :
  Client.parseConnectionsCredentials cl config connection_name = Returns config' →
  connection_name ≠ "" →
  ∃ key, key ∈ keys config "connections_credentials" ∧ matching config connection_name key.
Proof.
  unfold Client.parseConnectionsCredentials.
  pose proof (scan_profiles_found cl (Client.connection_to_use cl config connection_name) config
                (keys config "connections_credentials") config false (agree_outside_refl config))
    as Hfound.
  destruct (Client.scan_profiles cl _ _ config false) as [scanned found]. cbn [snd] in Hfound.
  unfold Client.connection_to_use in Hfound.
  destruct connection_name as [|c name]; [done|]. cbn [Str.empty negb andb] in *.
  destruct found; [|discriminate]. intros _ _.
  by destruct (proj1 Hfound eq_refl) as [?|Hkey].
Qed.

(** X13: [parseConnectionsCredentials] throws exactly when a connection
    name is given and no profile of the configuration has that name; the
    exception is [NO_ELEMENTS_IN_CONFIG].  Without a name, a connection for
    which there is no profile is not an error. *)
Theorem unknown_connection_is_rejected (cl : Client.t) (config : C) connection_name e :
  Client.parseConnectionsCredentials cl config connection_name = Throws e
  ↔ connection_name ≠ ""
    ∧ (∀ key, key ∈ keys config "connections_credentials" →
              ¬ matching config connection_name key)
    ∧ e = mkException NO_ELEMENTS_IN_CONFIG "No such connection '{}' in connections_credentials".
Proof.
  unfold Client.parseConnectionsCredentials.
  pose proof (scan_profiles_found cl (Client.connection_to_use cl config connection_name) config
                (keys config "connections_credentials") config false (agree_outside_refl config))
    as Hfound.
  destruct (Client.scan_profiles cl _ _ config false) as [config' found]. cbn [snd] in Hfound.
  unfold Client.connection_to_use in Hfound |- *.
  destruct connection_name as [|c name]; cbn [Str.empty negb andb] in *.
  - split; [discriminate|]. by intros (? & _).
  - destruct found; cbn [negb].
    + split; [discriminate|]. intros (_ & Hnone & _).
      destruct (proj1 Hfound eq_refl) as [?|(key & Hkey & Hmatch)]; [done|].
      by destruct (Hnone key Hkey).
    + split.
      * intros [= <-]. split; [done|]. split; [|done].
        intros key Hkey Hmatch.
        assert (false = true); [|done]. apply Hfound. right. eauto.
      * by intros (_ & _ & ->).
Qed.


Ltac differs := first [assumption | congruence | done].

(** A statement of the loop body that writes another key. *)
Ltac writes_elsewhere :=
  let c := fresh "c" in
  intros c; cbv beta zeta;
  unfold setString, setInt, setUInt, setBool;
  repeat match goal with
         | |- context [if ?b then _ else _] => destruct b
         end;
  apply getRaw_setRaw_ne; differs.

Ltac read_through :=
  repeat first
    [ rewrite if_has_getRaw by writes_elsewhere
    | rewrite setString_getRaw by differs ].

(** An entry of a profile reads the same in the configuration as the loop
    has left it so far. *)
Lemma entry_agrees (config current : C) key suffix :
  agree_outside config current →
  getRaw current (("connections_credentials." +:+ key) +:+ suffix)
  = getRaw config (("connections_credentials." +:+ key) +:+ suffix).
Proof. intros Hagree. apply Hagree, profile_entry_outside. Qed.

Lemma if_has_present entry_ statement (config : C) :
  has config entry_ = true → Client.if_has entry_ statement config = statement config.
Proof. intros Hpresent. unfold Client.if_has. by rewrite Hpresent. Qed.

(** The facts that the keys written differ from an entry of a profile. *)
Ltac entry_facts key suffix :=
  let Hfacts := fresh "Hfacts" in
  pose proof (outside_overlay_keys _ (profile_entry_outside key suffix)) as Hfacts;
  destruct Hfacts as (?&?&?&?&?&?&?&?&?&?&?).

(** What the guarded statement for [suffix] writes, read back. *)
Ltac written_value key suffix Hagree :=
  entry_facts key suffix;
  unfold Client.overlay_profile; cbv zeta; read_through;
  rewrite if_has_present;
  [ unfold setString, setUInt, getString1, getString; rewrite getRaw_setRaw_eq; read_through;
    rewrite ?(entry_agrees _ _ key suffix Hagree)
  | unfold has in *; read_through; by rewrite (entry_agrees _ _ key suffix Hagree) ].

Lemma overlay_profile_verbatim cl key name (config current : C) field :
  field ∈ ["user"; "password"; "database"; "prompt"] →
  agree_outside config current →
  has config (entry key field) = true →
  getRaw (Client.overlay_profile cl ("connections_credentials." +:+ key) name current) field
  = Some (getString1 config (entry key field)).
Proof.
  intros Hfield Hagree Hpresent.
  repeat (apply elem_of_cons in Hfield as [->|Hfield]); [..|by apply elem_of_nil in Hfield].
  - written_value key ".user" Hagree. reflexivity.
  - written_value key ".password" Hagree. reflexivity.
  - written_value key ".database" Hagree. reflexivity.
  - written_value key ".prompt" Hagree. reflexivity.
Qed.

Lemma overlay_profile_history_file cl key name (config current : C) :
  agree_outside config current →
  has config (entry key "history_file") = true →
  getRaw (Client.overlay_profile cl ("connections_credentials." +:+ key) name current)
    "history_file"
  = Some (let history_file := getString1 config (entry key "history_file") in
          if Str.starts_with history_file "~" && negb (Str.empty (Client.home_path cl))
          then Client.home_path cl +:+ "/" +:+ Str.substr_from 1 history_file
          else history_file).
Proof.
  intros Hagree Hpresent. written_value key ".history_file" Hagree. reflexivity.
Qed.

Lemma overlay_profile_history_max_entries cl key name (config current : C) :
  agree_outside config current →
  has config (entry key "history_max_entries") = true →
  getRaw (Client.overlay_profile cl ("connections_credentials." +:+ key) name current)
    "history_max_entries"
  = Some (formatInt (Client.history_max_entries cl)).
Proof.
  intros Hagree Hpresent. written_value key ".history_max_entries" Hagree. reflexivity.
Qed.

(** The last profile for the connection that has an entry decides the key
    that the entry overlays. *)
Lemma scan_profiles_value cl connection (config : C) field value before key after :
  ∀ current found,
  (field, field) ∈ guarded_overlays →
  (∀ current name, agree_outside config current →
     getRaw (Client.overlay_profile cl ("connections_credentials." +:+ key) name current) field
     = Some value) →
  agree_outside config current →
  matching config connection key →
  (∀ later, later ∈ after → matching config connection later →
            has config (entry later field) = false) →
  getRaw (Client.scan_profiles cl connection (before ++ key :: after) current found).1 field
  = Some value.
Proof.
  intros current found Hguarded Hwritten. revert current found.
  induction before as [|earlier before IH]; intros current found Hagree Hmatch Hlater.
  - cbn [app Client.scan_profiles]. rewrite (agree_outside_name config current key Hagree).
    unfold matching in Hmatch. rewrite Hmatch, String.eqb_refl. cbn [negb].
    rewrite (scan_profiles_keeps cl connection config field field after _ _ Hguarded)
      by (by apply agree_outside_overlay || done).
    by apply Hwritten.
  - cbn [app Client.scan_profiles]. destruct (negb _); apply IH; try done.
    by apply agree_outside_overlay.
Qed.


Lemma parseConnectionsCredentials_returns (cl : Client.t) (config : C) connection_name config' :
  Client.parseConnectionsCredentials cl config connection_name = Returns config' →
  config' = (Client.scan_profiles cl (Client.connection_to_use cl config connection_name)
               (keys config "connections_credentials") config false).1.
Proof.
  unfold Client.parseConnectionsCredentials.
  destruct (Client.scan_profiles cl _ _ config false) as [scanned found].
  destruct (_ && _); [discriminate|]. by intros [= <-].
Qed.

(** X14: [user], [password], [database] and [prompt] are taken as they are
    from the last profile for the connection that has the entry: profiles
    with the same name are all applied, in the order of the file, and a
    later one overrides an earlier one entry by entry. *)
Theorem last_profile_decides (cl : Client.t) (config : C) connection_name config' field
    before key after :
  Client.parseConnectionsCredentials cl config connection_name = Returns config' →
  let connection := Client.connection_to_use cl config connection_name in
  field ∈ ["user"; "password"; "database"; "prompt"] →
  keys config "connections_credentials" = before ++ key :: after →
  matching config connection key →
  has config (entry key field) = true →
  (∀ later, later ∈ after → matching config connection later →
            has config (entry later field) = false) →
  getRaw config' field = Some (getString1 config (entry key field)).
Proof.
  intros Hparse connection Hfield Hkeys Hmatch Hpresent Hlater.
  rewrite (parseConnectionsCredentials_returns _ _ _ _ Hparse), Hkeys.
  apply (scan_profiles_value cl connection config field); try done.
  - unfold guarded_overlays.
    repeat (apply elem_of_cons in Hfield as [->|Hfield]); [..|by apply elem_of_nil in Hfield];
      set_solver.
  - intros current name Hagree. by apply overlay_profile_verbatim.
Qed.

(** X15: the [history_file] of the last profile for the connection that
    has one is written with a leading tilde replaced: when it starts with
    [~] and the home path is known, the configuration receives the home
    path, a slash and the rest of the value after the tilde; otherwise the
    value as it is. *)
Theorem profile_history_file (cl : Client.t) (config : C) connection_name config'
    before key after :
  Client.parseConnectionsCredentials cl config connection_name = Returns config' →
  let connection := Client.connection_to_use cl config connection_name in
  let history_file := getString1 config (entry key "history_file") in
  keys config "connections_credentials" = before ++ key :: after →
  matching config connection key →
  has config (entry key "history_file") = true →
  (∀ later, later ∈ after → matching config connection later →
            has config (entry later "history_file") = false) →
  (Str.starts_with history_file "~" = true → Client.home_path cl ≠ "" →
   getRaw config' "history_file"
   = Some (Client.home_path cl +:+ "/" +:+ Str.substr_from 1 history_file))
  ∧ (Str.starts_with history_file "~" = false ∨ Client.home_path cl = "" →
     getRaw config' "history_file" = Some history_file).
Proof.
  intros Hparse connection history_file Hkeys Hmatch Hpresent Hlater.
  assert (Hvalue : getRaw config' "history_file"
                   = Some (if Str.starts_with history_file "~"
                              && negb (Str.empty (Client.home_path cl))
                           then Client.home_path cl +:+ "/" +:+ Str.substr_from 1 history_file
                           else history_file)).
  { rewrite (parseConnectionsCredentials_returns _ _ _ _ Hparse), Hkeys.
    apply (scan_profiles_value cl connection config "history_file"); try done.
    - unfold guarded_overlays. set_solver.
    - intros current name Hagree. by apply overlay_profile_history_file. }
  rewrite Hvalue. split.
  - intros -> Hhome. by destruct (Client.home_path cl).
  - intros [Htilde|Hhome]; [by rewrite Htilde|]. rewrite Hhome. by rewrite andb_false_r.
Qed.

(** X16: a profile's [history_max_entries] entry makes the loop write the
    client's own [history_max_entries] member to the configuration; the
    value of the entry is not read. *)
Theorem profile_history_max_entries (cl : Client.t) (config : C) connection_name config'
    before key after :
  Client.parseConnectionsCredentials cl config connection_name = Returns config' →
  let connection := Client.connection_to_use cl config connection_name in
  keys config "connections_credentials" = before ++ key :: after →
  matching config connection key →
  has config (entry key "history_max_entries") = true →
  (∀ later, later ∈ after → matching config connection later →
            has config (entry later "history_max_entries") = false) →
  getRaw config' "history_max_entries" = Some (formatInt (Client.history_max_entries cl)).
Proof.
  intros Hparse connection Hkeys Hmatch Hpresent Hlater.
  rewrite (parseConnectionsCredentials_returns _ _ _ _ Hparse), Hkeys.
  apply (scan_profiles_value cl connection config "history_max_entries"); try done.
  - unfold guarded_overlays. set_solver.
  - intros current name Hagree.
    by apply (overlay_profile_history_max_entries cl key name config current).
Qed.

End ProfileValues.

Section ProfileValuesRun.
#[local] Existing Instance Reference.error_codes.
#[local] Existing Instance Reference.defines.
#[local] Existing Instance Reference.build_options.
#[local] Existing Instance Reference.terminal.
#[local] Existing Instance Reference.syntax.
Import ProfileSpec.

(** [--connection staging] with profiles for [prod] only. *)
Lemma unknown_connection_is_rejected_witness :
  Client.parseConnectionsCredentials Reference.no_host Reference.profiles_document "staging"
  = Throws (mkException NO_ELEMENTS_IN_CONFIG "No such connection '{}' in connections_credentials").
Proof.
  refine (proj2 (unknown_connection_is_rejected Reference.no_host Reference.profiles_document
                   "staging" _) _).
  split; [discriminate|]. split; [|reflexivity].
  intros key Hkey Hmatch. vm_compute in Hkey.
  apply elem_of_cons in Hkey as [->|Hkey]; [vm_compute in Hmatch; discriminate|].
  apply elem_of_cons in Hkey as [->|Hkey]; [vm_compute in Hmatch; discriminate|].
  by apply elem_of_nil in Hkey.
Defined.

(** The two profiles applied, one after the other. *)
Lemma profiles_applied :
  Client.parseConnectionsCredentials Reference.at_home Reference.profiles_document "prod"
  = Returns (Client.scan_profiles Reference.at_home "prod" ["connection"; "connection[1]"]
               Reference.profiles_document false).1.
Proof. vm_compute; reflexivity. Qed.

(** Two profiles name a user; the second one wins. *)
Lemma last_profile_decides_witness :
  ∃ config', Client.parseConnectionsCredentials Reference.at_home Reference.profiles_document "prod"
             = Returns config'
             ∧ getRaw config' "user" = Some "bob".
Proof.
  eexists. split; [exact profiles_applied|].
  assert (Hkeys : keys Reference.profiles_document "connections_credentials"
                  = ["connection"] ++ "connection[1]" :: []) by (vm_compute; reflexivity).
  assert (Hmatch : matching Reference.profiles_document
                     (Client.connection_to_use Reference.at_home Reference.profiles_document "prod")
                     "connection[1]") by (vm_compute; reflexivity).
  assert (Hpresent : has Reference.profiles_document (entry "connection[1]" "user") = true)
    by (vm_compute; reflexivity).
  assert (Hlater : ∀ later, later ∈ [] →
            matching Reference.profiles_document
              (Client.connection_to_use Reference.at_home Reference.profiles_document "prod") later →
            has Reference.profiles_document (entry later "user") = false).
  { intros later Hlater. exfalso. exact (proj1 (elem_of_nil later) Hlater). }
  assert (Hfield : "user" ∈ ["user"; "password"; "database"; "prompt"]) by by left.
  pose proof (last_profile_decides Reference.at_home Reference.profiles_document "prod" _ "user"
                ["connection"] "connection[1]" [] profiles_applied Hfield Hkeys Hmatch
                Hpresent Hlater) as Hvalue.
  vm_compute in Hvalue |- *. exact Hvalue.
Defined.

(** The history file of the first profile, below the home directory. *)
Lemma profile_history_file_witness :
  ∃ config', Client.parseConnectionsCredentials Reference.at_home Reference.profiles_document "prod"
             = Returns config'
             ∧ getRaw config' "history_file" = Some "/home/user//.prod-history".
Proof.
  eexists. split; [exact profiles_applied|].
  assert (Hkeys : keys Reference.profiles_document "connections_credentials"
                  = [] ++ "connection" :: ["connection[1]"]) by (vm_compute; reflexivity).
  assert (Hmatch : matching Reference.profiles_document
                     (Client.connection_to_use Reference.at_home Reference.profiles_document "prod")
                     "connection") by (vm_compute; reflexivity).
  assert (Hpresent : has Reference.profiles_document (entry "connection" "history_file") = true)
    by (vm_compute; reflexivity).
  assert (Hlater : ∀ later, later ∈ ["connection[1]"] →
            matching Reference.profiles_document
              (Client.connection_to_use Reference.at_home Reference.profiles_document "prod") later →
            has Reference.profiles_document (entry later "history_file") = false).
  { intros later Hlater _. apply list_elem_of_singleton in Hlater as ->.
    vm_compute; reflexivity. }
  assert (Htilde : Str.starts_with
                     (getString1 Reference.profiles_document (entry "connection" "history_file")) "~"
                   = true) by (vm_compute; reflexivity).
  assert (Hhome : Client.home_path Reference.at_home ≠ "") by discriminate.
  pose proof (proj1 (profile_history_file Reference.at_home Reference.profiles_document "prod" _
                       [] "connection" ["connection[1]"] profiles_applied Hkeys Hmatch
                       Hpresent Hlater) Htilde Hhome) as Hvalue.
  vm_compute in Hvalue |- *. exact Hvalue.
Defined.

(** The first profile asks for five entries; the configuration receives the member. *)
Lemma profile_history_max_entries_witness :
  ∃ config', Client.parseConnectionsCredentials Reference.at_home Reference.profiles_document "prod"
             = Returns config'
             ∧ getRaw config' "history_max_entries" = Some "1000000".
Proof.
  eexists. split; [exact profiles_applied|].
  assert (Hkeys : keys Reference.profiles_document "connections_credentials"
                  = [] ++ "connection" :: ["connection[1]"]) by (vm_compute; reflexivity).
  assert (Hmatch : matching Reference.profiles_document
                     (Client.connection_to_use Reference.at_home Reference.profiles_document "prod")
                     "connection") by (vm_compute; reflexivity).
  assert (Hpresent : has Reference.profiles_document (entry "connection" "history_max_entries") = true)
    by (vm_compute; reflexivity).
  assert (Hlater : ∀ later, later ∈ ["connection[1]"] →
            matching Reference.profiles_document
              (Client.connection_to_use Reference.at_home Reference.profiles_document "prod") later →
            has Reference.profiles_document (entry later "history_max_entries") = false).
  { intros later Hlater _. apply list_elem_of_singleton in Hlater as ->.
    vm_compute; reflexivity. }
  pose proof (profile_history_max_entries Reference.at_home Reference.profiles_document "prod" _
                [] "connection" ["connection[1]"] profiles_applied Hkeys Hmatch Hpresent
                Hlater) as Hvalue.
  vm_compute in Hvalue |- *. exact Hvalue.
Defined.

End ProfileValuesRun.

(** ** Initialization *)

Section Initialization.
Context `{ErrorCodes} `{Defines} `{BuildOptions} `{Terminal} `{ConfigSyntax}
        `{Process} `{ClientBase} `{!Server} `{ConnectionString}.
Import ProfileSpec.

(** X17: when [initialize] returns and the configuration has the key
    [accept-invalid-certificate], from the command line, the config file or
    a profile and whatever its value, certificate verification is off:
    [openSSL.client.verificationMode] is [none] and the handler is
    [AcceptCertificateHandler]. *)
Theorem certificate_verification_off (cl cl' : Client.t) :
  Client.initialize cl = (Returns (), cl') →
  has (Client.config cl') "accept-invalid-certificate" = true →
  getRaw (Client.config cl') "openSSL.client.verificationMode" = Some "none"
  ∧ getRaw (Client.config cl') "openSSL.client.invalidCertificateHandler.name"
    = Some "AcceptCertificateHandler".
Proof.
  unfold Client.initialize. intros Hinitialize.
  destruct (match (if has _ "config-file" then _ else _) with Some _ => _ | None => _ end)
    as [loaded|e]; [|discriminate].
  injection Hinitialize as <-.
  destruct (has (Client.config loaded) "accept-invalid-certificate") eqn:Hkey.
  - intros _. rewrite !override_getRaw. repeat case_decide; try done.
    match goal with
    | |- context [Client.config (Client.with_config ?f ?c)] =>
        change (Client.config (Client.with_config f c)) with (f (Client.config c))
    end.
    cbv beta. split; simpl.
    + by rewrite lookup_insert_eq.
    + by rewrite lookup_insert_ne, lookup_insert_eq.
  - unfold has in Hkey |- *. rewrite !override_getRaw. repeat case_decide; try done.
    by destruct (getRaw (Client.config loaded) "accept-invalid-certificate").
Qed.


(** X18: a connection named on the command line is never ignored: when
    [initialize] returns and [connection] holds a non-empty name, a config
    file was found and loaded, and it has a profile with that name. *)
Theorem named_connection_is_found (cl cl' : Client.t) name :
  Client.initialize cl = (Returns (), cl') →
  getRaw (Client.config cl) "connection" = Some name →
  name ≠ "" →
  ∃ path document,
    (if has (Client.config cl) "config-file"
     then Some (getString1 (Client.config cl) "config-file")
     else getClientConfigPath (default (Client.home_path cl) (getenv "HOME"))) = Some path
    ∧ loadConfig path = Returns document
    ∧ ∃ key, key ∈ keys document "connections_credentials" ∧ matching document name key.
Proof.
  unfold Client.initialize. intros Hinitialize Hname Hnamed.
  set (cl0 := match getenv "HOME" with Some _ => _ | None => cl end) in *.
  assert (Hconfig : Client.config cl0 = Client.config cl)
    by (unfold cl0; by destruct (getenv "HOME")).
  assert (Hhome : Client.home_path cl0 = default (Client.home_path cl) (getenv "HOME"))
    by (unfold cl0; by destruct (getenv "HOME")).
  rewrite Hconfig, Hhome in Hinitialize.
  destruct (if has (Client.config cl) "config-file" then _ else _) as [path|].
  - exists path. destruct (loadConfig path) as [document|e]; cbn [mbind Exceptional_bind] in *;
      [|discriminate].
    exists document. split; [done|]. split; [done|].
    destruct (Client.parseConnectionsCredentials cl0 document _) as [configuration|e] eqn:Hparse;
      [|discriminate].
    unfold getString in Hparse. rewrite Hname in Hparse. cbn [default] in Hparse.
    by apply (parseConnectionsCredentials_named cl0 document name configuration).
  - unfold has in Hinitialize. rewrite Hname in Hinitialize. discriminate.
Qed.

End Initialization.

Section InitializationRun.
#[local] Existing Instance Reference.error_codes.
#[local] Existing Instance Reference.defines.
#[local] Existing Instance Reference.build_options.
#[local] Existing Instance Reference.terminal.
#[local] Existing Instance Reference.syntax.
#[local] Existing Instance Reference.process_with_profiles.
#[local] Existing Instance Reference.client_base.
#[local] Existing Instance Reference.server_first_down.
#[local] Existing Instance Reference.connection_string.
Import ProfileSpec.

(** The client after [initialize]. *)
Lemma connection_prod_initialized :
  Client.initialize Reference.connection_prod = (Returns (), (Client.initialize Reference.connection_prod).2).
Proof. vm_compute; reflexivity. Qed.

(** A profile that sets [accept-invalid-certificate] to [false]. *)
Lemma certificate_verification_off_witness :
  getRaw Reference.profiles_document "connections_credentials.connection[1].accept-invalid-certificate"
  = Some "false"
  ∧ getRaw (Client.config (Client.initialize Reference.connection_prod).2)
      "openSSL.client.verificationMode" = Some "none"
  ∧ getRaw (Client.config (Client.initialize Reference.connection_prod).2)
      "openSSL.client.invalidCertificateHandler.name" = Some "AcceptCertificateHandler".
Proof.
  split; [vm_compute; reflexivity|].
  apply (certificate_verification_off Reference.connection_prod
           (Client.initialize Reference.connection_prod).2 connection_prod_initialized).
  vm_compute; reflexivity.
Defined.

(** [--connection prod] and the config file with the two profiles. *)
Lemma named_connection_is_found_witness :
  ∃ path document,
    (if has (Client.config Reference.connection_prod) "config-file"
     then Some (getString1 (Client.config Reference.connection_prod) "config-file")
     else getClientConfigPath (default (Client.home_path Reference.connection_prod) (getenv "HOME")))
    = Some path
    ∧ loadConfig path = Returns document
    ∧ ∃ key, key ∈ keys document "connections_credentials" ∧ matching document "prod" key.
Proof.
  assert (Hname : getRaw (Client.config Reference.connection_prod) "connection" = Some "prod")
    by (vm_compute; reflexivity).
  refine (named_connection_is_found Reference.connection_prod (Client.initialize Reference.connection_prod).2
            "prod" connection_prod_initialized Hname _).
  discriminate.
Defined.

End InitializationRun.

(** ** The committed connection *)

Section Commit.
Context `{ErrorCodes} `{Defines} `{BuildOptions} `{Terminal} `{ConfigSyntax}
        `{Process} `{ClientBase} `{!Server} `{ConnectionString}.

Lemma try_address_database i address cl r cl' :
  Client.try_address i address cl = (r, cl') →
  Client.default_database cl' = Client.default_database cl.
Proof.
  unfold Client.try_address. intros Htry.
  destruct (ConnectionParameters.new _ _ _ _) as [parameters|e]; [|by inversion Htry].
  destruct (getServerVersion _ _) as [answer|e]; by inversion Htry.
Qed.

(** A successful attempt: the parameters are those constructed for the
    address, and the configuration receives their host and port. *)
Lemma try_address_commit i address cl cl' :
  Client.try_address i address cl = (Returns (), cl') →
  ∃ parameters,
    ConnectionParameters.new (Client.config cl) (HostAndPort.host address)
      (Client.default_database cl) (HostAndPort.port address) = Returns parameters
    ∧ Client.connection_parameters cl' = Some parameters
    ∧ Client.config cl'
      = setInt "port" (ConnectionParameters.port parameters)
          (setString "host" (ConnectionParameters.host parameters) (Client.config cl))
    ∧ Client.events cl' = Client.events cl ++ [HostAttempted i address].
Proof.
  unfold Client.try_address. intros Htry.
  change (Client.config (Client.record_event (HostAttempted i address) cl))
    with (Client.config cl) in Htry.
  change (Client.default_database (Client.record_event (HostAttempted i address) cl))
    with (Client.default_database cl) in Htry.
  destruct (ConnectionParameters.new _ _ _ _) as [parameters|e]; [|by inversion Htry].
  destruct (getServerVersion _ _) as [answer|e]; [|by inversion Htry].
  exists parameters. inversion Htry; subst cl'. done.
Qed.

Lemma connect_loop_commit remaining : ∀ i cl cl',
  remaining ≠ [] →
  drop i (Client.hosts_and_ports cl) = remaining →
  Client.connect_loop i remaining cl = (Returns (), cl') →
  ∃ k address attempted,
    remaining !! k = Some address
    ∧ Client.config attempted = Client.config cl
    ∧ Client.default_database attempted = Client.default_database cl
    ∧ Client.try_address (i + k) address attempted = (Returns (), cl').
Proof.
  induction remaining as [|address later IH]; intros i cl cl' Hne Hdrop Hloop; [done|].
  assert (Hlookup : Client.hosts_and_ports cl !! i = Some address).
  { rewrite <- (Nat.add_0_r i), <- lookup_drop, Hdrop. done. }
  assert (Hlen : length (Client.hosts_and_ports cl) = (i + S (length later))%nat).
  { apply (f_equal length) in Hdrop. rewrite length_drop in Hdrop. simpl in Hdrop.
    apply lookup_lt_Some in Hlookup. lia. }
  cbn [Client.connect_loop] in Hloop.
  destruct (Client.try_address i address cl) as [[[]|e] cl1] eqn:Htry.
  - inversion Hloop; subst cl1. exists 0%nat, address, cl. by rewrite Nat.add_0_r.
  - destruct (try_address_frame _ _ _ _ _ Htry) as (_ & Hhosts & _ & Hconfig).
    pose proof (try_address_database _ _ _ _ _ Htry) as Hdatabase.
    destruct ((code e =? AUTHENTICATION_FAILED) || (code e =? REQUIRED_PASSWORD));
      [discriminate|].
    rewrite Hhosts, Hlen in Hloop.
    destruct (i =? _)%nat eqn:Hlast; [discriminate|].
    apply Nat.eqb_neq in Hlast.
    assert (Hlater : later ≠ []) by (destruct later; simpl in *; [lia|done]).
    assert (Hdrop' : drop (S i) (Client.hosts_and_ports cl1) = later).
    { rewrite Hhosts. rewrite (drop_S _ _ _ Hlookup) in Hdrop. congruence. }
    destruct (IH (S i) cl1 cl' Hlater Hdrop' Hloop)
      as (k & found & attempted & Hk & Hc & Hd & Hcommit).
    exists (S k), found, attempted. rewrite Nat.add_succ_r.
    rewrite Hc, Hd, (Hconfig e eq_refl), Hdatabase. done.
Qed.

(** X19: a bootstrap that succeeds commits to the host that answered:
    that host is one of the hosts to try and the subject of the last
    attempt; the connection parameters are those constructed for it from the
    configuration as it was before the bootstrap; the configuration then
    holds its name under [host] and the port of the parameters under [port],
    and every other key as before. *)
Theorem connect_commits (cl : Client.t) :
  (Client.connect cl).1 = Returns () →
  ∃ k address parameters,
    hosts_to_try cl !! k = Some address
    ∧ ConnectionParameters.new (Client.config cl) (HostAndPort.host address)
        (Client.default_database cl) (HostAndPort.port address) = Returns parameters
    ∧ Client.connection_parameters (Client.connect cl).2 = Some parameters
    ∧ ConnectionParameters.host parameters = HostAndPort.host address
    ∧ getRaw (Client.config (Client.connect cl).2) "host" = Some (HostAndPort.host address)
    ∧ getRaw (Client.config (Client.connect cl).2) "port"
      = Some (formatInt (ConnectionParameters.port parameters))
    ∧ (∀ key, key ≠ "host" → key ≠ "port" →
              getRaw (Client.config (Client.connect cl).2) key = getRaw (Client.config cl) key)
    ∧ last (Client.events (Client.connect cl).2) = Some (HostAttempted k address).
Proof.
  unfold Client.connect.
  set (cl1 := match Client.hosts_and_ports _ with [] => _ | _ => _ end).
  assert (Hhosts : Client.hosts_and_ports cl1 = hosts_to_try cl).
  { unfold cl1, hosts_to_try. destruct cl as [? hs]; cbn. by destruct hs. }
  assert (Hconfig : Client.config cl1 = Client.config cl).
  { unfold cl1. destruct cl as [? hs]; cbn. by destruct hs. }
  assert (Hdatabase : Client.default_database cl1 = Client.default_database cl).
  { unfold cl1. destruct cl as [? hs]; cbn. by destruct hs. }
  rewrite Hhosts.
  destruct (Client.connect_loop 0 (hosts_to_try cl) cl1) as [[[]|e] cl2] eqn:Hloop;
    cbn [fst snd]; [|discriminate].
  intros _.
  destruct (connect_loop_commit (hosts_to_try cl) 0 cl1 cl2 (hosts_to_try_nonempty cl)
              Hhosts Hloop)
    as (k & address & attempted & Hk & Hc & Hd & Htry).
  destruct (try_address_commit _ _ _ _ Htry) as (parameters & Hnew & Hparameters & Hwritten
                                                   & Hevents).
  rewrite Hc, Hd, Hconfig, Hdatabase in *.
  destruct (after_handshake_frame cl2) as (Hevents' & _ & Hconfig' & _).
  assert (Hhost : ConnectionParameters.host parameters = HostAndPort.host address).
  { unfold ConnectionParameters.new in Hnew.
    destruct (ConnectionParameters.resolve_credentials _ _) as [[[j s] pw]|e];
      cbn [mbind Exceptional_bind] in Hnew; [|discriminate].
    destruct (if String.eqb _ "localhost" then _ else _) as [not_local|e];
      cbn [mbind Exceptional_bind] in Hnew; [|discriminate].
    by inversion Hnew. }
  exists k, address, parameters.
  split; [done|]. split; [done|].
  split.
  { unfold Client.after_handshake.
    destruct (Client.connection cl2) as [[? [hello|]]|]; rewrite Hparameters; done. }
  split; [done|].
  rewrite Hconfig', Hwritten, Hevents', Hevents. unfold setInt, setString.
  split; [by rewrite getRaw_setRaw_ne, getRaw_setRaw_eq, Hhost|].
  split; [by rewrite getRaw_setRaw_eq|].
  split; [intros key Hkey Hkey'; by rewrite !getRaw_setRaw_ne|].
  apply last_snoc.
Qed.


(** X20: the bootstrap, with or without the password retry, ends with the
    host list it started from, or with the one host made up from the
    configuration when it started from none; the retry goes through the same
    hosts, and no second host is made up. *)
Theorem bootstrap_keeps_the_hosts (cl : Client.t) :
  Client.hosts_and_ports (Client.connect_or_ask_password cl).2 = hosts_to_try cl
  ∧ hosts_to_try (Client.connect_or_ask_password cl).2 = hosts_to_try cl.
Proof.
  assert (Hstable : ∀ c : Client.t,
            Client.hosts_and_ports c = hosts_to_try cl → hosts_to_try c = hosts_to_try cl).
  { intros c Hc. unfold hosts_to_try at 1. rewrite Hc.
    pose proof (hosts_to_try_nonempty cl). by destruct (hosts_to_try cl). }
  assert (Hhosts : Client.hosts_and_ports (Client.connect_or_ask_password cl).2
                   = hosts_to_try cl).
  { unfold Client.connect_or_ask_password.
    destruct (connect_frame cl) as (_ & _ & _ & Hfirst & _).
    destruct (Client.connect cl) as [[[]|e] cl1]; cbn [fst snd] in *; [done|].
    destruct (_ || _); [done|].
    set (again := Client.with_config (setBool "ask-password" true) cl1).
    destruct (connect_frame again) as (_ & _ & _ & Hsecond & _).
    rewrite Hsecond. apply Hstable. exact Hfirst. }
  split; [exact Hhosts|]. by apply Hstable.
Qed.

End Commit.

Section CommitRun.
#[local] Existing Instance Reference.error_codes.
#[local] Existing Instance Reference.defines.
#[local] Existing Instance Reference.build_options.
#[local] Existing Instance Reference.terminal.
#[local] Existing Instance Reference.syntax.
#[local] Existing Instance Reference.bare_process.
#[local] Existing Instance Reference.client_base.
#[local] Existing Instance Reference.server_first_down.
#[local] Existing Instance Reference.connection_string.

Lemma two_hosts_connected : (Client.connect Reference.two_hosts).1 = Returns ().
Proof. vm_compute; reflexivity. Qed.

(** The bootstrap that fails over to the second host. *)
Lemma connect_commits_witness :
  ∃ k address parameters,
    hosts_to_try Reference.two_hosts !! k = Some address
    ∧ ConnectionParameters.new (Client.config Reference.two_hosts) (HostAndPort.host address)
        (Client.default_database Reference.two_hosts) (HostAndPort.port address)
      = Returns parameters
    ∧ Client.connection_parameters (Client.connect Reference.two_hosts).2 = Some parameters
    ∧ ConnectionParameters.host parameters = HostAndPort.host address
    ∧ getRaw (Client.config (Client.connect Reference.two_hosts).2) "host"
      = Some (HostAndPort.host address)
    ∧ getRaw (Client.config (Client.connect Reference.two_hosts).2) "port"
      = Some (formatInt (ConnectionParameters.port parameters))
    ∧ (∀ key, key ≠ "host" → key ≠ "port" →
              getRaw (Client.config (Client.connect Reference.two_hosts).2) key
              = getRaw (Client.config Reference.two_hosts) key)
    ∧ last (Client.events (Client.connect Reference.two_hosts).2)
      = Some (HostAttempted k address).
Proof. exact (connect_commits Reference.two_hosts two_hosts_connected). Defined.

(** The host committed to and the configuration after the bootstrap. *)
Example commit_run :
  getRaw (Client.config (Client.connect Reference.two_hosts).2) "host" = Some "b.example"
  ∧ getRaw (Client.config (Client.connect Reference.two_hosts).2) "port" = Some "9000".
Proof. split; vm_compute; reflexivity. Qed.

End CommitRun.

(** ** Warnings, external tables and the end of [main] *)

Section WarningMessages.
Import PacketStream.
Variable UNKNOWN_PACKET_FROM_SERVER : Z.
Variable min_server_revision_to_load_warnings : Z.

Lemma receive_messages_goes_on before : ∀ incoming messages,
  Forall (λ packet, goes_on packet = true) before →
  Warnings.receive_messages UNKNOWN_PACKET_FROM_SERVER (map Returns before ++ incoming) messages
  = Warnings.receive_messages UNKNOWN_PACKET_FROM_SERVER incoming (messages ++ rows before).
Proof.
  induction before as [|packet before IH]; intros incoming messages Hgoes.
  - by rewrite app_nil_r.
  - inversion Hgoes as [|? ? Hpacket Hbefore]; subst.
    cbn [map app Warnings.receive_messages].
    destruct packet as [[column|]| | | | | | | | |]; try discriminate;
      rewrite IH by done; unfold rows; cbn [map concat app]; by rewrite <- ?app_assoc.
Qed.

(** X21: the warnings shown are the rows received: when the server is
    recent enough and the query is sent, the loop returns at the first
    [EndOfStream] with the strings of all [Data] packets before it, in
    order, whatever other packets it went through, and reads no further;
    [showWarnings] prints nothing when there is none, and otherwise the
    heading, one line per warning, and an empty line. *)
Theorem warnings_are_the_rows_received server_revision before after :
  min_server_revision_to_load_warnings ≤ server_revision →
  Forall (λ packet, goes_on packet = true) before →
  let incoming := map Returns before ++ Returns EndOfStream :: after in
  Warnings.loadWarningMessages UNKNOWN_PACKET_FROM_SERVER min_server_revision_to_load_warnings
    server_revision (Returns ()) incoming = Some (Returns (rows before))
  ∧ Warnings.showWarnings UNKNOWN_PACKET_FROM_SERVER min_server_revision_to_load_warnings
      server_revision (Returns ()) incoming
    = Some (if bool_decide (rows before = []) then []
            else ["Warnings:"] ++ map (String.append " * ") (rows before) ++ [""]).
Proof.
  intros Hrevision Hgoes incoming.
  assert (Hload : Warnings.loadWarningMessages UNKNOWN_PACKET_FROM_SERVER
                    min_server_revision_to_load_warnings server_revision (Returns ()) incoming
                  = Some (Returns (rows before))).
  { unfold Warnings.loadWarningMessages, incoming.
    destruct (Z.ltb_spec server_revision min_server_revision_to_load_warnings); [lia|].
    by rewrite receive_messages_goes_on. }
  split; [exact Hload|].
  unfold Warnings.showWarnings. rewrite Hload. simpl. by case_bool_decide.
Qed.

(** X22: a server older than the revision required is not asked and has
    no warnings.  Otherwise, when the query cannot be sent, a packet cannot
    be received, or an [Exception] packet or a packet of an unknown type
    arrives before [EndOfStream], [loadWarningMessages] throws (for the
    unknown type, [UNKNOWN_PACKET_FROM_SERVER]), the rows received until
    then are dropped and [showWarnings] prints nothing. *)
Theorem warnings_are_dropped_on_failure server_revision sendQuery before received e after :
  Forall (λ packet, goes_on packet = true) before →
  (server_revision < min_server_revision_to_load_warnings
   → Warnings.loadWarningMessages UNKNOWN_PACKET_FROM_SERVER
       min_server_revision_to_load_warnings server_revision sendQuery
       (map Returns before ++ received :: after) = Some (Returns []))
  ∧ (min_server_revision_to_load_warnings ≤ server_revision →
     sendQuery = Throws e ∨ (sendQuery = Returns () ∧ stops_with UNKNOWN_PACKET_FROM_SERVER received e) →
     Warnings.loadWarningMessages UNKNOWN_PACKET_FROM_SERVER
       min_server_revision_to_load_warnings server_revision sendQuery
       (map Returns before ++ received :: after) = Some (Throws e)
     ∧ Warnings.showWarnings UNKNOWN_PACKET_FROM_SERVER
         min_server_revision_to_load_warnings server_revision sendQuery
         (map Returns before ++ received :: after) = Some []).
Proof.
  intros Hgoes. split.
  - intros Hold. unfold Warnings.loadWarningMessages.
    by destruct (Z.ltb_spec server_revision min_server_revision_to_load_warnings); [|lia].
  - intros Hrevision Hfailure.
    assert (Hload : Warnings.loadWarningMessages UNKNOWN_PACKET_FROM_SERVER
                      min_server_revision_to_load_warnings server_revision sendQuery
                      (map Returns before ++ received :: after) = Some (Throws e)).
    { unfold Warnings.loadWarningMessages.
      destruct (Z.ltb_spec server_revision min_server_revision_to_load_warnings); [lia|].
      destruct Hfailure as [->|[-> Hstops]]; [done|].
      rewrite receive_messages_goes_on by done.
      destruct Hstops as [->|[->|(type & -> & ->)]]; reflexivity. }
    split; [exact Hload|]. unfold Warnings.showWarnings. by rewrite Hload.
Qed.

End WarningMessages.

Section ExternalTablesExit.
Context `{ErrorCodes} `{ExternalTables}.
Import ExternalTablesLoop.

Lemma exit_code_of_status e : 1 ≤ exit_status (exit_code_of e) ≤ 255.
Proof.
  unfold exit_status, to_UInt8, exit_code_of.
  pose proof (Z.rem_bound_abs (code e) 256 ltac:(lia)) as Hbound.
  destruct (Z.eqb_spec (Z.rem (code e) 256) 0) as [Hzero|Hnonzero].
  - change (255 mod 256) with 255. lia.
  - set (r := Z.rem (code e) 256) in *.
    pose proof (Z.mod_pos_bound r 256 ltac:(lia)).
    assert (r mod 256 ≠ 0); [|lia].
    intros Hmod. apply Z.mod_divide in Hmod; [|lia].
    destruct Hmod as [q Hq]. lia.
Qed.

Lemma stdin_sources_snoc external_tables table :
  stdin_sources (external_tables ++ [table])
  = (stdin_sources external_tables + (if String.eqb (file table) "-" then 1 else 0))%nat.
Proof.
  unfold stdin_sources. rewrite List.filter_app, length_app. simpl.
  by destruct (String.eqb (file table) "-").
Qed.

Lemma external_tables_loop_invariant groups : ∀ external_tables n,
  n = stdin_sources external_tables →
  match external_tables_loop groups external_tables n with
  | Continues tables =>
      length tables = (length external_tables + length groups)%nat
      ∧ (n ≤ 1 → stdin_sources tables ≤ 1)%nat
      ∧ take (length external_tables) tables = external_tables
  | Exited exit_code => 1 ≤ exit_status exit_code ≤ 255
  | OptionsError _ => True
  end.
Proof.
  induction groups as [|group groups IH]; intros external_tables n Hn.
  - simpl. rewrite Nat.add_0_r, firstn_all. subst n. done.
  - cbn [external_tables_loop].
    destruct (parse_external_options group) as [what|external_options]; [done|].
    unfold add_external_table.
    destruct (new_ExternalTable external_options) as [table|e]; cbn [mbind Exceptional_bind];
      [|apply exit_code_of_status].
    set (n' := if String.eqb (file table) "-" then S n else n).
    destruct (1 <? n')%nat eqn:Hmany; [apply exit_code_of_status|].
    apply Nat.ltb_ge in Hmany.
    assert (Hn' : n' = stdin_sources (external_tables ++ [table])).
    { rewrite stdin_sources_snoc. unfold n'. subst n.
      destruct (String.eqb (file table) "-"); lia. }
    specialize (IH (external_tables ++ [table]) n' Hn').
    destruct (external_tables_loop groups (external_tables ++ [table]) n')
      as [tables|exit_code|what]; [|done..].
    destruct IH as (Hlength & Hstdin & Htake). rewrite length_app in Hlength, Htake.
    simpl in Hlength, Htake. split; [simpl; lia|]. split; [auto|].
    apply (f_equal (take (length external_tables))) in Htake.
    rewrite take_take, take_app_length in Htake.
    by replace (length external_tables `min` (length external_tables + 1))%nat
      with (length external_tables) in Htake by lia.
Qed.

(** X23: the loop over the external table groups either ends the process
    with an exit status between 1 and 255 (never 0), or leaves a
    [program_options] error in flight, or continues with one table per group
    of which at most one reads standard input. *)
Theorem external_tables_outcome groups :
  match external_tables_loop groups [] 0 with
  | Continues tables => length tables = length groups ∧ (stdin_sources tables ≤ 1)%nat
  | Exited exit_code => 1 ≤ exit_status exit_code ≤ 255
  | OptionsError _ => True
  end.
Proof.
  pose proof (external_tables_loop_invariant groups [] 0%nat eq_refl) as Hinvariant.
  destruct (external_tables_loop groups [] 0) as [tables|exit_code|what]; [|done..].
  destruct Hinvariant as (Hlength & Hstdin & _). split; [done|]. apply Hstdin. lia.
Qed.

End ExternalTablesExit.

Section EndOfMain.
Context `{ErrorCodes} `{Defines} `{BuildOptions} `{Terminal} `{ConfigSyntax}
        `{Process} `{ClientBase} `{!Server} `{ConnectionString} `{!Runs}.

(** X24: the value [main] returns for a batch run that did not throw: with
    an exception on record (the server's before the client's), its code, or
    -1 for code 0, hence never 0; the exit status, the low eight bits, is
    then 0 exactly for a code that is a non-zero multiple of 256.  With the
    error flag alone, -1; with neither and no delayed interactive run, 0. *)
Theorem batch_return_code (cl cl1 cl2 cl3 : Client.t) recorded :
  Client.processConfig cl = (Returns (), cl1) →
  Client.connect_or_ask_password cl1 = (Returns (), cl2) →
  Client.is_interactive cl2 && negb (Client.delayed_interactive cl2) && negb buzz_house = false →
  runNonInteractive cl2 = (Returns recorded, cl3) →
  let rc := (Client.main Session.after_connect cl).1 in
  (∀ e, server_exception recorded = Some e
        ∨ (server_exception recorded = None ∧ client_exception recorded = Some e) →
        rc = (if code e =? 0 then -1 else code e)
        ∧ rc ≠ 0
        ∧ (exit_status rc = 0 ↔ code e ≠ 0 ∧ to_UInt8 (code e) = 0))
  ∧ (server_exception recorded = None → client_exception recorded = None →
     have_error recorded = true → rc = -1)
  ∧ (server_exception recorded = None → client_exception recorded = None →
     have_error recorded = false → Client.delayed_interactive cl3 = false → rc = 0).
Proof.
  intros Hconfig Hconnect Hbatch Hrun rc.
  assert (Hrc : rc = match Session.exception_of recorded with
                     | Some exception => if negb (code exception =? 0) then code exception else -1
                     | None =>
                         if have_error recorded then -1
                         else if Client.delayed_interactive cl3
                              then (let '(r, _) := runInteractive cl3 in
                                    match r with
                                    | Returns _ => 0
                                    | Throws e => Client.main_catch e
                                    end)
                              else 0
                     end).
  { unfold rc, Client.main. rewrite Hconfig, Hconnect. unfold Session.after_connect.
    rewrite Hbatch, Hrun.
    destruct (Session.exception_of recorded); [done|].
    destruct (have_error recorded); [done|].
    destruct (Client.delayed_interactive cl3); [|done].
    by destruct (runInteractive cl3) as [[[]|e] cl4]. }
  rewrite Hrc. unfold Session.exception_of. split; [|split].
  - intros e [Hserver|[Hserver Hclient]]; rewrite Hserver, ?Hclient;
      (destruct (Z.eqb_spec (code e) 0) as [Hzero|Hnonzero]; cbn [negb];
       [split; [done|]; split; [done|]; split; [by vm_compute|by intros []]|]);
      (split; [done|]; split; [done|]; unfold exit_status; by split; [|intros []]).
  - by intros -> -> ->.
  - by intros -> -> -> ->.
Qed.


(** The fields that [processConfig] decides. *)
Lemma processConfig_returns (cl cl' : Client.t) :
  Client.processConfig cl = (Returns (), cl') →
  let delayed :=
    has (Client.config cl) "interactive"
    && (negb (bool_decide (Client.queries cl = [])) || has (Client.config cl) "queries-file") in
  let interactive :=
    if stdin_is_a_tty
       && (delayed || (bool_decide (Client.queries cl = [])
                       && bool_decide (Client.queries_files cl = [])))
    then true else Client.is_interactive cl in
  (negb (bool_decide (Client.queries cl = [])) && has (Client.config cl) "queries-file" = false)
  ∧ Client.is_interactive cl' = interactive
  ∧ Client.delayed_interactive cl' = delayed
  ∧ Client.config cl' = Client.config cl
  ∧ Client.default_database cl' = getString (Client.config cl) "database" ""
  ∧ (interactive || delayed = false →
     Client.history_file cl' = Client.history_file cl
     ∧ Client.home_path cl' = Client.home_path cl).
Proof.
  unfold Client.processConfig.
  destruct (negb (bool_decide (Client.queries cl = [])) && has (Client.config cl) "queries-file");
    [discriminate|].
  intros [= <-]. cbv zeta.
  set (delayed := has (Client.config cl) "interactive" && _).
  set (interactive := if stdin_is_a_tty && _ then true else Client.is_interactive cl).
  change (Client.is_interactive (Client.with_interactive interactive delayed cl))
    with interactive.
  change (Client.delayed_interactive (Client.with_interactive interactive delayed cl))
    with delayed.
  split; [done|].
  destruct (interactive || delayed); [|by repeat split].
  change (Client.home_path (Client.with_interactive interactive delayed cl))
    with (Client.home_path cl).
  destruct (Str.empty (Client.home_path cl)); [destruct (getenv "HOME")|];
    cbn [Client.config Client.with_home_path Client.with_interactive];
    (destruct (has (Client.config cl) "history_file");
     [|destruct (getenv "CLICKHOUSE_HISTORY_FILE");
       [|cbn [Client.home_path]; destruct (negb (Str.empty _))]]);
    by repeat split.
Qed.

(** X25: what [processConfig] decides.  Queries given together with
    [queries-file] make it throw [BAD_ARGUMENTS].  When it returns: without
    a terminal on standard input it has not turned the interactive mode on,
    nor for a query without [interactive]; with a terminal and neither
    queries nor query files it has.  The delayed interactive mode needs
    [interactive] and a query or [queries-file].  A run that is neither
    interactive nor delayed leaves the history file and the home path alone.
    The configuration is not written, and the default database is the
    [database] key. *)
Theorem session_mode (cl : Client.t) :
  (Client.queries cl ≠ [] → has (Client.config cl) "queries-file" = true →
   ∃ e, (Client.processConfig cl).1 = Throws e ∧ code e = BAD_ARGUMENTS)
  ∧ (∀ cl', Client.processConfig cl = (Returns (), cl') →
       (Client.queries cl = [] ∨ has (Client.config cl) "queries-file" = false)
       ∧ (stdin_is_a_tty = false → Client.is_interactive cl' = Client.is_interactive cl)
       ∧ (Client.queries cl ≠ [] → has (Client.config cl) "interactive" = false →
          Client.is_interactive cl' = Client.is_interactive cl
          ∧ Client.delayed_interactive cl' = false)
       ∧ (stdin_is_a_tty = true → Client.queries cl = [] → Client.queries_files cl = [] →
          Client.is_interactive cl' = true)
       ∧ (Client.delayed_interactive cl' = true →
          has (Client.config cl) "interactive" = true
          ∧ (Client.queries cl ≠ [] ∨ has (Client.config cl) "queries-file" = true))
       ∧ (Client.is_interactive cl' = false → Client.delayed_interactive cl' = false →
          Client.history_file cl' = Client.history_file cl
          ∧ Client.home_path cl' = Client.home_path cl)
       ∧ Client.config cl' = Client.config cl
       ∧ Client.default_database cl' = getString (Client.config cl) "database" "").
Proof.
  split.
  - intros Hqueries Hfile. unfold Client.processConfig.
    destruct (bool_decide_reflect (Client.queries cl = [])) as [?|_]; [done|].
    rewrite Hfile. cbn [negb andb fst]. by eexists.
  - intros cl' Hconfig.
    destruct (processConfig_returns cl cl' Hconfig)
      as (Hconflict & Hinteractive & Hdelayed & Hsame & Hdatabase & Hhistory).
    rewrite Hinteractive, Hdelayed in *.
    destruct (bool_decide_reflect (Client.queries cl = [])) as [Hqueries|Hqueries];
      destruct (bool_decide_reflect (Client.queries_files cl = [])) as [Hfiles|Hfiles];
      destruct (has (Client.config cl) "queries-file"), (has (Client.config cl) "interactive"),
        stdin_is_a_tty;
      cbn [negb andb orb] in *; try discriminate;
      (repeat split; try done; try (intros; congruence); auto;
       try (apply Hhistory;
            match goal with
            | Hoff : Client.is_interactive cl = false |- _ => by rewrite Hoff
            end)).
Qed.

End EndOfMain.

Section SessionRun.
#[local] Existing Instance Reference.error_codes.
#[local] Existing Instance Reference.defines.
#[local] Existing Instance Reference.build_options.
#[local] Existing Instance Reference.terminal.
#[local] Existing Instance Reference.syntax.
#[local] Existing Instance Reference.bare_process.
#[local] Existing Instance Reference.client_base.
#[local] Existing Instance Reference.server_first_down.
#[local] Existing Instance Reference.connection_string.
#[local] Existing Instance Reference.failing_queries.
Import PacketStream.

(** Two warnings among other packets. *)
Lemma warnings_are_the_rows_received_witness :
  Warnings.showWarnings 100 54456 54470 (Returns ())
    (map Returns Reference.warning_packets ++ Returns EndOfStream :: [Returns Progress])
  = Some ["Warnings:"; " * Linux transparent hugepages are set to always";
          " * Available memory is low"; ""].
Proof.
  refine (proj2 (warnings_are_the_rows_received 100 54456 54470 Reference.warning_packets
                   [Returns Progress] _ _)).
  - lia.
  - repeat constructor.
Defined.

(** A packet of an unknown type after two warnings. *)
Lemma warnings_are_dropped_on_failure_witness :
  Warnings.showWarnings 100 54456 54470 (Returns ())
    (map Returns Reference.warning_packets ++ Returns (OtherPacket 99) :: [Returns EndOfStream])
  = Some [].
Proof.
  refine (proj2 (proj2 (warnings_are_dropped_on_failure 100 54456 54470 (Returns ())
                          Reference.warning_packets (Returns (OtherPacket 99))
                          (mkException 100 "Unknown packet {} from server {}")
                          [Returns EndOfStream] _) _ _)).
  - repeat constructor.
  - lia.
  - right. split; [reflexivity|]. right. right. by exists 99.
Defined.

(** A batch run that ends with the server exception 60. *)
Lemma batch_return_code_witness :
  (Client.main Session.after_connect Reference.batch_client).1 = 60
  ∧ exit_status (Client.main Session.after_connect Reference.batch_client).1 ≠ 0.
Proof.
  assert (Hconfig : Client.processConfig Reference.batch_client
                    = (Returns (), (Client.processConfig Reference.batch_client).2))
    by (vm_compute; reflexivity).
  assert (Hconnect : Client.connect_or_ask_password (Client.processConfig Reference.batch_client).2
                     = (Returns (),
                        (Client.connect_or_ask_password
                           (Client.processConfig Reference.batch_client).2).2))
    by (vm_compute; reflexivity).
  assert (Hbatch : Client.is_interactive
                     (Client.connect_or_ask_password (Client.processConfig Reference.batch_client).2).2
                   && negb (Client.delayed_interactive
                              (Client.connect_or_ask_password
                                 (Client.processConfig Reference.batch_client).2).2)
                   && negb buzz_house = false) by (vm_compute; reflexivity).
  assert (Hrun : runNonInteractive
                   (Client.connect_or_ask_password (Client.processConfig Reference.batch_client).2).2
                 = (Returns (mkRecorded (Some (mkException 60 "Table default.t does not exist"))
                               None true),
                    (Client.connect_or_ask_password
                       (Client.processConfig Reference.batch_client).2).2)) by reflexivity.
  destruct (batch_return_code Reference.batch_client _ _ _ _ Hconfig Hconnect Hbatch Hrun)
    as (Hexception & _).
  destruct (Hexception (mkException 60 "Table default.t does not exist") (or_introl eq_refl))
    as (Hrc & _ & Hstatus).
  split; [exact Hrc|]. intros Hzero. apply Hstatus in Hzero as [_ Hlow]. discriminate.
Defined.

(** A query on the command line, with a terminal on standard input. *)
Lemma session_mode_witness :
  Client.is_interactive (Client.processConfig Reference.batch_client).2 = false
  ∧ Client.delayed_interactive (Client.processConfig Reference.batch_client).2 = false
  ∧ Client.history_file (Client.processConfig Reference.batch_client).2 = "".
Proof.
  assert (Hconfig : Client.processConfig Reference.batch_client
                    = (Returns (), (Client.processConfig Reference.batch_client).2))
    by (vm_compute; reflexivity).
  destruct (proj2 (session_mode Reference.batch_client) _ Hconfig)
    as (_ & _ & Hquery & _ & _ & Hhistory & _).
  destruct Hquery as [Hinteractive Hdelayed]; [discriminate|reflexivity|].
  split; [exact Hinteractive|]. split; [exact Hdelayed|].
  exact (proj1 (Hhistory Hinteractive Hdelayed)).
Defined.

End SessionRun.

(** ** Connection strings, and prompts without placeholders *)

Section ConnectionStrings.
Context `{ErrorCodes} `{Defines} `{ConnectionString}.


End ConnectionStrings.

Section PromptFrame.
Context `{ErrorCodes} `{Defines} `{BuildOptions} `{Terminal} `{ConfigSyntax}
        `{Process} `{ClientBase} `{!Server} `{ConnectionString}.

Lemma replace_all_absent input search format :
  Str.contains input search = false → Str.replace_all input search format = input.
Proof.
  unfold Str.replace_all. induction input as [|c input IH]; [done|].
  cbn [Str.contains Str.replace_all_from].
  destruct (String.prefix search (String c input)); [discriminate|].
  intros Habsent. rewrite andb_false_r. by rewrite IH.
Qed.

(** X27: a template in which none of the four placeholders occurs is not
    changed by the substitution: the prompt is the unescaped template passed
    to [appendSmileyIfNeeded]. *)
Theorem prompt_without_placeholders (config : LayeredConfiguration) parameters display_name
    previous :
  let template := readEscapedString (Client.choose_prompt config display_name previous) in
  (∀ name, name ∈ ["display_name"; "host"; "port"; "user"] →
           Str.contains template ("{" +:+ name +:+ "}") = false) →
  Client.compose_prompt config parameters display_name previous
  = appendSmileyIfNeeded template.
Proof.
  intros template Habsent. unfold Client.compose_prompt. fold template.
  unfold Client.substitute, Client.prompt_substitutions. cbn [foldl].
  do 4 (rewrite (replace_all_absent template) by (apply Habsent; set_solver)).
  reflexivity.
Qed.

End PromptFrame.

Section ConnectionStringsRun.
#[local] Existing Instance Reference.error_codes.
#[local] Existing Instance Reference.defines.
#[local] Existing Instance Reference.build_options.
#[local] Existing Instance Reference.terminal.
#[local] Existing Instance Reference.syntax.
#[local] Existing Instance Reference.bare_process.
#[local] Existing Instance Reference.client_base.
#[local] Existing Instance Reference.server_first_down.
#[local] Existing Instance Reference.connection_string.


(** The prompt [sql> ]. *)
Lemma prompt_without_placeholders_witness :
  Client.compose_prompt
    (mkLayered (mkMapConfiguration {[ "prompt" := "sql> " ]} (λ _, [])) [])
    Reference.local_parameters "server" "" = "sql> ".
Proof.
  refine (prompt_without_placeholders
            (mkLayered (mkMapConfiguration {[ "prompt" := "sql> " ]} (λ _, [])) [])
            Reference.local_parameters "server" "" _).
  intros name Hname.
  repeat (apply elem_of_cons in Hname as [->|Hname]; [vm_compute; reflexivity|]).
  exfalso. exact (proj1 (elem_of_nil name) Hname).
Defined.

End ConnectionStringsRun.

(* ------------------------------------------------------------------ *)
(** * The argument scan on any argument vector *)
(* ------------------------------------------------------------------ *)

Section ScanInvariant.
Context `{ErrorCodes} `{Defines} `{ConnectionString}.
Import ArgumentsSpec.

Ltac project_reading :=
  cbn [Client.hosts_and_ports_arguments Client.prev_host_arg Client.prev_port_arg
       Client.push_hosts_and_ports Client.set_prev_host_arg Client.set_prev_port_arg].

Lemma group_added groups group :
  Forall (λ group, host_and_port_group group = true) groups →
  host_and_port_group group = true →
  Forall (λ group, host_and_port_group group = true) (groups ++ [group]).
Proof. intros Hgroups Hgroup. apply Forall_app. split; [done|]. by constructor. Qed.

Lemma host_seen_scanned host_arg r :
  host_like host_arg = true → scanned r → scanned (Client.host_seen host_arg r).
Proof.
  intros Hhost (Hgroups & Hpending_host & Hpending_port). unfold Client.host_seen, scanned.
  destruct (Str.empty (Client.prev_port_arg r)) eqn:Hport; cbn [negb].
  - destruct (Str.empty (Client.prev_host_arg r)) eqn:Hprevious; cbn [negb]; project_reading.
    + split; [done|]. split; [by right|done].
    + split; [|split; [by right|done]].
      apply group_added; [done|]. unfold host_and_port_group.
      destruct Hpending_host as [Hnone|Hlike]; [by rewrite Hnone in Hprevious|].
      by rewrite Hlike.
  - project_reading. split; [|split; [done|by left]].
    apply group_added; [done|]. unfold host_and_port_group.
    destruct Hpending_port as [Hnone|Hlike]; [by rewrite Hnone in Hport|].
    by rewrite Hhost, Hlike.
Qed.

Lemma port_seen_scanned port_arg r :
  port_like port_arg = true → scanned r → scanned (Client.port_seen port_arg r).
Proof.
  intros Hport (Hgroups & Hpending_host & Hpending_port). unfold Client.port_seen, scanned.
  destruct (Str.empty (Client.prev_host_arg r)) eqn:Hhost; cbn [negb].
  - destruct (Str.empty (Client.prev_port_arg r)) eqn:Hprevious; cbn [negb]; project_reading.
    + split; [done|]. split; [done|by right].
    + split; [|split; [done|by right]].
      apply group_added; [done|]. unfold host_and_port_group.
      destruct Hpending_port as [Hnone|Hlike]; [by rewrite Hnone in Hprevious|].
      by rewrite Hlike, orb_true_r.
  - project_reading. split; [|split; [by left|done]].
    apply group_added; [done|]. unfold host_and_port_group.
    destruct Hpending_host as [Hnone|Hlike]; [by rewrite Hnone in Hhost|].
    by rewrite Hport, Hlike, orb_true_r.
Qed.

Lemma flush_pending_scanned r :
  scanned r →
  Forall (λ group, host_and_port_group group = true)
    (Client.hosts_and_ports_arguments (Client.flush_pending r)).
Proof.
  intros (Hgroups & Hpending_host & Hpending_port). unfold Client.flush_pending.
  assert (Hhost : Str.empty (Client.prev_host_arg r) = false →
                  host_and_port_group [Client.prev_host_arg r] = true).
  { intros Hthere. unfold host_and_port_group.
    destruct Hpending_host as [Hnone|Hlike]; [by rewrite Hnone in Hthere|]. by rewrite Hlike. }
  assert (Hport : Str.empty (Client.prev_port_arg r) = false →
                  host_and_port_group [Client.prev_port_arg r] = true).
  { intros Hthere. unfold host_and_port_group.
    destruct Hpending_port as [Hnone|Hlike]; [by rewrite Hnone in Hthere|].
    by rewrite Hlike, orb_true_r. }
  destruct (Str.empty (Client.prev_host_arg r)); cbn [negb]; project_reading;
    destruct (Str.empty (Client.prev_port_arg r)); cbn [negb]; project_reading;
    repeat apply group_added; auto.
Qed.


Lemma host_value_is_host_like value : host_like ("--host=" +:+ value) = true.
Proof. reflexivity. Qed.

Lemma port_value_is_port_like value : port_like ("--port" +:+ "=" +:+ value) = true.
Proof. reflexivity. Qed.

(** The scan keeps its state as [scanned] says, and throws nothing but
    [BAD_ARGUMENTS]. *)
Lemma scan_arguments_invariant n : ∀ args r,
  (length args ≤ n)%nat →
  scanned r →
  match Client.scan_arguments false args r with
  | Returns r' => scanned r'
  | Throws e => code e = BAD_ARGUMENTS
  end.
Proof.
  induction n as [|n IH]; intros args r Hlength Hscanned.
  - destruct args; [done|simpl in Hlength; lia].
  - destruct args as [|arg rest]; [done|].
    assert (Hnext : ∀ r', scanned r' →
              match Client.scan_arguments false rest r' with
              | Returns r'' => scanned r''
              | Throws e => code e = BAD_ARGUMENTS
              end).
    { intros r' Hr'. apply IH; [simpl in Hlength; lia|done]. }
    assert (Hafter : ∀ value rest' r', rest = value :: rest' → scanned r' →
              match Client.scan_arguments false rest' r' with
              | Returns r'' => scanned r''
              | Throws e => code e = BAD_ARGUMENTS
              end).
    { intros value rest' r' -> Hr'. apply IH; [simpl in Hlength; lia|done]. }
    cbn [Client.scan_arguments mbind Exceptional_bind].
    destruct (String.eqb arg "--external"); [by apply Hnext|].
    destruct (Client.in_external_group r && Client.external_option_with_value arg);
      [by apply Hnext|].
    destruct (Client.in_external_group r && Client.external_option arg).
    { destruct rest as [|value rest'] eqn:Hshape; [done|]. by eapply Hafter. }
    destruct (Client.external_only_option arg); [done|].
    destruct (Str.starts_with arg "--param_" || Str.starts_with arg "--param-").
    { destruct (Str.find_first_of _ _) as [equal_pos|].
      - destruct (equal_pos =? 0)%nat; [done|]. by apply Hnext.
      - destruct rest as [|value rest'] eqn:Hshape; [done|]. by eapply Hafter. }
    destruct (Str.starts_with arg "--host" || Str.starts_with arg "-h") eqn:Hhost.
    { destruct (String.eqb arg "--host" || String.eqb arg "-h").
      - destruct rest as [|value rest'] eqn:Hshape; [done|].
        eapply Hafter; [done|]. apply host_seen_scanned; [apply host_value_is_host_like|done].
      - apply Hnext. by apply host_seen_scanned. }
    destruct (Str.starts_with arg "--port") eqn:Hport.
    { destruct (String.eqb_spec arg "--port") as [->|_].
      - destruct rest as [|value rest'] eqn:Hshape; [done|].
        eapply Hafter; [done|]. apply port_seen_scanned; [apply port_value_is_port_like|done].
      - apply Hnext. by apply port_seen_scanned. }
    destruct (String.eqb arg "--allow_repeated_settings"); [by apply Hnext|].
    destruct (String.eqb arg "--allow_merge_tree_settings"); [by apply Hnext|].
    destruct (String.eqb arg "--password" && _); by apply Hnext.
Qed.

(** X28: [readArguments] on an argument vector whose first argument is no
    connection string, whatever the arguments are, either throws an exception
    whose code is [BAD_ARGUMENTS], or returns; and when it returns, every
    group left in [hosts_and_ports_arguments] is one host argument, one port
    argument, or one of each, provided that the groups passed in were. *)
Theorem readArguments_outcome program args common external groups :
  (∀ first, head args = Some first → tryParseConnectionString first = Returns None) →
  Forall (λ group, host_and_port_group group = true) groups →
  match Client.readArguments (program :: args) common external groups with
  | Returns r =>
      Forall (λ group, host_and_port_group group = true) (Client.hosts_and_ports_arguments r)
  | Throws e => code e = BAD_ARGUMENTS
  end.
Proof.
  intros Hstring Hgroups. rewrite readArguments_scan by done.
  pose proof (scan_arguments_invariant (length args) args
                (Client.mkReading common external groups ∅ false false false "" "")
                (Nat.le_refl _)) as Hscan.
  destruct (Client.scan_arguments false args _) as [r|e]; cbn [mbind Exceptional_bind].
  - apply flush_pending_scanned, Hscan. split; [done|]. split; by left.
  - apply Hscan. split; [done|]. split; by left.
Qed.

End ScanInvariant.

Section ScanInvariantRun.
#[local] Existing Instance Reference.error_codes.
#[local] Existing Instance Reference.defines.
#[local] Existing Instance Reference.connection_string.
Import ArgumentsSpec.

(** Hosts and ports in an unusual order, and spelled in every way. *)
Lemma readArguments_outcome_witness :
  match Client.readArguments
          ["clickhouse-client"; "--port"; "9000"; "--port=9440"; "-hlocalhost"; "--host";
           "--port"; "-h"; "h3"] [""] [] [] with
  | Returns r =>
      Forall (λ group, host_and_port_group group = true) (Client.hosts_and_ports_arguments r)
  | Throws e => code e = BAD_ARGUMENTS
  end.
Proof.
  refine (readArguments_outcome "clickhouse-client"
            ["--port"; "9000"; "--port=9440"; "-hlocalhost"; "--host"; "--port"; "-h"; "h3"]
            [""] [] [] _ _).
  - intros first [= <-]. reflexivity.
  - constructor.
Defined.

(** The groups of that vector. *)
Example groups_run :
  (r ← Client.readArguments
         ["clickhouse-client"; "--port"; "9000"; "--port=9440"; "-hlocalhost"; "--host";
          "--port"; "-h"; "h3"] [""] [] [];
   Returns (Client.hosts_and_ports_arguments r))
  = Returns [["--port=9000"]; ["-hlocalhost"; "--port=9440"]; ["--host=--port"];
             ["--host=h3"]].
Proof. vm_compute; reflexivity. Qed.

End ScanInvariantRun.
